(** * CLI_SHELL: a shallow embedding of the lightweight CLI shell

    Source: [USB_DEVICE/App/CLI_SHELL.c], [CLI_SHELL.h] and
    [CLI_SHELL_COMMANDS.h].

    The C code is embedded function by function.  Bytes ([uint8_t]) and the
    other machine integers are values of [Z]; every narrowing assignment is
    written out with its wrap-around ([u8], [u32], [i8]).  The fixed-size
    arrays of the program are lists, read and written through [rd] and [wr],
    which report an access outside the declared array as a [Fault] instead
    of performing it.  Loops carry a fuel argument; a loop that uses up its
    fuel reports [OutOfFuel]. *)

From Stdlib Require Import ZArith String Ascii Lia.
From stdpp Require Import base list.

Local Open Scope Z_scope.

(** ** Outcomes of running C code *)

(** The arrays of the program that are indexed by computed values. *)
Inductive object : Type :=
  | RxBuffer        (* shellBuffer.rxBuffer[SHELL_BUFFER_LEN]          *)
  | BufferCopy      (* the local bufferCopy[SHELL_CMD_LEN]             *)
  | SourceBuf       (* the caller's buffer handed to rxShellInput      *)
  | CmdName         (* shellParserOutput_t.cmdName[SHELL_CMD_LEN]      *)
  | ArgContents     (* shellArgument_t.argContents[SHELL_ARG_LEN]      *)
  | CmdArgs         (* shellParserOutput_t.cmdArgs[MAX_ARGUMENTS]      *)
  | CmdArgsTable    (* shellCmdTemplate_t.cmdArgsTable[MAX_ARGUMENTS]  *)
  | CmdTable        (* shellCmdTemplateTable[NUM_OF_COMMANDS]          *)
  | TmpBuffer.      (* the local tmpBuffer[500] of HelpRunner          *)

Inductive fault : Type :=
  | OutOfBounds (obj : object) (idx : Z)  (* access outside the array  *)
  | NullString                            (* "%s" handed a NULL pointer *)
  | UninitializedRead                     (* an indeterminate value used *)
  | OutOfFuel.                            (* the loop did not finish    *)

Inductive result (A : Type) : Type :=
  | Ok (a : A)
  | Fault (f : fault).
Arguments Ok {A} a.
Arguments Fault {A} f.

Definition bind {A B : Type} (r : result A) (k : A -> result B) : result B :=
  match r with
  | Ok a => k a
  | Fault f => Fault f
  end.

Declare Scope shell_scope.
Notation "x <- c1 ;; c2" := (bind c1 (fun x => c2))
  (at level 60, c1 at next level, right associativity) : shell_scope.
Local Open Scope shell_scope.

(** ** Machine integers and arrays *)

Definition u8 (z : Z) : Z := z mod 256.
Definition u32 (z : Z) : Z := z mod 4294967296.
(** Conversion of an in-range unsigned value to [int8_t] (two's complement). *)
Definition i8 (z : Z) : Z := (z + 128) mod 256 - 128.

(** [a[i]] as an rvalue. *)
Definition rd (obj : object) (a : list Z) (i : Z) : result Z :=
  if 0 <=? i then
    match a !! Z.to_nat i with
    | Some x => Ok x
    | None => Fault (OutOfBounds obj i)
    end
  else Fault (OutOfBounds obj i).

(** [a[i] = x]. *)
Definition wr (obj : object) (a : list Z) (i : Z) (x : Z) : result (list Z) :=
  if (0 <=? i) && (i <? Z.of_nat (length a)) then Ok (<[Z.to_nat i := x]> a)
  else Fault (OutOfBounds obj i).

(** The bytes of a string literal. *)
Fixpoint bytes (s : string) : list Z :=
  match s with
  | EmptyString => []
  | String c r => Z.of_N (N_of_ascii c) :: bytes r
  end.

(** A C string read out of an array: the bytes before the first NUL. *)
Fixpoint cstr (a : list Z) : list Z :=
  match a with
  | [] => []
  | c :: r => if c =? 0 then [] else c :: cstr r
  end.

(** ** CLI_SHELL.h *)

Definition MAX_ARGUMENTS : Z := 5.
Definition SHELL_BUFFER_LEN : Z := 100.
Definition SHELL_CMD_LEN : Z := SHELL_BUFFER_LEN.
Definition SHELL_ARG_LEN : Z := 20.

Definition SPACE : Z := 32.   (* ' ' *)

Inductive shell_error : Type := SHELL_OK | SHELL_ERR.

Inductive argType_t : Type :=
  | arg_uint8 | arg_uint16 | arg_uint32 | arg_char
  | arg_string | arg_float | arg_flag.

Inductive responseCode_t : Type :=
  | RESPONSE_OK | RESPONSE_FNC_ERR | RESPONSE_CMD_ERR | RESPONSE_ARG_ERR.

(** [argToken_t]: [argTkn_a = 0] .. [argTkn_z = 25], [argTkn_err = 26]. *)
Definition argToken_t : Type := Z.
Definition argTkn_a : argToken_t := 0.
Definition argTkn_b : argToken_t := 1.
Definition argTkn_z : argToken_t := 25.
Definition argTkn_err : argToken_t := 26.

(** [shellBufferHandle_t]; [rxBuffer] has [SHELL_BUFFER_LEN] bytes. *)
Record shellBufferHandle_t : Type := mkShellBuffer {
  rxFlag : bool;
  rxBuffer : list Z;
  rxLen : Z
}.

(** ** scrubWhiteSpace *)

(** Every loop of the file counts with a [uint8_t], so a loop that ends at
    all ends within 256 iterations. *)
Definition U8_FUEL : nat := 257.

(** [for (uint8_t i = i0; i < bound; i++) rxBuffer[i] = rxBuffer[i + 1];]
    The bound is an [int] expression, [i + 1] is computed in [int]. *)
Fixpoint shiftLoop (fuel : nat) (i bound : Z) (buf : list Z) : result (list Z) :=
  match fuel with
  | O => Fault OutOfFuel
  | S fuel' =>
      if i <? bound then
        x <- rd RxBuffer buf (i + 1) ;;
        buf' <- wr RxBuffer buf i x ;;
        shiftLoop fuel' (u8 (i + 1)) bound buf'
      else Ok buf
  end.

(** [while (rxBuffer[0] == ' ' && currentLength > 0) { shift; currentLength--; }] *)
Fixpoint scrubLeading (fuel : nat) (currentLength : Z) (buf : list Z)
  : result (Z * list Z) :=
  match fuel with
  | O => Fault OutOfFuel
  | S fuel' =>
      c <- rd RxBuffer buf 0 ;;
      if (c =? SPACE) && (currentLength >? 0) then
        buf' <- shiftLoop U8_FUEL 0 (currentLength - 1) buf ;;
        scrubLeading fuel' (u8 (currentLength - 1)) buf'
      else Ok (currentLength, buf)
  end.

(** [while (rxBuffer[lastIndex] == ' ' && currentLength > 0)
       { currentLength--; lastIndex = currentLength - 1; }] *)
Fixpoint scrubTrailing (fuel : nat) (currentLength lastIndex : Z) (buf : list Z)
  : result Z :=
  match fuel with
  | O => Fault OutOfFuel
  | S fuel' =>
      c <- rd RxBuffer buf lastIndex ;;
      if (c =? SPACE) && (currentLength >? 0) then
        let currentLength' := u8 (currentLength - 1) in
        scrubTrailing fuel' currentLength' (u8 (currentLength' - 1)) buf
      else Ok currentLength
  end.

(** [for (uint8_t i = 0; i < currentLength; i++)
       if (rxBuffer[i] == ' ' && rxBuffer[i + 1] == ' ') {
         for (uint8_t j = (i + 1); j < currentLength - 2; j++)
           rxBuffer[j] = rxBuffer[j + 1];
         currentLength--;
       }]
    The second operand of [&&] is read only when the first one holds. *)
Fixpoint scrubDuplicate (fuel : nat) (i currentLength : Z) (buf : list Z)
  : result (Z * list Z) :=
  match fuel with
  | O => Fault OutOfFuel
  | S fuel' =>
      if i <? currentLength then
        a <- rd RxBuffer buf i ;;
        if a =? SPACE then
          b <- rd RxBuffer buf (i + 1) ;;
          if b =? SPACE then
            buf' <- shiftLoop U8_FUEL (u8 (i + 1)) (currentLength - 2) buf ;;
            scrubDuplicate fuel' (u8 (i + 1)) (u8 (currentLength - 1)) buf'
          else scrubDuplicate fuel' (u8 (i + 1)) currentLength buf
        else scrubDuplicate fuel' (u8 (i + 1)) currentLength buf
      else Ok (currentLength, buf)
  end.

Definition scrubWhiteSpace (sb : shellBufferHandle_t) : result shellBufferHandle_t :=
  (* uint8_t currentLength = shellBuffer.rxLen; *)
  let currentLength := u8 (rxLen sb) in
  p <- scrubLeading U8_FUEL currentLength (rxBuffer sb) ;;
  let '(currentLength, buf) := p in
  (* uint8_t lastIndex = currentLength - 1; *)
  let lastIndex := u8 (currentLength - 1) in
  currentLength <- scrubTrailing U8_FUEL currentLength lastIndex buf ;;
  p <- scrubDuplicate U8_FUEL 0 currentLength buf ;;
  let '(currentLength, buf) := p in
  (* shellBuffer.rxLen = currentLength; *)
  Ok (mkShellBuffer (rxFlag sb) buf currentLength).


(** ** Parser and template structures (CLI_SHELL.h) *)

(** A scalar local that C declares without an initialiser holds an
    indeterminate value until it is assigned. *)
Inductive cvalue (A : Type) : Type :=
  | Init (a : A)
  | Uninit.
Arguments Init {A} a.
Arguments Uninit {A}.

(** [shellArgument_t]; [argContents] has [SHELL_ARG_LEN] bytes.  The field
    [argContLen] is assigned by extractArguments; its declaration is not in
    the header at hand, it is kept here as a plain integer. *)
Record shellArgument_t : Type := mkShellArgument {
  argContents : list Z;
  argContLen : Z;
  argToken : argToken_t
}.

(** [shellParserOutput_t]; [cmdName] has [SHELL_CMD_LEN] bytes, [cmdArgs]
    has [MAX_ARGUMENTS] entries, [numArgs] is a [uint8_t]. *)
Record shellParserOutput_t : Type := mkShellParserOutput {
  cmdName : list Z;
  numArgs : Z;
  cmdArgs : list shellArgument_t
}.

(** [shellArgTemplate_t]. *)
Record shellArgTemplate_t : Type := mkShellArgTemplate {
  mandatory : bool;
  type : argType_t;
  token : argToken_t
}.

(** What the shell can observe of the outside: the buffers handed to
    [outputStreamChannel], and which table entry's runner was entered. *)
Inductive event : Type :=
  | Transmit (data : list Z)
  | Invoke (commandTableIndex : Z).

(** [shellBridge_t]: a runner receives the parser output; it yields its
    return code and the buffers it handed to [outputStreamChannel]. *)
Definition shellBridge_t : Type :=
  shellParserOutput_t -> result (shell_error * list (list Z)).

(** [shellCmdTemplate_t]; the fields carry the prefix [tpl_] because
    [cmdName] and [numArgs] are taken by the parser output.  [tpl_cmdName]
    and [tpl_helpDesc] are C string literals (no terminator stored here),
    [tpl_numArgs] is a [uint8_t], [tpl_cmdArgsTable] has at most
    [MAX_ARGUMENTS] entries. *)
Record shellCmdTemplate_t : Type := mkShellCmdTemplate {
  tpl_cmdName : list Z;
  tpl_helpDesc : list Z;
  tpl_runner : shellBridge_t;
  tpl_numArgs : Z;
  tpl_cmdArgsTable : list shellArgTemplate_t
}.

(** The state of the module: the global [shellBuffer], and the events seen
    at its boundary so far. *)
Record shell_state : Type := mkShellState {
  shellBuffer : shellBufferHandle_t;
  trace : list event
}.

(** ** libc *)

(** [memcpy(dst, src, n)], byte by byte from index [k]. *)
Fixpoint memcpy_from (n : nat) (k : Z) (dobj sobj : object) (dst src : list Z)
  : result (list Z) :=
  match n with
  | O => Ok dst
  | S n' =>
      x <- rd sobj src k ;;
      dst' <- wr dobj dst k x ;;
      memcpy_from n' (k + 1) dobj sobj dst' src
  end.

Definition memcpy (dobj sobj : object) (dst src : list Z) (n : Z) : result (list Z) :=
  memcpy_from (Z.to_nat n) 0 dobj sobj dst src.

(** [memset(dst, c, n)]. *)
Fixpoint memset_from (n : nat) (k : Z) (dobj : object) (dst : list Z) (c : Z)
  : result (list Z) :=
  match n with
  | O => Ok dst
  | S n' =>
      dst' <- wr dobj dst k c ;;
      memset_from n' (k + 1) dobj dst' c
  end.

Definition memset (dobj : object) (dst : list Z) (c : Z) (n : Z) : result (list Z) :=
  memset_from (Z.to_nat n) 0 dobj dst c.

Definition strlen (s : list Z) : Z := Z.of_nat (length (cstr s)).

(** [strcmp]: the difference of the first bytes that differ, the end of a
    string counting as its NUL. *)
Fixpoint strcmp (a b : list Z) : Z :=
  match a, b with
  | [], [] => 0
  | [], y :: _ => 0 - y
  | x :: _, [] => x
  | x :: a', y :: b' =>
      if x =? y then (if x =? 0 then 0 else strcmp a' b') else x - y
  end.

(** [strtok] with the one delimiter [" "].  The unread part of the array is
    the state kept between calls: [strtok(buf, delim)] starts from the whole
    array, [strtok(NULL, delim)] from what the previous call left.  A scan
    that reaches the end of the array without meeting a NUL has left it. *)
Fixpoint skipDelim (s : list Z) : list Z :=
  match s with
  | c :: r => if c =? SPACE then skipDelim r else s
  | [] => []
  end.

Fixpoint scanToken (s : list Z) : result (list Z * list Z) :=
  match s with
  | [] => Fault (OutOfBounds BufferCopy SHELL_CMD_LEN)
  | c :: r =>
      if c =? 0 then Ok ([], s)              (* token runs up to the NUL   *)
      else if c =? SPACE then Ok ([], r)     (* delimiter overwritten by NUL *)
      else
        p <- scanToken r ;;
        let '(tok, rest) := p in Ok (c :: tok, rest)
  end.

(** Result: the token ([None] for a NULL return) and the new saved position. *)
Definition strtok (s : list Z) : result (option (list Z) * list Z) :=
  match skipDelim s with
  | [] => Fault (OutOfBounds BufferCopy SHELL_CMD_LEN)
  | c :: r =>
      if c =? 0 then Ok (None, c :: r)
      else
        p <- scanToken (c :: r) ;;
        let '(tok, rest) := p in Ok (Some tok, rest)
  end.

(** [strtol(s, NULL, 10)] for a 32-bit [long] (the ARM target of the USB
    device stack). *)
Definition LONG_MAX : Z := 2147483647.
Definition LONG_MIN : Z := -2147483648.

Definition isspace (c : Z) : bool := (c =? 32) || ((9 <=? c) && (c <=? 13)).
Definition isdigit (c : Z) : bool := (48 <=? c) && (c <=? 57).

Fixpoint skipSpace (s : list Z) : list Z :=
  match s with
  | c :: r => if isspace c then skipSpace r else s
  | [] => []
  end.

Fixpoint strtol_digits (acc : Z) (s : list Z) : Z :=
  match s with
  | c :: r => if isdigit c then strtol_digits (acc * 10 + (c - 48)) r else acc
  | [] => acc
  end.

Definition strtol (s : list Z) : Z :=
  let s := skipSpace s in
  let '(neg, s) :=
    match s with
    | c :: r => if c =? 45 then (true, r) else if c =? 43 then (false, r) else (false, s)
    | [] => (false, s)
    end in
  let v := strtol_digits 0 s in
  if neg then Z.max LONG_MIN (- v) else Z.min LONG_MAX v.

(** ** Tokens and extraction *)

Definition getTokenFromChar (chrToken : Z) : argToken_t :=
  let asciiVal := u8 chrToken in
  if (asciiVal >=? 97) && (asciiVal <=? 122) then asciiVal - 97
  else argTkn_err.

(** [uint8_t bufferCopy[SHELL_CMD_LEN] = {0};
     memcpy(bufferCopy, shellBuffer.rxBuffer, shellBuffer.rxLen);] *)
Definition copyBuffer (sb : shellBufferHandle_t) : result (list Z) :=
  memcpy BufferCopy RxBuffer (replicate (Z.to_nat SHELL_CMD_LEN) 0) (rxBuffer sb) (rxLen sb).

(** [sprintf(dst, "%s", s)]: the bytes of [s] and a NUL. *)
Definition sprintf_s (dobj : object) (dst : list Z) (s : option (list Z))
  : result (list Z) :=
  match s with
  | None => Fault NullString
  | Some s =>
      let src := s ++ [0] in
      memcpy dobj BufferCopy dst src (Z.of_nat (length src))
  end.

Definition exctractCommand (sb : shellBufferHandle_t) (cmdParseOut : shellParserOutput_t)
  : result (shell_error * shellParserOutput_t) :=
  bufferCopy <- copyBuffer sb ;;
  p <- strtok bufferCopy ;;
  let extractCmd := fst p in
  name <- sprintf_s CmdName (cmdName cmdParseOut) extractCmd ;;
  Ok (SHELL_OK, mkShellParserOutput name (numArgs cmdParseOut) (cmdArgs cmdParseOut)).

(** The loop of extractArguments; [extractArg] is the current token, [save]
    what strtok kept. *)
Fixpoint extractArguments_loop (fuel : nat) (i : Z) (extractArg : option (list Z))
    (save : list Z) (args : list shellArgument_t)
  : result (Z * list shellArgument_t) :=
  match fuel with
  | O => Fault OutOfFuel
  | S fuel' =>
      match i <? MAX_ARGUMENTS, extractArg with
      | true, Some tok =>
          match args !! Z.to_nat i with
          | None => Fault (OutOfBounds CmdArgs i)
          | Some arg =>
              c1 <- memset ArgContents (argContents arg) 0 (strlen tok + 1) ;;
              c2 <- memcpy ArgContents BufferCopy c1 tok (strlen tok) ;;
              let arg' :=
                mkShellArgument c2 (strlen tok - 1) (getTokenFromChar (hd 0 tok)) in
              p <- strtok save ;;
              extractArguments_loop fuel' (u8 (i + 1)) (fst p) (snd p)
                (<[Z.to_nat i := arg']> args)
          end
      | _, _ => Ok (i, args)
      end
  end.

Definition extractArguments (sb : shellBufferHandle_t) (cmdParseOut : shellParserOutput_t)
  : result (shell_error * shellParserOutput_t) :=
  bufferCopy <- copyBuffer sb ;;
  p <- strtok bufferCopy ;;
  p <- strtok (snd p) ;;
  q <- extractArguments_loop (S (Z.to_nat MAX_ARGUMENTS)) 0 (fst p) (snd p)
         (cmdArgs cmdParseOut) ;;
  Ok (SHELL_OK, mkShellParserOutput (cmdName cmdParseOut) (fst q) (snd q)).

(** ** Validation *)

(** [ret > 0xFFFFFFFF] with [ret] a 32-bit [long]: the constant has type
    [unsigned int], so [ret] is converted to [unsigned long] first. *)
Definition gt_long_ulong (ret k : Z) : bool := u32 ret >? k.

Definition validateArgType (argDataType : argType_t) (dataString : list Z) : bool :=
  match argDataType with
  | arg_uint8 =>
      let ret := strtol dataString in
      if (ret <? 0) && (ret >? 255) then false else true
  | arg_uint16 =>
      let ret := strtol dataString in
      if (ret <? 0) && (ret >? 65535) then false else true
  | arg_uint32 =>
      let ret := strtol dataString in
      if (ret <? 0) && gt_long_ulong ret 4294967295 then false else true
  | arg_char =>
      (* ret = (char)*dataString; plain char is unsigned on the target *)
      let ret := u8 (hd 0 dataString) in
      if (ret <? 32) && (ret >? 127) then false else true
  | arg_string => true
  | arg_float => true
  | arg_flag => true
  end.

(** The inner loop of validateArgs over the parsed arguments.  [None]: the
    function has returned false from inside the loop; [Some tokenFound]:
    the loop ran to its end. *)
Fixpoint validateArgs_find (fuel : nat) (j : Z) (cmdParserOutput : shellParserOutput_t)
    (tmpl : shellArgTemplate_t) (tokenFound : bool) : result (option bool) :=
  match fuel with
  | O => Fault OutOfFuel
  | S fuel' =>
      if j <? numArgs cmdParserOutput then
        match cmdArgs cmdParserOutput !! Z.to_nat j with
        | None => Fault (OutOfBounds CmdArgs j)
        | Some arg =>
            if argToken arg =? token tmpl then
              if negb (validateArgType (type tmpl) (argContents arg)) then Ok None
              else validateArgs_find fuel' (u8 (j + 1)) cmdParserOutput tmpl true
            else validateArgs_find fuel' (u8 (j + 1)) cmdParserOutput tmpl tokenFound
        end
      else Ok (Some tokenFound)
  end.

(** The outer loop of validateArgs over the template of one command. *)
Fixpoint validateArgs_loop (fuel : nat) (i : Z) (cmdParserOutput : shellParserOutput_t)
    (cmd : shellCmdTemplate_t) : result bool :=
  match fuel with
  | O => Fault OutOfFuel
  | S fuel' =>
      if i <? tpl_numArgs cmd then
        match tpl_cmdArgsTable cmd !! Z.to_nat i with
        | None => Fault (OutOfBounds CmdArgsTable i)
        | Some tmpl =>
            if mandatory tmpl then
              r <- validateArgs_find U8_FUEL 0 cmdParserOutput tmpl false ;;
              match r with
              | None => Ok false
              | Some tokenFound =>
                  if negb tokenFound then Ok false
                  else validateArgs_loop fuel' (u8 (i + 1)) cmdParserOutput cmd
              end
            else validateArgs_loop fuel' (u8 (i + 1)) cmdParserOutput cmd
        end
      else Ok true
  end.

Section Shell.

(** [shellCmdTemplateTable]; [NUM_OF_COMMANDS] is its number of entries. *)
Variable shellCmdTemplateTable : list shellCmdTemplate_t.

Definition NUM_OF_COMMANDS : Z := Z.of_nat (length shellCmdTemplateTable).

Definition tableEntry (i : Z) : result shellCmdTemplate_t :=
  if 0 <=? i then
    match shellCmdTemplateTable !! Z.to_nat i with
    | Some cmd => Ok cmd
    | None => Fault (OutOfBounds CmdTable i)
    end
  else Fault (OutOfBounds CmdTable i).

Definition validateArgs (cmdParserOutput : shellParserOutput_t) (commandIndex : Z)
  : result bool :=
  cmd <- tableEntry commandIndex ;;
  validateArgs_loop U8_FUEL 0 cmdParserOutput cmd.

(** The loop of matchCommand; [commandIndex] is the [int8_t] the caller's
    pointer refers to. *)
Fixpoint matchCommand_loop (fuel : nat) (i : Z) (name : list Z)
    (matchFlag : bool) (commandIndex : cvalue Z) : result (bool * cvalue Z) :=
  match fuel with
  | O => Fault OutOfFuel
  | S fuel' =>
      if i <? NUM_OF_COMMANDS then
        cmd <- tableEntry i ;;
        let ret := strcmp name (tpl_cmdName cmd) in
        if ret =? 0 then
          matchCommand_loop fuel' (u8 (i + 1)) name true (Init (i8 i))
        else
          matchCommand_loop fuel' (u8 (i + 1)) name matchFlag commandIndex
      else Ok (matchFlag, commandIndex)
  end.

Definition matchCommand (cmdParserOutput : shellParserOutput_t) (commandIndex : cvalue Z)
  : result (shell_error * cvalue Z) :=
  p <- matchCommand_loop U8_FUEL 0 (cmdName cmdParserOutput) false commandIndex ;;
  let '(matchFlag, commandIndex) := p in
  if negb matchFlag then Ok (SHELL_OK, Init (-1))
  else Ok (SHELL_OK, commandIndex).

(** ** Responses *)

Definition CRLF : list Z := [13; 10].

Definition outputStreamChannel (buffer : list Z) (length : Z) (tr : list event)
  : list event :=
  tr ++ [Transmit (take (Z.to_nat length) buffer)].

(** [tmpBuffer] has 30 bytes; every message copied into it is shorter.
    There is no case for [RESPONSE_FNC_ERR]. *)
Definition shellSendResponse (code : responseCode_t) (tr : list event)
  : shell_error * list event :=
  match code with
  | RESPONSE_OK =>
      let tmpBuffer := bytes "-->OK!" ++ CRLF in
      (SHELL_OK, outputStreamChannel tmpBuffer (strlen tmpBuffer) tr)
  | RESPONSE_CMD_ERR =>
      let tmpBuffer := bytes "Command Error!" ++ CRLF in
      (SHELL_OK, outputStreamChannel tmpBuffer (strlen tmpBuffer) tr)
  | RESPONSE_ARG_ERR =>
      let tmpBuffer := bytes "Argument Error!" ++ CRLF in
      (SHELL_OK, outputStreamChannel tmpBuffer (strlen tmpBuffer) tr)
  | RESPONSE_FNC_ERR => (SHELL_OK, tr)
  end.

(** ** Matching and dispatch *)

Definition getCommand (cmdParserOutput : shellParserOutput_t)
    (commandTableIndex : cvalue Z) (tr : list event)
  : result (shell_error * cvalue Z * list event) :=
  (* int8_t commandIndex; *)
  p <- matchCommand cmdParserOutput Uninit ;;
  match snd p with
  | Uninit => Fault UninitializedRead
  | Init commandIndex =>
      if commandIndex <? 0 then
        Ok (SHELL_ERR, commandTableIndex, snd (shellSendResponse RESPONSE_CMD_ERR tr))
      else
        (* the argument of validateArgs is a uint8_t *)
        valid <- validateArgs cmdParserOutput (u8 commandIndex) ;;
        if negb valid then
          Ok (SHELL_ERR, commandTableIndex, snd (shellSendResponse RESPONSE_ARG_ERR tr))
        else Ok (SHELL_OK, Init (u8 commandIndex), tr)
  end.

Definition shellParseCommand (sb : shellBufferHandle_t) (cmdParseOut : shellParserOutput_t)
  : result (shell_error * shellParserOutput_t * shellBufferHandle_t) :=
  sb <- scrubWhiteSpace sb ;;
  p <- exctractCommand sb cmdParseOut ;;
  let '(status, cmdParseOut) := p in
  match status with
  | SHELL_ERR => Ok (status, cmdParseOut, sb)
  | SHELL_OK =>
      p <- extractArguments sb cmdParseOut ;;
      let '(status, cmdParseOut) := p in
      Ok (status, cmdParseOut, sb)
  end.

(** [parserOutput] is the local [shellParserOutput_t parserOutput;] as the
    stack holds it on entry.  The value the runner returns is dropped. *)
Definition shellProcessCommand (parserOutput : shellParserOutput_t) (st : shell_state)
  : result (shell_error * shell_state) :=
  p <- shellParseCommand (shellBuffer st) parserOutput ;;
  let '(status, parserOutput, sb) := p in
  match status with
  | SHELL_ERR => Ok (status, mkShellState sb (trace st))
  | SHELL_OK =>
      (* uint8_t commandTableIndex; *)
      p <- getCommand parserOutput Uninit (trace st) ;;
      let '(status, commandTableIndex, tr) := p in
      match status with
      | SHELL_ERR => Ok (status, mkShellState sb tr)
      | SHELL_OK =>
          match commandTableIndex with
          | Uninit => Fault UninitializedRead
          | Init commandTableIndex =>
              cmd <- tableEntry commandTableIndex ;;
              r <- tpl_runner cmd parserOutput ;;
              Ok (status,
                  mkShellState sb
                    (tr ++ Invoke commandTableIndex :: map Transmit (snd r)))
          end
      end
  end.

(** ** Public functions *)

(** [Buf] is the caller's buffer, [Len] the [uint32_t] that [Len] points to. *)
Definition rxShellInput (Buf : list Z) (Len : Z) (sb : shellBufferHandle_t)
  : result shellBufferHandle_t :=
  b0 <- rd SourceBuf Buf 0 ;;
  if negb (b0 =? 13) then
    let rxLen' := u32 Len in
    buf <- memcpy RxBuffer SourceBuf (rxBuffer sb) Buf rxLen' ;;
    Ok (mkShellBuffer true buf rxLen')
  else Ok sb.

(** [shell_error status;] has no initialiser: when [rxFlag] is clear the
    function returns it as it is. *)
Definition checkShellStatus (parserOutput : shellParserOutput_t) (st : shell_state)
  : result (cvalue shell_error * shell_state) :=
  let status : cvalue shell_error := Uninit in
  if rxFlag (shellBuffer st) then
    p <- shellProcessCommand parserOutput st ;;
    let '(status, st) := p in
    let sb := shellBuffer st in
    Ok (Init status, mkShellState (mkShellBuffer false (rxBuffer sb) (rxLen sb)) (trace st))
  else Ok (status, st).

End Shell.

(** ** The runners and the command table (CLI_SHELL_COMMANDS.h) *)

Definition SHELL_MAJOR_VER : Z := 1.
Definition SHELL_MINOR_VER : Z := 1.
Definition SHELL_REV : Z := 0.

Definition TAB : list Z := [9].
Definition QUOTE : list Z := [34].

(** ["%02d"] for a value below 100. *)
Definition fmt02d (n : Z) : list Z := [48 + n / 10; 48 + n mod 10].

Definition helpHeader : list Z :=
  bytes "<-- Shell Debug Kernel -->" ++ CRLF ++
  bytes "<-- Rev: " ++ fmt02d SHELL_MAJOR_VER ++ bytes "." ++
  fmt02d SHELL_MINOR_VER ++ bytes "." ++ fmt02d SHELL_REV ++
  bytes "      -->" ++ CRLF ++
  bytes "Command" ++ TAB ++ bytes "| Description" ++ TAB ++ TAB ++
  bytes "| Arguments" ++ CRLF ++ CRLF.

(** [strcat] into [tmpBuffer[500]], which must keep room for the NUL. *)
Definition strcat500 (tmpBuffer s : list Z) : result (list Z) :=
  let r := tmpBuffer ++ s in
  if Z.of_nat (length r) <? 500 then Ok r else Fault (OutOfBounds TmpBuffer 500).

Fixpoint HelpRunner_loop (helps : list (list Z)) (tmpBuffer : list Z) : result (list Z) :=
  match helps with
  | [] => Ok tmpBuffer
  | h :: rest =>
      tmpBuffer' <- strcat500 tmpBuffer h ;;
      HelpRunner_loop rest tmpBuffer'
  end.

(** HelpRunner reads the [helpDesc] of every table entry; [helps] is that
    column of the table. *)
Definition HelpRunner (helps : list (list Z)) : shellBridge_t :=
  fun parserInput =>
    tmpBuffer <- HelpRunner_loop helps helpHeader ;;
    Ok (SHELL_OK, [tmpBuffer]).

Definition PingRunner : shellBridge_t :=
  fun package => Ok (SHELL_OK, [take 7 (bytes "Pong!" ++ CRLF)]).

Definition help_helpDesc : list Z :=
  bytes "help" ++ TAB ++ bytes "| Display the Help Menu" ++ TAB ++
  bytes "| No Arguments" ++ CRLF.
Definition qmark_helpDesc : list Z :=
  bytes "?" ++ TAB ++ bytes "| Display the Help Menu" ++ TAB ++
  bytes "| No Arguments" ++ CRLF.
Definition ping_helpDesc : list Z :=
  bytes "ping" ++ TAB ++ bytes "| Responds " ++ QUOTE ++ bytes "Pong!" ++ QUOTE ++
  TAB ++ bytes "| No Arguments" ++ CRLF.

Definition helpDescs : list (list Z) := [help_helpDesc; qmark_helpDesc; ping_helpDesc].

(** [.cmdArgsTable = {}]: every entry zero. *)
Definition noArgsTable : list shellArgTemplate_t :=
  replicate (Z.to_nat MAX_ARGUMENTS) (mkShellArgTemplate false arg_uint8 argTkn_a).

Definition shellCmdTemplateTable : list shellCmdTemplate_t :=
  [ mkShellCmdTemplate (bytes "help") help_helpDesc (HelpRunner helpDescs) 0 noArgsTable;
    mkShellCmdTemplate (bytes "?") qmark_helpDesc (HelpRunner helpDescs) 0 noArgsTable;
    mkShellCmdTemplate (bytes "ping") ping_helpDesc PingRunner 0 noArgsTable ].

(** ** Concrete states used in the examples *)

(** A line buffer holding [line], the rest of the array zeroed. *)
Definition lineBuffer (flag : bool) (line : list Z) : shellBufferHandle_t :=
  mkShellBuffer flag
    (line ++ replicate (Z.to_nat SHELL_BUFFER_LEN - length line)%nat 0)
    (Z.of_nat (length line)).

(** The line a buffer holds: its first [rxLen] bytes. *)
Definition lineOf (sb : shellBufferHandle_t) : list Z :=
  take (Z.to_nat (rxLen sb)) (rxBuffer sb).

(** Some contents for the locals that C leaves uninitialised. *)
Definition staleArgument : shellArgument_t :=
  mkShellArgument (replicate (Z.to_nat SHELL_ARG_LEN) 170) 170 argTkn_err.
Definition staleParserOutput : shellParserOutput_t :=
  mkShellParserOutput (replicate (Z.to_nat SHELL_CMD_LEN) 170) 170
    (replicate (Z.to_nat MAX_ARGUMENTS) staleArgument).

Definition pendingLine (line : list Z) : shell_state :=
  mkShellState (lineBuffer true line) [].

(** One poll of the shipped shell with [line] pending: the status returned,
    the events seen, and the pending flag afterwards. *)
Definition run (line : list Z) : result (cvalue shell_error * list event * bool) :=
  p <- checkShellStatus shellCmdTemplateTable staleParserOutput (pendingLine line) ;;
  Ok (fst p, trace (snd p), rxFlag (shellBuffer (snd p))).

(** ** Properties of a line, in the words of the specification *)

Definition hasLeadingSpace (l : list Z) : bool :=
  match l with
  | c :: _ => c =? SPACE
  | [] => false
  end.

Definition hasTrailingSpace (l : list Z) : bool :=
  match last l with
  | Some c => c =? SPACE
  | None => false
  end.

Fixpoint hasSpaceRun (l : list Z) : bool :=
  match l with
  | c :: r =>
      match r with
      | d :: _ => ((c =? SPACE) && (d =? SPACE)) || hasSpaceRun r
      | [] => false
      end
  | [] => false
  end.

(** No leading space, no trailing space, no run of two or more spaces. *)
Definition normalized (l : list Z) : bool :=
  negb (hasLeadingSpace l) && negb (hasTrailingSpace l) && negb (hasSpaceRun l).

(** ** Definitions used in the statements *)

(** A command with one mandatory [arg_uint8] argument tagged [a]. *)
Definition setvalArgs : list shellArgTemplate_t :=
  mkShellArgTemplate true arg_uint8 argTkn_a ::
  replicate 4 (mkShellArgTemplate false arg_uint8 argTkn_a).

Definition setvalTable : list shellCmdTemplate_t :=
  [ mkShellCmdTemplate (bytes "setval") [] (fun _ => Ok (SHELL_OK, [])) 1 setvalArgs ].

(** A parse result that supplies token [a] with the given content. *)
Definition supplies (content : list Z) : shellParserOutput_t :=
  mkShellParserOutput (bytes "setval" ++ replicate 94 0) 1
    (mkShellArgument (content ++ replicate (20 - length content) 0)
       (Z.of_nat (length content) - 1) argTkn_a ::
     replicate 4 staleArgument).

(** The first [n] bytes of the buffer are spaces. *)
Definition blankPrefix (n : nat) (buf : list Z) : Prop :=
  forall k : nat, (k < n)%nat -> buf !! k = Some SPACE.

(** The index of the last entry of [rest] whose name compares equal to
    [name], counting from [base]. *)
Fixpoint lastMatch (name : list Z) (rest : list shellCmdTemplate_t) (base : Z)
  : option Z :=
  match rest with
  | [] => None
  | cmd :: rest' =>
      match lastMatch name rest' (base + 1) with
      | Some k => Some k
      | None => if strcmp name (tpl_cmdName cmd) =? 0 then Some base else None
      end
  end.

(** A parser output that holds [name] as its command name. *)
Definition withName (name : list Z) : shellParserOutput_t :=
  mkShellParserOutput
    (name ++ replicate (Z.to_nat SHELL_CMD_LEN - length name) 0) 0
    (replicate (Z.to_nat MAX_ARGUMENTS) staleArgument).

(** A table whose one command has a runner that reports failure. *)
Definition failingRunner : shellBridge_t := fun package => Ok (SHELL_ERR, []).

Definition failTable : list shellCmdTemplate_t :=
  [ mkShellCmdTemplate (bytes "fail") [] failingRunner 0 noArgsTable ].

(** A byte that can stand inside a token: neither the NUL nor the delimiter. *)
Definition wordByte (c : Z) : Prop := c <> 0 /\ c <> SPACE.

(** A token as strtok returns it: not empty, made of such bytes. *)
Definition word (t : list Z) : Prop := t <> [] /\ Forall wordByte t.

(** Tokens put together with one space between neighbours. *)
Fixpoint joinTokens (toks : list (list Z)) : list Z :=
  match toks with
  | [] => []
  | t :: rest =>
      match rest with
      | [] => t
      | _ :: _ => t ++ SPACE :: joinTokens rest
      end
  end.

(** What extractArguments leaves in [cmdArgs[i]] for the token [tok]: the
    token and a NUL at the front of [argContents], the bytes behind them as
    they were. *)
Definition storedArgument (old : shellArgument_t) (tok : list Z) : shellArgument_t :=
  mkShellArgument
    (tok ++ 0 :: drop (S (length tok)) (argContents old))
    (Z.of_nat (length tok) - 1)
    (getTokenFromChar (hd 0 tok)).

(** Tokens stored into the entries of [cmdArgs] in order, as many as there
    are tokens and entries. *)
Fixpoint storeArgs (toks : list (list Z)) (args : list shellArgument_t)
  : list shellArgument_t :=
  match toks, args with
  | tok :: toks', a :: args' => storedArgument a tok :: storeArgs toks' args'
  | _, _ => args
  end.

(** The arrays of a parser output have their declared sizes. *)
Definition wellFormedOutput (out : shellParserOutput_t) : Prop :=
  length (cmdName out) = Z.to_nat SHELL_CMD_LEN /\
  length (cmdArgs out) = Z.to_nat MAX_ARGUMENTS /\
  Forall (fun a => length (argContents a) = Z.to_nat SHELL_ARG_LEN) (cmdArgs out).

(** The line buffer has its declared size and holds [line]. *)
Definition holdsLine (sb : shellBufferHandle_t) (line : list Z) : Prop :=
  Z.of_nat (length (rxBuffer sb)) = SHELL_BUFFER_LEN /\
  rxLen sb = Z.of_nat (length line) /\
  take (length line) (rxBuffer sb) = line.

(** The line split at every single space. *)
Fixpoint splitLine (l : list Z) : list (list Z) :=
  match l with
  | [] => [[]]
  | c :: r =>
      if c =? SPACE then [] :: splitLine r
      else
        match splitLine r with
        | t :: ts => (c :: t) :: ts
        | [] => [[c]]
        end
  end.

(** The argument tokens of a line: all tokens but the first. *)
Definition argumentsOf (line : list Z) : list (list Z) := tail (splitLine line).

(** The arguments that fit into [cmdArgs]. *)
Definition capturedOf (line : list Z) : list (list Z) :=
  take (Z.to_nat MAX_ARGUMENTS) (argumentsOf line).

(** The command [ping] with seven arguments. *)
Definition sevenArguments : list Z := bytes "ping a1 b2 c3 d4 e5 f6 g7".

(** The command token of a line: its first token. *)
Definition commandOf (line : list Z) : list Z := hd [] (splitLine line).

(** What shellParseCommand leaves in the parser output for [line]. *)
Definition parsedLine (cmdParseOut : shellParserOutput_t) (line : list Z)
  : shellParserOutput_t :=
  mkShellParserOutput
    (commandOf line ++ 0 :: drop (S (length (commandOf line))) (cmdName cmdParseOut))
    (Z.of_nat (length (capturedOf line)))
    (storeArgs (capturedOf line) (cmdArgs cmdParseOut)).

(** ** Definitions used in the further properties *)

(** One of the first [numArgs] parsed arguments carries the token [tok]. *)
Definition suppliesToken (out : shellParserOutput_t) (tok : argToken_t) : bool :=
  existsb (fun a => argToken a =? tok)
    (take (Z.to_nat (numArgs out)) (cmdArgs out)).

(** Every mandatory entry among the first [tpl_numArgs] entries of the
    template finds its token among the parsed arguments. *)
Definition mandatoryCovered (out : shellParserOutput_t) (cmd : shellCmdTemplate_t)
  : bool :=
  forallb (fun tmpl => implb (mandatory tmpl) (suppliesToken out (token tmpl)))
    (take (Z.to_nat (tpl_numArgs cmd)) (tpl_cmdArgsTable cmd)).

(** A table entry as the header declares it: [MAX_ARGUMENTS] template
    entries, of which [tpl_numArgs] are in use. *)
Definition wellFormedTemplate (cmd : shellCmdTemplate_t) : Prop :=
  length (tpl_cmdArgsTable cmd) = Z.to_nat MAX_ARGUMENTS /\
  0 <= tpl_numArgs cmd <= MAX_ARGUMENTS.

(** A parser output after extraction: the arrays have their declared sizes
    and [numArgs] counts entries of [cmdArgs]. *)
Definition parsedOutput (out : shellParserOutput_t) : Prop :=
  length (cmdArgs out) = Z.to_nat MAX_ARGUMENTS /\
  0 <= numArgs out <= MAX_ARGUMENTS.

(** A table of 129 entries: 128 entries named [pad], then [ping]. *)
Definition wideTable : list shellCmdTemplate_t :=
  replicate 128 (mkShellCmdTemplate (bytes "pad") [] PingRunner 0 noArgsTable) ++
  [ mkShellCmdTemplate (bytes "ping") ping_helpDesc PingRunner 0 noArgsTable ].

(** A line padded with [a] spaces in front and [b] spaces behind. *)
Definition padded (a b : nat) (core : list Z) : list Z :=
  replicate a SPACE ++ core ++ replicate b SPACE.

(** Index 99 holds no space while the length is still 100. *)
Definition lastByteKept (cl : nat) (buf : list Z) : Prop :=
  (cl <= 99)%nat \/ exists c, buf !! 99%nat = Some c /\ c <> SPACE.

(** The answer of the shipped shell to a command token: the status and the
    events of the cycle. *)
Definition helpText : list Z :=
  helpHeader ++ help_helpDesc ++ qmark_helpDesc ++ ping_helpDesc.

Definition shippedAnswer (command : list Z) : shell_error * list event :=
  if bool_decide (command = bytes "help") then
    (SHELL_OK, [Invoke 0; Transmit helpText])
  else if bool_decide (command = bytes "?") then
    (SHELL_OK, [Invoke 1; Transmit helpText])
  else if bool_decide (command = bytes "ping") then
    (SHELL_OK, [Invoke 2; Transmit (bytes "Pong!" ++ CRLF)])
  else (SHELL_ERR, [Transmit (bytes "Command Error!" ++ CRLF)]).

(** A table of 256 entries named [pad]. *)
Definition hugeTable : list shellCmdTemplate_t :=
  replicate 256 (mkShellCmdTemplate (bytes "pad") [] PingRunner 0 noArgsTable).



(** * Theorems *)

(** ** Basic facts about the machine model *)

Lemma bind_Ok {A B : Type} (a : A) (k : A -> result B) : bind (Ok a) k = k a.
Proof. reflexivity. Qed.

Lemma bind_Fault {A B : Type} (f : fault) (k : A -> result B) :
  bind (Fault f) k = Fault f.
Proof. reflexivity. Qed.

Lemma u8_small (z : Z) : 0 <= z < 256 -> u8 z = z.
Proof. intros H. unfold u8. apply Z.mod_small. exact H. Qed.

Lemma u8_range (z : Z) : 0 <= u8 z < 256.
Proof. unfold u8. apply Z.mod_pos_bound. lia. Qed.

Lemma u32_range (z : Z) : 0 <= u32 z < 4294967296.
Proof. unfold u32. apply Z.mod_pos_bound. lia. Qed.

Lemma rd_lookup (obj : object) (a : list Z) (i : nat) (x : Z) :
  a !! i = Some x -> rd obj a (Z.of_nat i) = Ok x.
Proof.
  intros H. unfold rd.
  destruct (Z.leb_spec 0 (Z.of_nat i)) as [_ | Hneg]; [| lia].
  rewrite Nat2Z.id, H. reflexivity.
Qed.

Lemma rd_outside (obj : object) (a : list Z) (i : Z) :
  Z.of_nat (length a) <= i -> rd obj a i = Fault (OutOfBounds obj i).
Proof.
  intros H. unfold rd.
  destruct (Z.leb_spec 0 i) as [Hpos | Hneg]; [| reflexivity].
  rewrite (proj2 (lookup_ge_None a (Z.to_nat i))); [reflexivity | lia].
Qed.

Lemma wr_inside (obj : object) (a : list Z) (i : nat) (x : Z) :
  (i < length a)%nat -> wr obj a (Z.of_nat i) x = Ok (<[i := x]> a).
Proof.
  intros H. unfold wr.
  destruct (Z.leb_spec 0 (Z.of_nat i)) as [_ | Hneg]; [| lia].
  destruct (Z.ltb_spec (Z.of_nat i) (Z.of_nat (length a))) as [_ | Hge]; [| lia].
  simpl. rewrite Nat2Z.id. reflexivity.
Qed.

Lemma wr_outside (obj : object) (a : list Z) (i : Z) (x : Z) :
  Z.of_nat (length a) <= i -> wr obj a i x = Fault (OutOfBounds obj i).
Proof.
  intros H. unfold wr.
  destruct (Z.ltb_spec i (Z.of_nat (length a))) as [Hlt | _]; [lia |].
  rewrite andb_false_r. reflexivity.
Qed.

(** ** validateArgType: the range checks *)

Section Validation.

(** The two boundary tests are joined by [&&]; no number is below the lower
    bound and above the upper one, so no branch returns false. *)
Lemma validateArgType_never_rejects (argDataType : argType_t) (dataString : list Z) :
  validateArgType argDataType dataString = true.
Proof.
  destruct argDataType; simpl; try reflexivity.
  - destruct (Z.ltb_spec (strtol dataString) 0), (Z.gtb_spec (strtol dataString) 255);
      simpl; try reflexivity; lia.
  - destruct (Z.ltb_spec (strtol dataString) 0), (Z.gtb_spec (strtol dataString) 65535);
      simpl; try reflexivity; lia.
  - unfold gt_long_ulong.
    pose proof (u32_range (strtol dataString)) as Hr.
    destruct (Z.gtb_spec (u32 (strtol dataString)) 4294967295); [lia |].
    rewrite andb_false_r. reflexivity.
  - pose proof (u8_range (hd 0 dataString)) as Hr.
    destruct (Z.ltb_spec (u8 (hd 0 dataString)) 32), (Z.gtb_spec (u8 (hd 0 dataString)) 127);
      simpl; try reflexivity; lia.
Qed.

End Validation.

(** C1 (the code departs from the claim).  The claim: an unsigned-8 argument
    whose content parses to a number outside 0..255 fails validation, and
    one inside passes; likewise for unsigned-16 and unsigned-32.  In the
    code the content 999 parses to 999 and passes validation as unsigned-8,
    both in validateArgType and in validateArgs for a command whose
    mandatory argument is unsigned-8; 70000 passes as unsigned-16 and -1 as
    unsigned-32.  The in-range content 42 passes, as claimed. *)
Theorem C1_out_of_range_uint8_passes :
  strtol (bytes "999") = 999 /\
  validateArgType arg_uint8 (bytes "999") = true /\
  validateArgs setvalTable (supplies (bytes "999")) 0 = Ok true /\
  validateArgType arg_uint8 (bytes "42") = true /\
  validateArgs setvalTable (supplies (bytes "42")) 0 = Ok true /\
  strtol (bytes "70000") = 70000 /\
  validateArgType arg_uint16 (bytes "70000") = true /\
  strtol (bytes "-1") = -1 /\
  validateArgType arg_uint32 (bytes "-1") = true.
Proof. repeat split; vm_compute; reflexivity. Qed.

(** ** rxShellInput: the copy into the line buffer *)

Section Intake.

(** A copy of more bytes than the destination has left stops at the first
    index past the destination's end. *)
Lemma memcpy_from_overrun (dobj sobj : object) (src : list Z) :
  forall (n : nat) (k : nat) (dst : list Z),
    (k <= length dst)%nat ->
    (length dst < k + n)%nat ->
    (length dst < length src)%nat ->
    memcpy_from n (Z.of_nat k) dobj sobj dst src
      = Fault (OutOfBounds dobj (Z.of_nat (length dst))).
Proof.
  induction n as [| n IH]; intros k dst Hk Hn Hsrc; [lia |].
  simpl.
  destruct (lookup_lt_is_Some_2 src k ltac:(lia)) as [x Hx].
  rewrite (rd_lookup _ _ _ _ Hx), bind_Ok.
  destruct (decide (k = length dst)) as [-> | Hne].
  - rewrite wr_outside by lia. reflexivity.
  - rewrite wr_inside by lia. rewrite bind_Ok.
    replace (Z.of_nat k + 1) with (Z.of_nat (S k)) by lia.
    rewrite IH; rewrite ?length_insert; try lia. reflexivity.
Qed.

(** A copy that fits replaces the first [n] bytes of the destination. *)
Lemma memcpy_from_fits (dobj sobj : object) (src : list Z) :
  forall (n : nat) (k : nat) (dst : list Z),
    (k + n <= length dst)%nat ->
    (k + n <= length src)%nat ->
    memcpy_from n (Z.of_nat k) dobj sobj dst src
      = Ok (take k dst ++ take n (drop k src) ++ drop (k + n) dst).
Proof.
  induction n as [| n IH]; intros k dst Hd Hs.
  - simpl. rewrite Nat.add_0_r, take_drop. reflexivity.
  - simpl.
    destruct (lookup_lt_is_Some_2 src k ltac:(lia)) as [x Hx].
    rewrite (rd_lookup _ _ _ _ Hx), bind_Ok.
    rewrite wr_inside by lia. rewrite bind_Ok.
    replace (Z.of_nat k + 1) with (Z.of_nat (S k)) by lia.
    rewrite IH; rewrite ?length_insert; try lia.
    rewrite (take_S_r (<[k:=x]> dst) k x) by (apply list_lookup_insert_eq; lia).
    rewrite take_insert_ge by lia.
    rewrite drop_insert_lt by lia.
    rewrite (drop_S src x k Hx). simpl take.
    rewrite <- app_assoc. simpl.
    replace (S (k + n))%nat with (k + S n)%nat by lia.
    reflexivity.
Qed.

Lemma memcpy_fits (dobj sobj : object) (dst src : list Z) (n : Z) :
  0 <= n <= Z.of_nat (length dst) ->
  n <= Z.of_nat (length src) ->
  memcpy dobj sobj dst src n
    = Ok (take (Z.to_nat n) src ++ drop (Z.to_nat n) dst).
Proof.
  intros Hd Hs. unfold memcpy.
  change 0 with (Z.of_nat 0).
  rewrite memcpy_from_fits by (simpl; lia).
  reflexivity.
Qed.

(** Oversize input: nothing rejects it; the copy runs into the first byte
    past [rxBuffer]. *)
Lemma rxShellInput_oversize (Buf : list Z) (Len : Z) (sb : shellBufferHandle_t) :
  Z.of_nat (length (rxBuffer sb)) = SHELL_BUFFER_LEN ->
  SHELL_BUFFER_LEN < Len < 4294967296 ->
  Len <= Z.of_nat (length Buf) ->
  Buf !! 0%nat <> Some 13 ->
  rxShellInput Buf Len sb = Fault (OutOfBounds RxBuffer SHELL_BUFFER_LEN).
Proof.
  unfold SHELL_BUFFER_LEN. intros Hbuf HLen HBuf Hcr.
  unfold rxShellInput.
  destruct (lookup_lt_is_Some_2 Buf 0 ltac:(lia)) as [b0 Hb0].
  change 0 with (Z.of_nat 0) at 1.
  rewrite (rd_lookup _ _ _ _ Hb0), bind_Ok.
  destruct (Z.eqb_spec b0 13) as [-> | _]; [congruence |]. simpl.
  unfold u32. rewrite Z.mod_small by lia.
  unfold memcpy. change 0 with (Z.of_nat 0).
  rewrite memcpy_from_overrun by lia.
  simpl. rewrite Hbuf. reflexivity.
Qed.

(** Input that fits is stored as it is and marked pending. *)
Lemma rxShellInput_fits (Buf : list Z) (Len : Z) (sb : shellBufferHandle_t) :
  Z.of_nat (length (rxBuffer sb)) = SHELL_BUFFER_LEN ->
  0 < Len <= SHELL_BUFFER_LEN ->
  Z.of_nat (length Buf) = Len ->
  Buf !! 0%nat <> Some 13 ->
  rxShellInput Buf Len sb
    = Ok (mkShellBuffer true (Buf ++ drop (Z.to_nat Len) (rxBuffer sb)) Len).
Proof.
  unfold SHELL_BUFFER_LEN. intros Hbuf HLen HBuf Hcr.
  unfold rxShellInput.
  destruct (lookup_lt_is_Some_2 Buf 0 ltac:(lia)) as [b0 Hb0].
  change 0 with (Z.of_nat 0) at 1.
  rewrite (rd_lookup _ _ _ _ Hb0), bind_Ok.
  destruct (Z.eqb_spec b0 13) as [-> | _]; [congruence |]. simpl.
  unfold u32. rewrite Z.mod_small by lia.
  rewrite memcpy_fits by lia. rewrite bind_Ok.
  rewrite take_ge by lia. reflexivity.
Qed.

End Intake.

(** C3 (the code departs from the claim).  The claim: input longer than the
    100 bytes of the line buffer is rejected and reported, and no byte is
    written past the buffer.  In the code a line of 101 bytes is neither
    rejected nor reported: rxShellInput copies it and leaves the buffer at
    index 100. *)
Theorem C3_oversize_input_overruns_buffer :
  rxShellInput (replicate 101 97) 101 (lineBuffer false [])
    = Fault (OutOfBounds RxBuffer 100).
Proof. apply rxShellInput_oversize; vm_compute; try split; congruence. Qed.

(** ** checkShellStatus: the value returned *)

Section Poll.

Variable table : list shellCmdTemplate_t.

(** With no line pending nothing is done, and the status returned is the
    uninitialised local. *)
Lemma checkShellStatus_idle (parserOutput : shellParserOutput_t) (st : shell_state) :
  rxFlag (shellBuffer st) = false ->
  checkShellStatus table parserOutput st = Ok (Uninit, st).
Proof. intros H. unfold checkShellStatus. rewrite H. reflexivity. Qed.

(** With a line pending the status is the one shellProcessCommand gave, and
    the flag is cleared. *)
Lemma checkShellStatus_pending (parserOutput : shellParserOutput_t) (st st' : shell_state)
    (status : shell_error) :
  rxFlag (shellBuffer st) = true ->
  shellProcessCommand table parserOutput st = Ok (status, st') ->
  exists st'',
    checkShellStatus table parserOutput st = Ok (Init status, st'') /\
    rxFlag (shellBuffer st'') = false /\ trace st'' = trace st'.
Proof.
  intros Hflag Hrun. unfold checkShellStatus. rewrite Hflag, Hrun. simpl.
  eexists. split; [reflexivity |]. split; reflexivity.
Qed.

End Poll.

(** C10 (the code departs from the claim).  The claim: every call of
    checkShellStatus returns a determinate status, also when no line is
    pending.  In the code, right after start-up (flag clear, empty buffer)
    the call changes nothing and returns its local [status], which was never
    assigned. *)
Theorem C10_idle_poll_returns_uninitialised_status :
  let idle := mkShellState (lineBuffer false []) [] in
  checkShellStatus shellCmdTemplateTable staleParserOutput idle = Ok (Uninit, idle).
Proof. intros idle. apply checkShellStatus_idle. reflexivity. Qed.

(** ** scrubWhiteSpace on blank lines *)

Section BlankLine.

Lemma shiftLoop_unfold (fuel : nat) (i bound : Z) (buf : list Z) :
  shiftLoop (S fuel) i bound buf =
    if i <? bound then
      x <- rd RxBuffer buf (i + 1) ;;
      buf' <- wr RxBuffer buf i x ;;
      shiftLoop fuel (u8 (i + 1)) bound buf'
    else Ok buf.
Proof. reflexivity. Qed.

(** Shifting inside a run of spaces writes spaces over spaces. *)
Lemma shiftLoop_blank (n : nat) (buf : list Z) :
  blankPrefix n buf ->
  (n <= 255)%nat ->
  forall (fuel i : nat),
    (n <= fuel + i)%nat ->
    shiftLoop (S fuel) (Z.of_nat i) (Z.of_nat n - 1) buf = Ok buf.
Proof.
  intros Hblank Hn.
  induction fuel as [| fuel IH]; intros i Hfuel; rewrite shiftLoop_unfold.
  - destruct (Z.ltb_spec (Z.of_nat i) (Z.of_nat n - 1)); [lia | reflexivity].
  - destruct (Z.ltb_spec (Z.of_nat i) (Z.of_nat n - 1)) as [Hlt | _]; [| reflexivity].
    replace (Z.of_nat i + 1) with (Z.of_nat (S i)) by lia.
    rewrite (rd_lookup _ _ _ _ (Hblank (S i) ltac:(lia))), bind_Ok.
    assert (Hi : buf !! i = Some SPACE) by (apply Hblank; lia).
    rewrite wr_inside by (apply lookup_lt_is_Some; eauto).
    rewrite bind_Ok, (list_insert_id _ _ _ Hi).
    rewrite u8_small by lia.
    apply IH. lia.
Qed.

Lemma scrubLeading_unfold (fuel : nat) (currentLength : Z) (buf : list Z) :
  scrubLeading (S fuel) currentLength buf =
    c <- rd RxBuffer buf 0 ;;
    if (c =? SPACE) && (currentLength >? 0) then
      buf' <- shiftLoop U8_FUEL 0 (currentLength - 1) buf ;;
      scrubLeading fuel (u8 (currentLength - 1)) buf'
    else Ok (currentLength, buf).
Proof. reflexivity. Qed.

(** The first loop eats a blank line whole and leaves the buffer as it was. *)
Lemma scrubLeading_blank (buf : list Z) :
  (0 < length buf)%nat ->
  forall (n fuel : nat),
    blankPrefix n buf ->
    (n <= 255)%nat ->
    (n < fuel)%nat ->
    scrubLeading fuel (Z.of_nat n) buf = Ok (0, buf).
Proof.
  intros Hlen.
  induction n as [| n IH]; intros fuel Hblank Hn Hfuel;
    (destruct fuel as [| fuel]; [lia |]); rewrite scrubLeading_unfold.
  - destruct (lookup_lt_is_Some_2 buf 0 Hlen) as [c Hc].
    rewrite (rd_lookup _ _ 0%nat _ Hc), bind_Ok.
    rewrite andb_false_r. reflexivity.
  - rewrite (rd_lookup _ _ 0%nat _ (Hblank 0%nat ltac:(lia))), bind_Ok.
    rewrite Z.eqb_refl.
    destruct (Z.gtb_spec (Z.of_nat (S n)) 0) as [_ | Hle]; [| lia].
    cbv [andb].
    unfold U8_FUEL.
    pose proof (shiftLoop_blank (S n) buf Hblank Hn 256 0 ltac:(lia)) as Hshift.
    change (Z.of_nat 0) with 0 in Hshift.
    rewrite Hshift, bind_Ok.
    replace (Z.of_nat (S n) - 1) with (Z.of_nat n) by lia.
    rewrite u8_small by lia.
    apply IH; [| lia | lia].
    intros k Hk. apply Hblank. lia.
Qed.

(** A line of nothing but spaces (or no bytes at all) is cut down to length
    0 by the first loop; the second loop then starts from
    [lastIndex = (uint8_t)(0 - 1) = 255] and reads [rxBuffer[255]]. *)
Lemma scrubWhiteSpace_blank (sb : shellBufferHandle_t) (n : nat) :
  Z.of_nat (length (rxBuffer sb)) = SHELL_BUFFER_LEN ->
  rxLen sb = Z.of_nat n ->
  Z.of_nat n <= SHELL_BUFFER_LEN ->
  blankPrefix n (rxBuffer sb) ->
  scrubWhiteSpace sb = Fault (OutOfBounds RxBuffer 255).
Proof.
  unfold SHELL_BUFFER_LEN. intros Hlen Hrx Hn Hblank.
  unfold scrubWhiteSpace. rewrite Hrx, u8_small by lia.
  rewrite (scrubLeading_blank (rxBuffer sb) ltac:(lia) n U8_FUEL Hblank)
    by (unfold U8_FUEL; lia).
  rewrite bind_Ok. cbv iota beta.
  change (u8 (0 - 1)) with 255.
  unfold U8_FUEL. simpl scrubTrailing.
  rewrite rd_outside by lia. reflexivity.
Qed.

End BlankLine.

(** C2 (the code departs from the claim).  The claim: on an empty or
    all-space line the normalisation reaches length 0 and every index it
    forms lies inside the current length, none wrapped.  In the code the
    empty line and the line of three spaces both end in a read of
    [rxBuffer[255]]: [lastIndex] is [currentLength - 1] stored in a
    [uint8_t] while [currentLength] is 0, and the read comes before the
    test [currentLength > 0]. *)
Theorem C2_blank_line_reads_index_255 :
  u8 (0 - 1) = 255 /\
  scrubWhiteSpace (lineBuffer true []) = Fault (OutOfBounds RxBuffer 255) /\
  scrubWhiteSpace (lineBuffer true (bytes "   ")) = Fault (OutOfBounds RxBuffer 255).
Proof.
  split; [reflexivity |].
  split.
  - apply (scrubWhiteSpace_blank _ 0); try reflexivity.
    + unfold SHELL_BUFFER_LEN. lia.
    + intros k Hk. lia.
  - apply (scrubWhiteSpace_blank _ 3); try reflexivity.
    + unfold SHELL_BUFFER_LEN. lia.
    + intros k Hk.
      destruct k as [| [| [| k]]]; try reflexivity; lia.
Qed.

(** ** scrubWhiteSpace on interior runs of spaces *)

(** C5 (the code departs from the claim).  The claim: after normalisation
    the line has no leading space, no trailing space and no run of two or
    more spaces.  In the code the line [a  b] (two spaces inside) comes out
    with length 3 as [a  ]: the run is still there, it now ends the line,
    and the last byte is lost.  The inner loop that closes the gap stops at
    [currentLength - 2], and the outer loop moves on after one removal. *)
Theorem C5_interior_run_survives :
  exists sb,
    scrubWhiteSpace (lineBuffer true (bytes "a  b")) = Ok sb /\
    rxLen sb = 3 /\
    lineOf sb = bytes "a  " /\
    hasTrailingSpace (lineOf sb) = true /\
    hasSpaceRun (lineOf sb) = true /\
    normalized (lineOf sb) = false.
Proof. eexists. split; [vm_compute; reflexivity |]. repeat split. Qed.

(** C6 (the code departs from the claim).  The claim: normalising twice
    gives the same contents and length as normalising once.  In the code
    the line [a  b] has length 3 after one pass and length 1 after two. *)
Theorem C6_second_pass_changes_line :
  exists sb1 sb2,
    scrubWhiteSpace (lineBuffer true (bytes "a  b")) = Ok sb1 /\
    scrubWhiteSpace sb1 = Ok sb2 /\
    rxLen sb1 = 3 /\ lineOf sb1 = bytes "a  " /\
    rxLen sb2 = 1 /\ lineOf sb2 = bytes "a" /\
    sb2 <> sb1.
Proof.
  eexists. eexists.
  split; [vm_compute; reflexivity |].
  split; [vm_compute; reflexivity |].
  repeat split. discriminate.
Qed.

(** ** matchCommand *)

(** [strcmp] answers 0 exactly for equal C strings. *)
Lemma strcmp_cstr (a b : list Z) : strcmp a b = 0 <-> cstr a = cstr b.
Proof.
  revert b. induction a as [| x a IH]; intros [| y b]; simpl.
  - tauto.
  - destruct (Z.eqb_spec y 0); split; intros H; try reflexivity; try lia; discriminate.
  - destruct (Z.eqb_spec x 0); split; intros H; try reflexivity; try lia; discriminate.
  - destruct (Z.eqb_spec x y) as [-> | Hxy].
    + destruct (Z.eqb_spec y 0); [tauto |].
      rewrite IH. split; intros H; [f_equal; exact H | congruence].
    + destruct (Z.eqb_spec x 0), (Z.eqb_spec y 0);
        split; intros H; try lia; try discriminate; congruence.
Qed.

Lemma lastMatch_Some (name : list Z) (rest : list shellCmdTemplate_t) :
  forall (base k : Z),
    lastMatch name rest base = Some k ->
    exists (j : nat) (cmd : shellCmdTemplate_t),
      k = base + Z.of_nat j /\ rest !! j = Some cmd /\
      strcmp name (tpl_cmdName cmd) = 0 /\
      forall (j' : nat) (cmd' : shellCmdTemplate_t),
        (j < j')%nat -> rest !! j' = Some cmd' ->
        strcmp name (tpl_cmdName cmd') <> 0.
Proof.
  induction rest as [| cmd rest IH]; intros base k H; simpl in H; [discriminate |].
  destruct (lastMatch name rest (base + 1)) as [k' |] eqn:Hrest.
  - injection H as <-.
    destruct (IH _ _ Hrest) as (j & c & Hk & Hj & Hc & Hlater).
    exists (S j), c. repeat split; [lia | exact Hj | exact Hc |].
    intros [| j'] cmd' Hlt Hj'; [lia |]. apply (Hlater j' cmd'); [lia | exact Hj'].
  - destruct (Z.eqb_spec (strcmp name (tpl_cmdName cmd)) 0) as [Heq | Hne]; [| discriminate].
    injection H as <-.
    exists 0%nat, cmd. repeat split; [lia | exact Heq |].
    intros [| j'] cmd' Hlt Hj'; [lia |]. simpl in Hj'.
    clear - Hrest Hj'. revert base j' Hrest Hj'.
    induction rest as [| c rest IH]; intros base j' Hrest Hj'; [discriminate |].
    simpl in Hrest.
    destruct (lastMatch name rest (base + 1 + 1)) eqn:Hr; [discriminate |].
    destruct (Z.eqb_spec (strcmp name (tpl_cmdName c)) 0); [discriminate |].
    destruct j' as [| j']; simpl in Hj'.
    + injection Hj' as <-. assumption.
    + apply (IH (base + 1) j'); assumption.
Qed.

Lemma lastMatch_None (name : list Z) (rest : list shellCmdTemplate_t) :
  forall (base : Z),
    lastMatch name rest base = None ->
    forall (j : nat) (cmd : shellCmdTemplate_t),
      rest !! j = Some cmd -> strcmp name (tpl_cmdName cmd) <> 0.
Proof.
  induction rest as [| c rest IH]; intros base H j cmd Hj; [discriminate |].
  simpl in H.
  destruct (lastMatch name rest (base + 1)) eqn:Hr; [discriminate |].
  destruct (Z.eqb_spec (strcmp name (tpl_cmdName c)) 0); [discriminate |].
  destruct j as [| j]; simpl in Hj.
  - injection Hj as <-. assumption.
  - apply (IH (base + 1) Hr j). exact Hj.
Qed.

Section Matching.

Variable table : list shellCmdTemplate_t.
Hypothesis table_u8 : (length table <= 255)%nat.

Lemma tableEntry_lookup (i : nat) (cmd : shellCmdTemplate_t) :
  table !! i = Some cmd -> tableEntry table (Z.of_nat i) = Ok cmd.
Proof.
  intros H. unfold tableEntry.
  destruct (Z.leb_spec 0 (Z.of_nat i)); [| lia].
  rewrite Nat2Z.id, H. reflexivity.
Qed.

(** The loop from entry [length pre] on. *)
Lemma matchCommand_loop_lastMatch (name : list Z) :
  forall (rest pre : list shellCmdTemplate_t) (matchFlag : bool)
         (commandIndex : cvalue Z) (fuel : nat),
    table = pre ++ rest ->
    (length rest < fuel)%nat ->
    matchCommand_loop table fuel (Z.of_nat (length pre)) name matchFlag commandIndex
      = Ok (match lastMatch name rest (Z.of_nat (length pre)) with
            | Some k => (true, Init (i8 k))
            | None => (matchFlag, commandIndex)
            end).
Proof.
  induction rest as [| cmd rest IH]; intros pre matchFlag commandIndex fuel Htable Hfuel;
    (destruct fuel as [| fuel]; [simpl in Hfuel; lia |]); simpl matchCommand_loop.
  - unfold NUM_OF_COMMANDS. rewrite Htable, app_nil_r.
    rewrite Z.ltb_irrefl. reflexivity.
  - assert (Hlen : length table = (length pre + S (length rest))%nat).
    { rewrite Htable, length_app. reflexivity. }
    unfold NUM_OF_COMMANDS.
    destruct (Z.ltb_spec (Z.of_nat (length pre)) (Z.of_nat (length table))); [| lia].
    rewrite (tableEntry_lookup (length pre) cmd), bind_Ok.
    2:{ rewrite Htable. apply list_lookup_middle. reflexivity. }
    rewrite u8_small by lia. simpl lastMatch.
    replace (Z.of_nat (length pre) + 1) with (Z.of_nat (length (pre ++ [cmd])))
      by (rewrite length_app; simpl; lia).
    simpl in Hfuel.
    destruct (Z.eqb_spec (strcmp name (tpl_cmdName cmd)) 0) as [Heq | Hne].
    + rewrite IH; [| rewrite <- app_assoc; exact Htable | lia].
      destruct (lastMatch name rest _); reflexivity.
    + rewrite IH; [| rewrite <- app_assoc; exact Htable | lia].
      destruct (lastMatch name rest _); reflexivity.
Qed.

Lemma matchCommand_lastMatch (cmdParserOutput : shellParserOutput_t)
    (commandIndex : cvalue Z) :
  matchCommand table cmdParserOutput commandIndex
    = Ok (SHELL_OK,
          Init (match lastMatch (cmdName cmdParserOutput) table 0 with
                | Some k => i8 k
                | None => -1
                end)).
Proof.
  unfold matchCommand.
  rewrite (matchCommand_loop_lastMatch _ table [] false commandIndex U8_FUEL eq_refl)
    by (unfold U8_FUEL; lia).
  simpl length. change (Z.of_nat 0) with 0.
  destruct (lastMatch (cmdName cmdParserOutput) table 0); reflexivity.
Qed.

(** No entry has the name: the result is -1. *)
Lemma matchCommand_unknown (cmdParserOutput : shellParserOutput_t)
    (commandIndex : cvalue Z) :
  (forall cmd, cmd ∈ table ->
     cstr (tpl_cmdName cmd) <> cstr (cmdName cmdParserOutput)) ->
  matchCommand table cmdParserOutput commandIndex = Ok (SHELL_OK, Init (-1)).
Proof.
  intros Hnone. rewrite matchCommand_lastMatch.
  destruct (lastMatch (cmdName cmdParserOutput) table 0) as [k |] eqn:Hk; [| reflexivity].
  destruct (lastMatch_Some _ _ _ _ Hk) as (j & cmd & _ & Hj & Hcmp & _).
  exfalso. apply (Hnone cmd).
  - apply list_elem_of_lookup. exists j. exact Hj.
  - symmetry. apply strcmp_cstr. exact Hcmp.
Qed.

(** The entry at [i] has the name and no later entry has: the result is [i],
    as far as an [int8_t] holds it. *)
Lemma matchCommand_last (cmdParserOutput : shellParserOutput_t)
    (commandIndex : cvalue Z) (i : nat) (cmd : shellCmdTemplate_t) :
  table !! i = Some cmd ->
  cstr (tpl_cmdName cmd) = cstr (cmdName cmdParserOutput) ->
  (forall (j : nat) (cmd' : shellCmdTemplate_t),
     (i < j)%nat -> table !! j = Some cmd' ->
     cstr (tpl_cmdName cmd') <> cstr (cmdName cmdParserOutput)) ->
  matchCommand table cmdParserOutput commandIndex
    = Ok (SHELL_OK, Init (i8 (Z.of_nat i))).
Proof.
  intros Hi Hname Hlater. rewrite matchCommand_lastMatch.
  destruct (lastMatch (cmdName cmdParserOutput) table 0) as [k |] eqn:Hk.
  - destruct (lastMatch_Some _ _ _ _ Hk) as (j & c & -> & Hj & Hcmp & Hafter).
    destruct (Nat.lt_trichotomy i j) as [Hlt | [-> | Hgt]].
    + exfalso. apply (Hlater j c Hlt Hj). symmetry. apply strcmp_cstr. exact Hcmp.
    + reflexivity.
    + exfalso. apply (Hafter i cmd Hgt Hi). apply strcmp_cstr. symmetry. exact Hname.
  - exfalso. apply (lastMatch_None _ _ _ Hk i cmd Hi).
    apply strcmp_cstr. symmetry. exact Hname.
Qed.

End Matching.

(** C7.  matchCommand compares names exactly, byte for byte.  For a table of
    at most 127 entries (the indices an [int8_t] holds): when entry [i]
    carries the name and no later entry does, the result is [i] (so of
    several entries with the name the last one is returned); when no entry
    carries the name, the result is -1. *)
Theorem C7_matchCommand_last_exact_match
    (table : list shellCmdTemplate_t) (cmdParserOutput : shellParserOutput_t)
    (commandIndex : cvalue Z) :
  (length table <= 127)%nat ->
  (forall (i : nat) (cmd : shellCmdTemplate_t),
     table !! i = Some cmd ->
     cstr (tpl_cmdName cmd) = cstr (cmdName cmdParserOutput) ->
     (forall (j : nat) (cmd' : shellCmdTemplate_t),
        (i < j)%nat -> table !! j = Some cmd' ->
        cstr (tpl_cmdName cmd') <> cstr (cmdName cmdParserOutput)) ->
     matchCommand table cmdParserOutput commandIndex
       = Ok (SHELL_OK, Init (Z.of_nat i)))
  /\
  ((forall cmd, cmd ∈ table ->
      cstr (tpl_cmdName cmd) <> cstr (cmdName cmdParserOutput)) ->
   matchCommand table cmdParserOutput commandIndex = Ok (SHELL_OK, Init (-1))).
Proof.
  intros Hsize. split.
  - intros i cmd Hi Hname Hlater.
    rewrite (matchCommand_last table ltac:(lia) _ _ i cmd Hi Hname Hlater).
    assert (Hlt : (i < length table)%nat) by (apply lookup_lt_is_Some; eauto).
    unfold i8. rewrite Z.mod_small by lia.
    do 3 f_equal. lia.
  - intros Hnone. apply matchCommand_unknown; [lia | exact Hnone].
Qed.

(** On the shipped table: [ping] is entry 2, [PING] is no entry. *)
Lemma C7_matchCommand_witness :
  matchCommand shellCmdTemplateTable (withName (bytes "ping")) Uninit
    = Ok (SHELL_OK, Init 2) /\
  matchCommand shellCmdTemplateTable (withName (bytes "PING")) Uninit
    = Ok (SHELL_OK, Init (-1)).
Proof.
  split.
  - refine (proj1 (C7_matchCommand_last_exact_match shellCmdTemplateTable
                     (withName (bytes "ping")) Uninit _) 2%nat _ eq_refl eq_refl _).
    + simpl. lia.
    + intros j cmd' Hj Hlook.
      destruct j as [| [| [| j]]]; try lia. discriminate Hlook.
  - refine (proj2 (C7_matchCommand_last_exact_match shellCmdTemplateTable
                     (withName (bytes "PING")) Uninit _) _).
    + simpl. lia.
    + intros cmd Hin.
      unfold shellCmdTemplateTable in Hin.
      rewrite !elem_of_cons in Hin.
      destruct Hin as [-> | [-> | [-> | Hin]]]; try discriminate.
      inversion Hin.
Defined.

(** Of two entries with one name the later one is returned. *)
Example matchCommand_duplicate_names :
  matchCommand
    [ mkShellCmdTemplate (bytes "led") [] PingRunner 0 noArgsTable;
      mkShellCmdTemplate (bytes "ping") [] PingRunner 0 noArgsTable;
      mkShellCmdTemplate (bytes "led") [] PingRunner 0 noArgsTable ]
    (withName (bytes "led")) Uninit
  = Ok (SHELL_OK, Init 2).
Proof. reflexivity. Qed.

(** ** getCommand and shellProcessCommand *)

Lemma bind_Ok_inv {A B : Type} (r : result A) (k : A -> result B) (b : B) :
  bind r k = Ok b -> exists a, r = Ok a /\ k a = Ok b.
Proof. destruct r as [a | f]; simpl; intros H; [eauto | discriminate]. Qed.

Lemma shellSendResponse_CMD_ERR (tr : list event) :
  shellSendResponse RESPONSE_CMD_ERR tr
    = (SHELL_OK, tr ++ [Transmit (bytes "Command Error!" ++ CRLF)]).
Proof. reflexivity. Qed.

Lemma shellSendResponse_ARG_ERR (tr : list event) :
  shellSendResponse RESPONSE_ARG_ERR tr
    = (SHELL_OK, tr ++ [Transmit (bytes "Argument Error!" ++ CRLF)]).
Proof. reflexivity. Qed.

(** [RESPONSE_FNC_ERR] has no case in the switch: nothing is sent. *)
Lemma shellSendResponse_FNC_ERR (tr : list event) :
  shellSendResponse RESPONSE_FNC_ERR tr = (SHELL_OK, tr).
Proof. reflexivity. Qed.

(** The two extraction steps and shellParseCommand have one status to give. *)
Ltac invert_bind H :=
  repeat match type of H with
         | bind _ _ = Ok _ =>
             let a := fresh "a" in
             let E := fresh "E" in
             apply bind_Ok_inv in H; destruct H as (a & E & H); cbv beta iota in H
         end.

Lemma exctractCommand_status (sb : shellBufferHandle_t)
    (parserOutput out : shellParserOutput_t) (status : shell_error) :
  exctractCommand sb parserOutput = Ok (status, out) -> status = SHELL_OK.
Proof. unfold exctractCommand. intros H. invert_bind H. congruence. Qed.

Lemma extractArguments_status (sb : shellBufferHandle_t)
    (parserOutput out : shellParserOutput_t) (status : shell_error) :
  extractArguments sb parserOutput = Ok (status, out) -> status = SHELL_OK.
Proof. unfold extractArguments. intros H. invert_bind H. congruence. Qed.

Lemma shellParseCommand_status (sb sb' : shellBufferHandle_t)
    (parserOutput out : shellParserOutput_t) (status : shell_error) :
  shellParseCommand sb parserOutput = Ok (status, out, sb') -> status = SHELL_OK.
Proof.
  unfold shellParseCommand. intros H.
  apply bind_Ok_inv in H. destruct H as (sb1 & _ & H).
  apply bind_Ok_inv in H. destruct H as ([s1 out1] & Hcmd & H).
  apply exctractCommand_status in Hcmd. subst s1.
  apply bind_Ok_inv in H. destruct H as ([s2 out2] & Hargs & H).
  apply extractArguments_status in Hargs. congruence.
Qed.

Section Dispatch.

Variable table : list shellCmdTemplate_t.
Hypothesis table_u8 : (length table <= 255)%nat.

Lemma getCommand_unknown (cmdParserOutput : shellParserOutput_t)
    (commandTableIndex : cvalue Z) (tr : list event) :
  (forall cmd, cmd ∈ table ->
     cstr (tpl_cmdName cmd) <> cstr (cmdName cmdParserOutput)) ->
  getCommand table cmdParserOutput commandTableIndex tr
    = Ok (SHELL_ERR, commandTableIndex,
          tr ++ [Transmit (bytes "Command Error!" ++ CRLF)]).
Proof.
  intros Hnone. unfold getCommand.
  rewrite (matchCommand_unknown table table_u8 _ _ Hnone), bind_Ok.
  reflexivity.
Qed.

(** The parse went through and no entry has the command's name: one
    response, no runner, status [SHELL_ERR]. *)
Lemma shellProcessCommand_unknown (parserOutput out : shellParserOutput_t)
    (st : shell_state) (sb' : shellBufferHandle_t) (status : shell_error) :
  shellParseCommand (shellBuffer st) parserOutput = Ok (status, out, sb') ->
  (forall cmd, cmd ∈ table -> cstr (tpl_cmdName cmd) <> cstr (cmdName out)) ->
  shellProcessCommand table parserOutput st
    = Ok (SHELL_ERR,
          mkShellState sb' (trace st ++ [Transmit (bytes "Command Error!" ++ CRLF)])).
Proof.
  intros Hparse Hnone.
  pose proof (shellParseCommand_status _ _ _ _ _ Hparse) as ->.
  unfold shellProcessCommand. rewrite Hparse, bind_Ok. cbv beta iota.
  rewrite (getCommand_unknown _ _ _ Hnone), bind_Ok.
  reflexivity.
Qed.

(** The parse went through and getCommand chose entry [idx]: the runner is
    entered, what it transmits is all that is transmitted, and the status
    returned is [SHELL_OK] whatever the runner returned. *)
Lemma shellProcessCommand_dispatch (parserOutput out : shellParserOutput_t)
    (st : shell_state) (sb' : shellBufferHandle_t) (idx : Z) (tr : list event)
    (cmd : shellCmdTemplate_t) (ret : shell_error) (sent : list (list Z)) :
  shellParseCommand (shellBuffer st) parserOutput = Ok (SHELL_OK, out, sb') ->
  getCommand table out Uninit (trace st) = Ok (SHELL_OK, Init idx, tr) ->
  tableEntry table idx = Ok cmd ->
  tpl_runner cmd out = Ok (ret, sent) ->
  shellProcessCommand table parserOutput st
    = Ok (SHELL_OK, mkShellState sb' (tr ++ Invoke idx :: map Transmit sent)).
Proof.
  intros Hparse Hget Hentry Hrun.
  unfold shellProcessCommand. rewrite Hparse, bind_Ok. cbv beta iota.
  rewrite Hget, bind_Ok. cbv beta iota.
  rewrite Hentry, bind_Ok, Hrun, bind_Ok. reflexivity.
Qed.

End Dispatch.


(** C4 (the code departs from the claim).  The claim: when the runner of a
    matched and validated command reports failure, a function-error
    response goes to the output channel.  In the code the line [fail] is
    matched to entry 0, whose runner returns [SHELL_ERR]; the runner is
    entered, nothing at all is transmitted, and both shellProcessCommand and
    checkShellStatus return [SHELL_OK].  The value of the runner is dropped,
    and shellSendResponse has no text for [RESPONSE_FNC_ERR]. *)
Theorem C4_runner_failure_not_reported :
  failingRunner staleParserOutput = Ok (SHELL_ERR, []) /\
  shellProcessCommand failTable staleParserOutput (pendingLine (bytes "fail"))
    = Ok (SHELL_OK, mkShellState (lineBuffer true (bytes "fail")) [Invoke 0]) /\
  checkShellStatus failTable staleParserOutput (pendingLine (bytes "fail"))
    = Ok (Init SHELL_OK, mkShellState (lineBuffer false (bytes "fail")) [Invoke 0]) /\
  shellSendResponse RESPONSE_FNC_ERR [] = (SHELL_OK, []).
Proof. repeat split; vm_compute; reflexivity. Qed.

(** ** Tokens: strtok over a line of words *)

Section Tokens.

Lemma cstr_app_nul (t rest : list Z) :
  Forall (fun c => c <> 0) t -> cstr (t ++ 0 :: rest) = t.
Proof.
  induction 1 as [| c t Hc _ IH]; simpl; [reflexivity |].
  destruct (Z.eqb_spec c 0); [contradiction |]. rewrite IH. reflexivity.
Qed.

Lemma cstr_nul_free (t : list Z) : Forall (fun c => c <> 0) t -> cstr t = t.
Proof.
  induction 1 as [| c t Hc _ IH]; simpl; [reflexivity |].
  destruct (Z.eqb_spec c 0); [contradiction |]. rewrite IH. reflexivity.
Qed.

Lemma word_nul_free (t : list Z) : word t -> Forall (fun c => c <> 0) t.
Proof. intros [_ H]. eapply Forall_impl; [exact H |]. intros c [Hc _]. exact Hc. Qed.

Lemma strlen_word (t : list Z) : word t -> strlen t = Z.of_nat (length t).
Proof. intros H. unfold strlen. rewrite cstr_nul_free by (apply word_nul_free, H). reflexivity. Qed.

Lemma scanToken_space (t rest : list Z) :
  Forall wordByte t -> scanToken (t ++ SPACE :: rest) = Ok (t, rest).
Proof.
  induction 1 as [| c t [Hc0 Hcs] _ IH]; simpl; [reflexivity |].
  destruct (Z.eqb_spec c 0); [contradiction |].
  destruct (Z.eqb_spec c SPACE); [contradiction |].
  rewrite IH. reflexivity.
Qed.

Lemma scanToken_nul (t rest : list Z) :
  Forall wordByte t -> scanToken (t ++ 0 :: rest) = Ok (t, 0 :: rest).
Proof.
  induction 1 as [| c t [Hc0 Hcs] _ IH]; simpl; [reflexivity |].
  destruct (Z.eqb_spec c 0); [contradiction |].
  destruct (Z.eqb_spec c SPACE); [contradiction |].
  rewrite IH. reflexivity.
Qed.

Lemma strtok_nul (rest : list Z) : strtok (0 :: rest) = Ok (None, 0 :: rest).
Proof. reflexivity. Qed.

Lemma strtok_word (t s rest : list Z) :
  word t ->
  scanToken (t ++ s) = Ok (t, rest) ->
  strtok (t ++ s) = Ok (Some t, rest).
Proof.
  intros [Hne Hbytes] Hscan. unfold strtok.
  destruct t as [| c t]; [contradiction |].
  apply Forall_cons in Hbytes. destruct Hbytes as [[Hc0 Hcs] _].
  change ((c :: t) ++ s) with (c :: (t ++ s)) in *.
  simpl skipDelim.
  destruct (Z.eqb_spec c SPACE); [contradiction |].
  destruct (Z.eqb_spec c 0); [contradiction |].
  rewrite Hscan. reflexivity.
Qed.

(** One call of strtok on what is left of a line of words takes the first
    word off. *)
Lemma strtok_joinTokens (toks : list (list Z)) (pad : list Z) :
  Forall word toks ->
  strtok (joinTokens toks ++ 0 :: pad)
    = Ok (head toks, joinTokens (tail toks) ++ 0 :: pad).
Proof.
  intros Hw. destruct toks as [| t rest]; [reflexivity |].
  apply Forall_cons in Hw. destruct Hw as [Ht _].
  simpl head. simpl tail.
  destruct rest as [| t' rest].
  - simpl joinTokens. apply strtok_word; [exact Ht |].
    apply scanToken_nul. apply Ht.
  - change (joinTokens (t :: t' :: rest))
      with (t ++ SPACE :: joinTokens (t' :: rest)).
    rewrite <- app_assoc. apply strtok_word; [exact Ht |].
    apply (scanToken_space t). apply Ht.
Qed.

Lemma memset_from_fits (dobj : object) (c : Z) :
  forall (n k : nat) (dst : list Z),
    (k + n <= length dst)%nat ->
    memset_from n (Z.of_nat k) dobj dst c
      = Ok (take k dst ++ replicate n c ++ drop (k + n) dst).
Proof.
  induction n as [| n IH]; intros k dst Hd.
  - simpl. rewrite Nat.add_0_r, take_drop. reflexivity.
  - simpl.
    rewrite wr_inside by lia. rewrite bind_Ok.
    replace (Z.of_nat k + 1) with (Z.of_nat (S k)) by lia.
    rewrite IH; rewrite ?length_insert; try lia.
    rewrite (take_S_r (<[k:=c]> dst) k c) by (apply list_lookup_insert_eq; lia).
    rewrite take_insert_ge by lia.
    rewrite drop_insert_lt by lia.
    rewrite <- app_assoc. simpl.
    replace (S (k + n))%nat with (k + S n)%nat by lia.
    reflexivity.
Qed.

Lemma memset_fits (dobj : object) (dst : list Z) (c n : Z) :
  0 <= n <= Z.of_nat (length dst) ->
  memset dobj dst c n = Ok (replicate (Z.to_nat n) c ++ drop (Z.to_nat n) dst).
Proof.
  intros Hn. unfold memset.
  change 0 with (Z.of_nat 0).
  rewrite (memset_from_fits dobj c (Z.to_nat n) 0 dst) by (simpl; lia).
  reflexivity.
Qed.

(** The two library calls that store one token, and what follows them. *)
Lemma store_token {B : Type} (old tok : list Z) (k : list Z -> result B) :
  word tok ->
  (length tok < length old)%nat ->
  (c1 <- memset ArgContents old 0 (strlen tok + 1) ;;
   c2 <- memcpy ArgContents BufferCopy c1 tok (strlen tok) ;;
   k c2)
    = k (tok ++ 0 :: drop (S (length tok)) old).
Proof.
  intros Hw Hlen. rewrite (strlen_word _ Hw).
  rewrite memset_fits by lia. rewrite bind_Ok.
  rewrite memcpy_fits; rewrite ?length_app, ?length_replicate, ?length_drop; try lia.
  rewrite bind_Ok.
  rewrite Nat2Z.id, take_ge by lia.
  replace (Z.to_nat (Z.of_nat (length tok) + 1)) with (S (length tok)) by lia.
  rewrite drop_app_le by (rewrite length_replicate; lia).
  rewrite drop_replicate.
  replace (S (length tok) - length tok)%nat with 1%nat by lia.
  reflexivity.
Qed.

End Tokens.

(** ** extractArguments *)

Section Extraction.

Lemma extractArguments_loop_unfold (fuel : nat) (i : Z) (extractArg : option (list Z))
    (save : list Z) (args : list shellArgument_t) :
  extractArguments_loop (S fuel) i extractArg save args =
    match i <? MAX_ARGUMENTS, extractArg with
    | true, Some tok =>
        match args !! Z.to_nat i with
        | None => Fault (OutOfBounds CmdArgs i)
        | Some arg =>
            c1 <- memset ArgContents (argContents arg) 0 (strlen tok + 1) ;;
            c2 <- memcpy ArgContents BufferCopy c1 tok (strlen tok) ;;
            let arg' :=
              mkShellArgument c2 (strlen tok - 1) (getTokenFromChar (hd 0 tok)) in
            p <- strtok save ;;
            extractArguments_loop fuel (u8 (i + 1)) (fst p) (snd p)
              (<[Z.to_nat i := arg']> args)
        end
    | _, _ => Ok (i, args)
    end.
Proof. reflexivity. Qed.

(** The loop, started with [done] entries filled and the words [toks] still
    to come: it fills entries until the words or the entries run out. *)
Lemma extractArguments_loop_words (pad : list Z) :
  forall (free : list shellArgument_t) (toks : list (list Z))
         (done : list shellArgument_t) (fuel : nat),
    Forall word toks ->
    Forall (fun t => (length t < Z.to_nat SHELL_ARG_LEN)%nat) (take (length free) toks) ->
    Forall (fun a => length (argContents a) = Z.to_nat SHELL_ARG_LEN) free ->
    (length done + length free)%nat = Z.to_nat MAX_ARGUMENTS ->
    (length free < fuel)%nat ->
    extractArguments_loop fuel (Z.of_nat (length done)) (head toks)
        (joinTokens (tail toks) ++ 0 :: pad) (done ++ free)
      = Ok (Z.of_nat (length done + length (take (length free) toks)),
            done ++ storeArgs toks free).
Proof.
  unfold MAX_ARGUMENTS, SHELL_ARG_LEN.
  induction free as [| a free IH]; intros toks done fuel Hw Hshort Hsize Hlen Hfuel;
    (destruct fuel as [| fuel]; [simpl in Hfuel; lia |]);
    rewrite extractArguments_loop_unfold; unfold MAX_ARGUMENTS.
  - simpl in Hlen.
    destruct (Z.ltb_spec (Z.of_nat (length done)) 5); [lia |].
    simpl. rewrite Nat.add_0_r.
    destruct toks; reflexivity.
  - simpl in Hlen, Hfuel.
    destruct (Z.ltb_spec (Z.of_nat (length done)) 5); [| lia].
    destruct toks as [| tok toks]; [simpl; rewrite Nat.add_0_r; reflexivity |].
    change (head (tok :: toks)) with (Some tok).
    change (tail (tok :: toks)) with toks.
    cbv iota.
    apply Forall_cons in Hw. destruct Hw as [Htok Hw].
    simpl in Hshort. apply Forall_cons in Hshort. destruct Hshort as [Hshort1 Hshort].
    apply Forall_cons in Hsize. destruct Hsize as [Hsize1 Hsize].
    rewrite Nat2Z.id, list_lookup_middle by reflexivity.
    rewrite (store_token (argContents a) tok _ Htok ltac:(lia)).
    rewrite (strtok_joinTokens toks pad Hw), bind_Ok.
    cbv [fst snd].
    rewrite u8_small by lia.
    rewrite (strlen_word _ Htok).
    replace (<[length done := _]> (done ++ a :: free))
      with ((done ++ [storedArgument a tok]) ++ free).
    2:{ rewrite <- app_assoc. simpl.
        replace (length done) with (length done + 0)%nat at 1 by lia.
        rewrite insert_app_r. reflexivity. }
    replace (Z.of_nat (length done) + 1)
      with (Z.of_nat (length (done ++ [storedArgument a tok])))
      by (rewrite length_app; simpl; lia).
    rewrite IH; try assumption.
    + rewrite length_app, <- app_assoc. simpl.
      do 3 f_equal. lia.
    + rewrite length_app. simpl. lia.
    + lia.
Qed.

(** [bufferCopy] after the copy: the line, then zeros. *)
Lemma copyBuffer_line (sb : shellBufferHandle_t) (line : list Z) :
  holdsLine sb line ->
  Z.of_nat (length line) <= SHELL_CMD_LEN ->
  copyBuffer sb
    = Ok (line ++ replicate (Z.to_nat SHELL_CMD_LEN - length line) 0).
Proof.
  intros (Hsize & Hlen & Hline) Hfit.
  unfold copyBuffer. unfold SHELL_CMD_LEN, SHELL_BUFFER_LEN in *.
  rewrite memcpy_fits.
  - rewrite Hlen, Nat2Z.id, Hline, drop_replicate. reflexivity.
  - rewrite length_replicate. lia.
  - lia.
Qed.

(** A line of words shorter than the buffer, its arguments short enough for
    [argContents]: the first [MAX_ARGUMENTS] of them are stored in order,
    [numArgs] counts them, and the status is [SHELL_OK]. *)
Lemma extractArguments_words (sb : shellBufferHandle_t)
    (cmdParseOut : shellParserOutput_t) (cmd : list Z) (args : list (list Z)) :
  holdsLine sb (joinTokens (cmd :: args)) ->
  Z.of_nat (length (joinTokens (cmd :: args))) < SHELL_CMD_LEN ->
  wellFormedOutput cmdParseOut ->
  Forall word (cmd :: args) ->
  Forall (fun t => (length t < Z.to_nat SHELL_ARG_LEN)%nat)
    (take (Z.to_nat MAX_ARGUMENTS) args) ->
  extractArguments sb cmdParseOut
    = Ok (SHELL_OK,
          mkShellParserOutput (cmdName cmdParseOut)
            (Z.of_nat (length (take (Z.to_nat MAX_ARGUMENTS) args)))
            (storeArgs args (cmdArgs cmdParseOut))).
Proof.
  intros Hholds Hfit (_ & Hcount & Hsizes) Hw Hshort.
  unfold extractArguments.
  rewrite (copyBuffer_line sb _ Hholds) by lia. rewrite bind_Ok.
  clear Hholds. unfold SHELL_CMD_LEN, SHELL_BUFFER_LEN in *.
  destruct (Z.to_nat 100 - length (joinTokens (cmd :: args)))%nat as [| padlen] eqn:Hpad;
    [lia |].
  change (replicate (S padlen) 0) with (0 :: replicate padlen 0).
  rewrite (strtok_joinTokens (cmd :: args) _ Hw), bind_Ok.
  cbv [snd]. simpl tail.
  apply Forall_cons in Hw. destruct Hw as [_ Hw].
  rewrite (strtok_joinTokens args _ Hw), bind_Ok.
  cbv [fst snd].
  pose proof (extractArguments_loop_words (replicate padlen 0) (cmdArgs cmdParseOut)
                args [] (S (Z.to_nat MAX_ARGUMENTS)) Hw) as Hloop.
  rewrite Hcount in Hloop. simpl length in Hloop.
  change (Z.of_nat 0) with 0 in Hloop.
  simpl app in Hloop.
  rewrite Hloop; [| exact Hshort | exact Hsizes | lia | lia].
  rewrite bind_Ok. reflexivity.
Qed.

(** Whatever the line: when the loop ends, the count has not passed
    [MAX_ARGUMENTS]. *)
Lemma extractArguments_loop_bound :
  forall (fuel : nat) (i : Z) (extractArg : option (list Z)) (save : list Z)
         (args args' : list shellArgument_t) (i' : Z),
    0 <= i <= MAX_ARGUMENTS ->
    extractArguments_loop fuel i extractArg save args = Ok (i', args') ->
    i <= i' <= MAX_ARGUMENTS.
Proof.
  unfold MAX_ARGUMENTS.
  induction fuel as [| fuel IH]; intros i extractArg save args args' i' Hi Hrun;
    [discriminate |].
  rewrite extractArguments_loop_unfold in Hrun. unfold MAX_ARGUMENTS in Hrun.
  destruct (Z.ltb_spec i 5) as [Hlt | Hge].
  - destruct extractArg as [tok |]; [| injection Hrun as <- _; lia].
    destruct (args !! Z.to_nat i) as [arg |]; [| discriminate].
    apply bind_Ok_inv in Hrun. destruct Hrun as (c1 & _ & Hrun).
    apply bind_Ok_inv in Hrun. destruct Hrun as (c2 & _ & Hrun).
    apply bind_Ok_inv in Hrun. destruct Hrun as (p & _ & Hrun).
    rewrite u8_small in Hrun by lia.
    apply IH in Hrun; lia.
  - destruct extractArg; injection Hrun as <- _; lia.
Qed.

(** Whatever the line and whatever the parser output held: when
    extractArguments returns, its status is [SHELL_OK] and [numArgs] is at
    most [MAX_ARGUMENTS]. *)
Lemma extractArguments_numArgs_bound (sb : shellBufferHandle_t)
    (cmdParseOut out : shellParserOutput_t) (status : shell_error) :
  extractArguments sb cmdParseOut = Ok (status, out) ->
  status = SHELL_OK /\ 0 <= numArgs out <= MAX_ARGUMENTS.
Proof.
  unfold extractArguments. intros Hrun.
  apply bind_Ok_inv in Hrun. destruct Hrun as (bufferCopy & _ & Hrun).
  apply bind_Ok_inv in Hrun. destruct Hrun as (p1 & _ & Hrun).
  apply bind_Ok_inv in Hrun. destruct Hrun as (p2 & _ & Hrun).
  apply bind_Ok_inv in Hrun. destruct Hrun as ([i' args'] & Hloop & Hrun).
  apply extractArguments_loop_bound in Hloop; [| unfold MAX_ARGUMENTS; lia].
  injection Hrun as <- <-. simpl. split; [reflexivity | lia].
Qed.

(** The empty line: no token, nothing stored. *)
Lemma extractArguments_empty (sb : shellBufferHandle_t)
    (cmdParseOut : shellParserOutput_t) :
  holdsLine sb [] ->
  extractArguments sb cmdParseOut
    = Ok (SHELL_OK,
          mkShellParserOutput (cmdName cmdParseOut) 0 (cmdArgs cmdParseOut)).
Proof.
  intros Hholds. unfold extractArguments.
  rewrite (copyBuffer_line sb [] Hholds) by (simpl; unfold SHELL_CMD_LEN, SHELL_BUFFER_LEN; lia).
  reflexivity.
Qed.

End Extraction.

(** ** Normalised lines are lines of words *)

Section Lines.

Lemma splitLine_not_nil (l : list Z) : splitLine l <> [].
Proof.
  destruct l as [| c r]; simpl; [discriminate |].
  destruct (c =? SPACE); [discriminate |].
  destruct (splitLine r); discriminate.
Qed.

Lemma joinTokens_cons_byte (c : Z) (t : list Z) (ts : list (list Z)) :
  joinTokens ((c :: t) :: ts) = c :: joinTokens (t :: ts).
Proof. destruct ts; reflexivity. Qed.

(** Splitting loses nothing: the tokens joined by single spaces are the line. *)
Lemma joinTokens_splitLine (l : list Z) : joinTokens (splitLine l) = l.
Proof.
  induction l as [| c r IH]; [reflexivity |].
  simpl splitLine.
  destruct (Z.eqb_spec c SPACE) as [-> | Hc].
  - pose proof (splitLine_not_nil r) as Hne.
    destruct (splitLine r) as [| t ts] eqn:Hs; [contradiction |].
    change (joinTokens ([] :: t :: ts)) with (SPACE :: joinTokens (t :: ts)).
    rewrite IH. reflexivity.
  - pose proof (splitLine_not_nil r) as Hne.
    destruct (splitLine r) as [| t ts] eqn:Hs; [contradiction |].
    rewrite joinTokens_cons_byte, IH. reflexivity.
Qed.

Lemma splitLine_wordBytes (l : list Z) :
  Forall (fun c => c <> 0) l -> Forall (Forall wordByte) (splitLine l).
Proof.
  induction 1 as [| c r Hc _ IH]; simpl.
  - repeat constructor.
  - destruct (Z.eqb_spec c SPACE) as [-> | Hs].
    + constructor; [constructor | exact IH].
    + destruct (splitLine r) as [| t ts].
      * repeat constructor; assumption.
      * apply Forall_cons in IH. destruct IH as [Ht Hts].
        constructor; [| exact Hts].
        constructor; [split; assumption | exact Ht].
Qed.

Lemma hasTrailingSpace_tail (c : Z) (r : list Z) :
  r <> [] -> hasTrailingSpace (c :: r) = hasTrailingSpace r.
Proof. destruct r; [contradiction | reflexivity]. Qed.

Lemma hasSpaceRun_tail (c : Z) (r : list Z) :
  hasSpaceRun (c :: r) = false -> hasSpaceRun r = false.
Proof.
  destruct r as [| d r]; [reflexivity |].
  intros H. change (((c =? SPACE) && (d =? SPACE)) || hasSpaceRun (d :: r) = false) in H.
  apply orb_false_iff in H. apply H.
Qed.

(** Without a trailing space and without a run of spaces, every token after
    the first is non-empty. *)
Lemma splitLine_tail_nonempty (l : list Z) :
  hasTrailingSpace l = false ->
  hasSpaceRun l = false ->
  Forall (fun t => t <> []) (tail (splitLine l)).
Proof.
  induction l as [| c r IH]; intros Htrail Hrun; [constructor |].
  pose proof (hasSpaceRun_tail _ _ Hrun) as Hrun'.
  simpl splitLine.
  destruct (Z.eqb_spec c SPACE) as [-> | Hc].
  - simpl tail.
    destruct r as [| d r'].
    + discriminate Htrail.
    + rewrite hasTrailingSpace_tail in Htrail by discriminate.
      specialize (IH Htrail Hrun').
      assert (Hd : d <> SPACE).
      { intros ->.
        change ((true && true) || hasSpaceRun (SPACE :: r') = false) in Hrun.
        discriminate Hrun. }
      simpl splitLine in *.
      destruct (Z.eqb_spec d SPACE) as [| _]; [contradiction |].
      destruct (splitLine r') as [| t ts]; simpl in *.
      * repeat constructor. discriminate.
      * constructor; [discriminate | exact IH].
  - destruct r as [| d r'].
    + constructor.
    + rewrite hasTrailingSpace_tail in Htrail by discriminate.
      specialize (IH Htrail Hrun').
      pose proof (splitLine_not_nil (d :: r')) as Hne.
      destruct (splitLine (d :: r')) as [| t ts]; [contradiction |].
      exact IH.
Qed.

(** A normalised line that is not empty and has no NUL byte is a line of
    words. *)
Lemma splitLine_words (l : list Z) :
  l <> [] ->
  normalized l = true ->
  Forall (fun c => c <> 0) l ->
  Forall word (splitLine l).
Proof.
  intros Hne Hnorm Hnul.
  unfold normalized in Hnorm.
  apply andb_true_iff in Hnorm. destruct Hnorm as [Hnorm Hrun].
  apply andb_true_iff in Hnorm. destruct Hnorm as [Hlead Htrail].
  apply negb_true_iff in Hlead, Htrail, Hrun.
  pose proof (splitLine_tail_nonempty l Htrail Hrun) as Htail.
  pose proof (splitLine_wordBytes l Hnul) as Hbytes.
  destruct l as [| c r]; [contradiction |].
  simpl in Hlead.
  simpl splitLine in *.
  destruct (Z.eqb_spec c SPACE) as [| _]; [discriminate |].
  pose proof (splitLine_not_nil r) as Hsplit.
  destruct (splitLine r) as [| t ts]; [contradiction |].
  simpl in Htail.
  apply Forall_cons in Hbytes. destruct Hbytes as [Hb Hbs].
  constructor.
  - split; [discriminate | exact Hb].
  - clear - Htail Hbs. induction ts as [| u us IHu]; [constructor |].
    apply Forall_cons in Htail, Hbs.
    destruct Htail as [Hu Hus], Hbs as [Hub Hubs].
    constructor; [split; assumption | apply IHu; assumption].
Qed.

(** Its first token has no space, so the line is command and arguments. *)
Lemma splitLine_command (l : list Z) :
  exists cmd, splitLine l = cmd :: argumentsOf l.
Proof.
  unfold argumentsOf. pose proof (splitLine_not_nil l) as Hne.
  destruct (splitLine l) as [| cmd args]; [contradiction |].
  exists cmd. reflexivity.
Qed.

End Lines.

(** ** What extractArguments stores *)

Section Stored.

Lemma storeArgs_take (toks : list (list Z)) :
  forall free : list shellArgument_t,
    storeArgs toks free = storeArgs (take (length free) toks) free.
Proof.
  induction toks as [| tok toks IH]; intros [| a free]; simpl; try reflexivity.
  rewrite <- IH. reflexivity.
Qed.

Lemma storeArgs_lookup (toks : list (list Z)) :
  forall (free : list shellArgument_t) (k : nat) (tok : list Z) (a : shellArgument_t),
    toks !! k = Some tok ->
    free !! k = Some a ->
    storeArgs toks free !! k = Some (storedArgument a tok).
Proof.
  induction toks as [| t toks IH]; intros [| b free] k tok a Ht Ha;
    try discriminate.
  destruct k as [| k]; simpl in *.
  - congruence.
  - apply IH; assumption.
Qed.

Lemma storeArgs_lookup_ge (toks : list (list Z)) :
  forall (free : list shellArgument_t) (k : nat),
    (length toks <= k)%nat ->
    storeArgs toks free !! k = free !! k.
Proof.
  induction toks as [| t toks IH]; intros [| b free] k Hk; try reflexivity.
  simpl in Hk. destruct k as [| k]; [lia |].
  simpl. apply IH. lia.
Qed.

Lemma storedArgument_contents (old : shellArgument_t) (tok : list Z) :
  Forall (fun c => c <> 0) tok ->
  cstr (argContents (storedArgument old tok)) = tok.
Proof. intros H. simpl. apply cstr_app_nul. exact H. Qed.

End Stored.

(** For a normalised line without NUL byte that is shorter than the
    buffer, whose captured arguments are shorter than [argContents], and a
    parser output of the declared shape: extractArguments returns
    [SHELL_OK]; it stores the first [MAX_ARGUMENTS] = 5 argument tokens, in
    order, each as a C string with its token tag; [numArgs] is the number of
    arguments stored, at most 5; the result depends on no later token, and
    the entries of [cmdArgs] behind the stored ones are left as they were. *)
Lemma extractArguments_keeps_first_five
    (sb : shellBufferHandle_t) (cmdParseOut : shellParserOutput_t) (line : list Z) :
  holdsLine sb line ->
  wellFormedOutput cmdParseOut ->
  normalized line = true ->
  Forall (fun c => c <> 0) line ->
  Z.of_nat (length line) < SHELL_CMD_LEN ->
  Forall (fun t => (length t < Z.to_nat SHELL_ARG_LEN)%nat) (capturedOf line) ->
  exists out,
    extractArguments sb cmdParseOut = Ok (SHELL_OK, out) /\
    numArgs out = Z.of_nat (length (capturedOf line)) /\
    numArgs out = Z.min MAX_ARGUMENTS (Z.of_nat (length (argumentsOf line))) /\
    numArgs out <= MAX_ARGUMENTS /\
    cmdArgs out = storeArgs (capturedOf line) (cmdArgs cmdParseOut) /\
    (forall (k : nat) (tok : list Z),
       capturedOf line !! k = Some tok ->
       exists a,
         cmdArgs out !! k = Some a /\
         cstr (argContents a) = tok /\
         argToken a = getTokenFromChar (hd 0 tok)) /\
    (forall k : nat,
       (length (capturedOf line) <= k)%nat ->
       cmdArgs out !! k = cmdArgs cmdParseOut !! k).
Proof.
  intros Hholds Hshape Hnorm Hnul Hfit Hshort.
  destruct (decide (line = [])) as [-> | Hne].
  { eexists. split; [apply extractArguments_empty; exact Hholds |].
    simpl. unfold MAX_ARGUMENTS.
    repeat split; try lia; try discriminate. }
  pose proof (splitLine_words line Hne Hnorm Hnul) as Hwords.
  destruct (splitLine_command line) as [cmd Hsplit].
  rewrite Hsplit in Hwords.
  pose proof (joinTokens_splitLine line) as Hjoin. rewrite Hsplit in Hjoin.
  rewrite <- Hjoin in Hholds, Hfit.
  pose proof (extractArguments_words sb cmdParseOut cmd (argumentsOf line)
                Hholds Hfit Hshape Hwords Hshort) as Hrun.
  destruct Hshape as (_ & Hcount & Hsizes).
  assert (Hstore : storeArgs (argumentsOf line) (cmdArgs cmdParseOut)
                   = storeArgs (capturedOf line) (cmdArgs cmdParseOut)).
  { rewrite storeArgs_take, Hcount. reflexivity. }
  rewrite Hstore in Hrun.
  eexists. split; [exact Hrun |]. simpl.
  assert (Hcap : (length (capturedOf line) <= 5)%nat).
  { unfold capturedOf, MAX_ARGUMENTS. rewrite length_take. lia. }
  fold (capturedOf line).
  split; [reflexivity |].
  split; [unfold capturedOf, MAX_ARGUMENTS; rewrite length_take; lia |].
  split; [unfold MAX_ARGUMENTS; lia |].
  split; [reflexivity |].
  split.
  - intros k tok Hk.
    assert (Hlt : (k < length (cmdArgs cmdParseOut))%nat).
    { apply lookup_lt_Some in Hk. rewrite Hcount. unfold MAX_ARGUMENTS. lia. }
    destruct (lookup_lt_is_Some_2 _ _ Hlt) as [a Ha].
    exists (storedArgument a tok).
    split; [apply storeArgs_lookup; assumption |].
    split; [| reflexivity].
    apply storedArgument_contents.
    apply Forall_cons in Hwords. destruct Hwords as [_ Hargs].
    assert (Hin : tok ∈ argumentsOf line).
    { apply list_elem_of_lookup. exists k.
      unfold capturedOf in Hk. apply lookup_take_Some in Hk. apply Hk. }
    apply word_nul_free.
    rewrite Forall_forall in Hargs. apply Hargs. exact Hin.
  - intros k Hk. apply storeArgs_lookup_ge. exact Hk.
Qed.

(** Of the seven arguments the first five are stored. *)
Example extractArguments_seven_arguments :
  exists out,
    extractArguments (lineBuffer true sevenArguments) staleParserOutput
      = Ok (SHELL_OK, out) /\
    numArgs out = 5 /\
    map (fun a => cstr (argContents a)) (cmdArgs out)
      = [bytes "a1"; bytes "b2"; bytes "c3"; bytes "d4"; bytes "e5"] /\
    map argToken (cmdArgs out) = [0; 1; 2; 3; 4].
Proof.
  assert (Hnul : Forall (fun c => c <> 0) sevenArguments).
  { let l := eval vm_compute in sevenArguments in change sevenArguments with l.
    repeat (constructor; [discriminate |]). constructor. }
  assert (Hshort : Forall (fun t => (length t < Z.to_nat SHELL_ARG_LEN)%nat)
                     (capturedOf sevenArguments)).
  { let l := eval vm_compute in (capturedOf sevenArguments) in
    change (capturedOf sevenArguments) with l.
    unfold SHELL_ARG_LEN.
    repeat (constructor; [simpl length; lia |]). constructor. }
  assert (Hholds : holdsLine (lineBuffer true sevenArguments) sevenArguments).
  { repeat split; reflexivity. }
  assert (Hshape : wellFormedOutput staleParserOutput).
  { split; [reflexivity |]. split; [reflexivity | repeat constructor]. }
  destruct (extractArguments_keeps_first_five
              (lineBuffer true sevenArguments) staleParserOutput sevenArguments
              Hholds Hshape eq_refl Hnul eq_refl Hshort)
    as (out & Hrun & Hnum & _ & _ & Hargs & _).
  exists out. split; [exact Hrun |].
  split; [rewrite Hnum; reflexivity |].
  rewrite Hargs. split; reflexivity.
Qed.


(** ** scrubWhiteSpace on a line that is normalised already *)

Section ScrubFixed.

Lemma scrubTrailing_unfold (fuel : nat) (currentLength lastIndex : Z) (buf : list Z) :
  scrubTrailing (S fuel) currentLength lastIndex buf =
    c <- rd RxBuffer buf lastIndex ;;
    if (c =? SPACE) && (currentLength >? 0) then
      let currentLength' := u8 (currentLength - 1) in
      scrubTrailing fuel currentLength' (u8 (currentLength' - 1)) buf
    else Ok currentLength.
Proof. reflexivity. Qed.

Lemma scrubDuplicate_unfold (fuel : nat) (i currentLength : Z) (buf : list Z) :
  scrubDuplicate (S fuel) i currentLength buf =
    if i <? currentLength then
      a <- rd RxBuffer buf i ;;
      if a =? SPACE then
        b <- rd RxBuffer buf (i + 1) ;;
        if b =? SPACE then
          buf' <- shiftLoop U8_FUEL (u8 (i + 1)) (currentLength - 2) buf ;;
          scrubDuplicate fuel (u8 (i + 1)) (u8 (currentLength - 1)) buf'
        else scrubDuplicate fuel (u8 (i + 1)) currentLength buf
      else scrubDuplicate fuel (u8 (i + 1)) currentLength buf
    else Ok (currentLength, buf).
Proof. reflexivity. Qed.

Lemma hasSpaceRun_lookup (l : list Z) :
  hasSpaceRun l = false ->
  forall i : nat, l !! i = Some SPACE -> l !! S i <> Some SPACE.
Proof.
  induction l as [| c r IH]; intros Hrun i Hi; [discriminate |].
  destruct r as [| d r']; [destruct i; discriminate |].
  change (((c =? SPACE) && (d =? SPACE)) || hasSpaceRun (d :: r') = false) in Hrun.
  apply orb_false_iff in Hrun. destruct Hrun as [Hcd Hrun].
  destruct i as [| i].
  - simpl in Hi. injection Hi as ->. simpl.
    rewrite Z.eqb_refl in Hcd. simpl in Hcd.
    intros [= ->]. discriminate Hcd.
  - apply (IH Hrun i). exact Hi.
Qed.

Lemma hasTrailingSpace_lookup (l : list Z) (c : Z) :
  hasTrailingSpace l = false ->
  l !! pred (length l) = Some c ->
  c <> SPACE.
Proof.
  unfold hasTrailingSpace. rewrite last_lookup. intros H Hc. rewrite Hc in H.
  intros ->. discriminate H.
Qed.

Variable sb : shellBufferHandle_t.
Variable line : list Z.
Hypothesis holds : holdsLine sb line.
Hypothesis not_empty : line <> [].
Hypothesis is_normalized : normalized line = true.
Hypothesis fits : Z.of_nat (length line) <= SHELL_BUFFER_LEN.

Lemma normalized_parts :
  hasLeadingSpace line = false /\ hasTrailingSpace line = false /\
  hasSpaceRun line = false.
Proof.
  unfold normalized in is_normalized.
  apply andb_true_iff in is_normalized. destruct is_normalized as [H Hrun].
  apply andb_true_iff in H. destruct H as [Hlead Htrail].
  apply negb_true_iff in Hlead, Htrail, Hrun. auto.
Qed.

Lemma buffer_lookup (i : nat) :
  (i < length line)%nat -> rxBuffer sb !! i = line !! i.
Proof.
  intros Hi. destruct holds as (_ & _ & Htake).
  transitivity (take (length line) (rxBuffer sb) !! i).
  - symmetry. apply lookup_take_lt. exact Hi.
  - rewrite Htake. reflexivity.
Qed.

Lemma line_length_pos : (0 < length line)%nat.
Proof. destruct line; [contradiction | simpl; lia]. Qed.

(** No byte of the line at an index below [length line - 1] that is a space
    is followed by a space, and the last byte is no space: the third loop
    changes nothing. *)
Lemma scrubDuplicate_fixed :
  forall (fuel i : nat),
    (i <= length line)%nat ->
    (length line < fuel + i)%nat ->
    scrubDuplicate fuel (Z.of_nat i) (Z.of_nat (length line)) (rxBuffer sb)
      = Ok (Z.of_nat (length line), rxBuffer sb).
Proof.
  destruct normalized_parts as (_ & Htrail & Hrun).
  unfold SHELL_BUFFER_LEN in fits.
  induction fuel as [| fuel IH]; intros i Hi Hfuel; [simpl in Hfuel; lia |].
  rewrite scrubDuplicate_unfold.
  destruct (Z.ltb_spec (Z.of_nat i) (Z.of_nat (length line))) as [Hlt | _];
    [| reflexivity].
  assert (Hi' : (i < length line)%nat) by lia.
  destruct (lookup_lt_is_Some_2 line i Hi') as [a Ha].
  rewrite <- buffer_lookup in Ha by exact Hi'.
  rewrite (rd_lookup _ _ _ _ Ha), bind_Ok.
  rewrite u8_small by lia.
  replace (Z.of_nat i + 1) with (Z.of_nat (S i)) by lia.
  destruct (Z.eqb_spec a SPACE) as [-> | _]; [| apply IH; lia].
  rewrite buffer_lookup in Ha by exact Hi'.
  assert (Hnext : (S i < length line)%nat).
  { destruct (decide (S i = length line)) as [Heq | Hne]; [| lia].
    exfalso. apply (hasTrailingSpace_lookup line SPACE Htrail); [| reflexivity].
    rewrite <- Heq. exact Ha. }
  destruct (lookup_lt_is_Some_2 line (S i) Hnext) as [b Hb].
  pose proof (hasSpaceRun_lookup line Hrun i Ha) as Hnot.
  rewrite <- buffer_lookup in Hb by exact Hnext.
  rewrite (rd_lookup _ _ _ _ Hb), bind_Ok.
  rewrite buffer_lookup in Hb by exact Hnext.
  destruct (Z.eqb_spec b SPACE) as [-> | _]; [contradiction |].
  apply IH; lia.
Qed.

(** A normalised line that is not empty is left as it is. *)
Lemma scrubWhiteSpace_fixed : scrubWhiteSpace sb = Ok sb.
Proof.
  destruct normalized_parts as (Hlead & Htrail & Hrun).
  pose proof line_length_pos as Hpos.
  pose proof holds as (Hsize & Hlen & Htake).
  unfold SHELL_BUFFER_LEN in *.
  unfold scrubWhiteSpace. rewrite Hlen, u8_small by lia.
  (* first loop *)
  unfold U8_FUEL at 1. rewrite scrubLeading_unfold.
  destruct (lookup_lt_is_Some_2 line 0 Hpos) as [c0 Hc0].
  assert (Hc0' : c0 <> SPACE).
  { destruct line as [| c r]; [discriminate |].
    simpl in Hc0. injection Hc0 as <-. simpl in Hlead.
    intros ->. discriminate Hlead. }
  rewrite <- buffer_lookup in Hc0 by exact Hpos.
  rewrite (rd_lookup _ _ 0%nat _ Hc0), bind_Ok.
  destruct (Z.eqb_spec c0 SPACE) as [| _]; [contradiction |].
  cbv [andb]. rewrite bind_Ok. cbv beta iota.
  (* second loop *)
  rewrite u8_small by lia.
  unfold U8_FUEL at 1. rewrite scrubTrailing_unfold.
  assert (Hlast : (pred (length line) < length line)%nat) by lia.
  destruct (lookup_lt_is_Some_2 line _ Hlast) as [cl Hcl].
  pose proof (hasTrailingSpace_lookup line cl Htrail Hcl) as Hcl'.
  rewrite <- buffer_lookup in Hcl by exact Hlast.
  replace (Z.of_nat (length line) - 1) with (Z.of_nat (pred (length line))) by lia.
  rewrite (rd_lookup _ _ _ _ Hcl), bind_Ok.
  destruct (Z.eqb_spec cl SPACE) as [| _]; [contradiction |].
  cbv [andb]. rewrite bind_Ok.
  (* third loop *)
  pose proof (scrubDuplicate_fixed U8_FUEL 0 ltac:(lia)
                ltac:(unfold U8_FUEL; lia)) as Hdup.
  change (Z.of_nat 0) with 0 in Hdup.
  rewrite Hdup, bind_Ok. cbv beta iota.
  rewrite <- Hlen. destruct sb. reflexivity.
Qed.

End ScrubFixed.

(** ** shellParseCommand on a normalised line *)

Section ParseLine.

Lemma length_joinTokens_head (cmd : list Z) (args : list (list Z)) :
  (length cmd <= length (joinTokens (cmd :: args)))%nat.
Proof.
  destruct args; simpl joinTokens; [lia |].
  rewrite length_app. lia.
Qed.

(** The command of a line of words goes into [cmdName] as a C string. *)
Lemma exctractCommand_words (sb : shellBufferHandle_t)
    (cmdParseOut : shellParserOutput_t) (cmd : list Z) (args : list (list Z)) :
  holdsLine sb (joinTokens (cmd :: args)) ->
  Z.of_nat (length (joinTokens (cmd :: args))) < SHELL_CMD_LEN ->
  wellFormedOutput cmdParseOut ->
  Forall word (cmd :: args) ->
  exctractCommand sb cmdParseOut
    = Ok (SHELL_OK,
          mkShellParserOutput
            (cmd ++ 0 :: drop (S (length cmd)) (cmdName cmdParseOut))
            (numArgs cmdParseOut) (cmdArgs cmdParseOut)).
Proof.
  intros Hholds Hfit (Hname & _ & _) Hw.
  pose proof (length_joinTokens_head cmd args) as Hcmd.
  unfold exctractCommand.
  rewrite (copyBuffer_line sb _ Hholds) by lia. rewrite bind_Ok.
  clear Hholds. unfold SHELL_CMD_LEN, SHELL_BUFFER_LEN in *.
  destruct (Z.to_nat 100 - length (joinTokens (cmd :: args)))%nat as [| padlen] eqn:Hpad;
    [lia |].
  change (replicate (S padlen) 0) with (0 :: replicate padlen 0).
  rewrite (strtok_joinTokens (cmd :: args) _ Hw), bind_Ok.
  cbv [fst]. change (head (cmd :: args)) with (Some cmd).
  unfold sprintf_s.
  rewrite memcpy_fits; rewrite ?length_app; simpl length; try lia.
  rewrite bind_Ok, Nat2Z.id.
  rewrite take_ge by (rewrite length_app; simpl; lia).
  rewrite <- app_assoc. simpl.
  replace (length cmd + 1)%nat with (S (length cmd)) by lia.
  reflexivity.
Qed.

Variable sb : shellBufferHandle_t.
Variable cmdParseOut : shellParserOutput_t.
Variable line : list Z.
Hypothesis holds : holdsLine sb line.
Hypothesis shape : wellFormedOutput cmdParseOut.
Hypothesis not_empty : line <> [].
Hypothesis is_normalized : normalized line = true.
Hypothesis no_nul : Forall (fun c => c <> 0) line.
Hypothesis fits : Z.of_nat (length line) < SHELL_CMD_LEN.
Hypothesis short_args :
  Forall (fun t => (length t < Z.to_nat SHELL_ARG_LEN)%nat) (capturedOf line).

(** The whole parse of such a line goes through; the buffer stays as it is. *)
Lemma shellParseCommand_line :
  shellParseCommand sb cmdParseOut = Ok (SHELL_OK, parsedLine cmdParseOut line, sb).
Proof.
  pose proof (splitLine_words line not_empty is_normalized no_nul) as Hwords.
  destruct (splitLine_command line) as [cmd Hsplit].
  assert (Hcmd : commandOf line = cmd) by (unfold commandOf; rewrite Hsplit; reflexivity).
  rewrite Hsplit in Hwords.
  pose proof (joinTokens_splitLine line) as Hjoin. rewrite Hsplit in Hjoin.
  unfold shellParseCommand.
  rewrite (scrubWhiteSpace_fixed sb line holds not_empty is_normalized)
    by (unfold SHELL_CMD_LEN in fits; lia).
  rewrite bind_Ok.
  pose proof holds as Hholds. pose proof fits as Hfit.
  rewrite <- Hjoin in Hholds, Hfit.
  rewrite (exctractCommand_words sb cmdParseOut cmd (argumentsOf line)
             Hholds Hfit shape Hwords), bind_Ok.
  cbv beta iota.
  rewrite (extractArguments_words sb _ cmd (argumentsOf line) Hholds Hfit);
    [| | exact Hwords | exact short_args].
  2:{ destruct shape as (Hname & Hcount & Hsizes).
      pose proof (length_joinTokens_head cmd (argumentsOf line)) as Hlen.
      split; [| split; assumption]. simpl cmdName.
      rewrite length_app. simpl length. rewrite length_drop.
      unfold SHELL_CMD_LEN, SHELL_BUFFER_LEN in Hfit, Hname |- *. lia. }
  rewrite bind_Ok. cbv beta iota. simpl cmdName. simpl cmdArgs.
  unfold parsedLine. rewrite Hcmd.
  destruct shape as (_ & Hcount & _).
  rewrite (storeArgs_take (argumentsOf line)), Hcount.
  reflexivity.
Qed.

Lemma parsedLine_command : cstr (cmdName (parsedLine cmdParseOut line)) = commandOf line.
Proof.
  simpl. apply cstr_app_nul.
  pose proof (splitLine_wordBytes line no_nul) as Hbytes.
  unfold commandOf.
  pose proof (splitLine_not_nil line) as Hne.
  destruct (splitLine line) as [| cmd rest]; [contradiction |].
  apply Forall_cons in Hbytes. destruct Hbytes as [Hcmd _].
  simpl. eapply Forall_impl; [exact Hcmd |]. intros c [Hc _]. exact Hc.
Qed.

End ParseLine.

(** ** A line with an unknown command, end to end *)

(** For a pending normalised line (not empty, no NUL byte, shorter than the
    buffer, arguments shorter than [argContents]) whose command token is the
    name of no table entry, one poll cycle answers with the command error,
    enters no runner and leaves the buffer as it is. *)
Lemma shellProcessCommand_unknown_line
    (table : list shellCmdTemplate_t) (parserOutput : shellParserOutput_t)
    (st : shell_state) (line : list Z) :
  (length table <= 255)%nat ->
  holdsLine (shellBuffer st) line ->
  wellFormedOutput parserOutput ->
  line <> [] ->
  normalized line = true ->
  Forall (fun c => c <> 0) line ->
  Z.of_nat (length line) < SHELL_CMD_LEN ->
  Forall (fun t => (length t < Z.to_nat SHELL_ARG_LEN)%nat) (capturedOf line) ->
  (forall cmd, cmd ∈ table -> cstr (tpl_cmdName cmd) <> commandOf line) ->
  shellProcessCommand table parserOutput st
    = Ok (SHELL_ERR,
          mkShellState (shellBuffer st)
            (trace st ++ [Transmit (bytes "Command Error!" ++ CRLF)])).
Proof.
  intros Hsize Hholds Hshape Hne Hnorm Hnul Hfit Hshort Hnone.
  apply (shellProcessCommand_unknown table Hsize parserOutput
           (parsedLine parserOutput line) st (shellBuffer st) SHELL_OK).
  - apply shellParseCommand_line; assumption.
  - intros cmd Hin. rewrite parsedLine_command by assumption.
    apply Hnone. exact Hin.
Qed.

(** ** The shipped shell on the lines of the specification's examples *)

(** [  ping  ] is normalised to [ping], matched to entry 2, and answered by
    its runner; the pending flag is cleared. *)
Example run_ping_padded :
  run (bytes "  ping  ")
    = Ok (Init SHELL_OK, [Invoke 2; Transmit (bytes "Pong!" ++ CRLF)], false).
Proof. vm_compute. reflexivity. Qed.

(** [help] and [?] reach HelpRunner, which sends the banner and one line for
    each of the three commands in one buffer. *)
Example run_help :
  run (bytes "help")
    = Ok (Init SHELL_OK,
          [Invoke 0;
           Transmit (helpHeader ++ help_helpDesc ++ qmark_helpDesc ++ ping_helpDesc)],
          false) /\
  run (bytes "?")
    = Ok (Init SHELL_OK,
          [Invoke 1;
           Transmit (helpHeader ++ help_helpDesc ++ qmark_helpDesc ++ ping_helpDesc)],
          false) /\
  take 26 helpHeader = bytes "<-- Shell Debug Kernel -->".
Proof. repeat split; vm_compute; reflexivity. Qed.

(** [bogus] is answered with the command error. *)
Example run_bogus :
  run (bytes "bogus")
    = Ok (Init SHELL_ERR, [Transmit (bytes "Command Error!" ++ CRLF)], false).
Proof. vm_compute. reflexivity. Qed.

(** A command with a mandatory argument tagged [a], called with an argument
    tagged [b] or with none, is answered with the argument error; called
    with [a5] its runner is entered. *)
Example setval_arguments :
  shellProcessCommand setvalTable staleParserOutput (pendingLine (bytes "setval b5"))
    = Ok (SHELL_ERR,
          mkShellState (lineBuffer true (bytes "setval b5"))
            [Transmit (bytes "Argument Error!" ++ CRLF)]) /\
  shellProcessCommand setvalTable staleParserOutput (pendingLine (bytes "setval"))
    = Ok (SHELL_ERR,
          mkShellState (lineBuffer true (bytes "setval"))
            [Transmit (bytes "Argument Error!" ++ CRLF)]) /\
  shellProcessCommand setvalTable staleParserOutput (pendingLine (bytes "setval a5"))
    = Ok (SHELL_OK, mkShellState (lineBuffer true (bytes "setval a5")) [Invoke 0]).
Proof. repeat split; vm_compute; reflexivity. Qed.

(** Leading and trailing spaces alone are removed. *)
Example scrub_leading_trailing :
  (sb <- scrubWhiteSpace (lineBuffer true (bytes "  ping a1  ")) ;; Ok (lineOf sb))
    = Ok (bytes "ping a1").
Proof. vm_compute. reflexivity. Qed.

(** * Further properties *)

(** ** validateArgs: what decides the result *)

Section MandatoryArguments.

Variable out : shellParserOutput_t.
Hypothesis out_parsed : parsedOutput out.

Lemma validateArgs_find_unfold (fuel : nat) (j : Z) (tmpl : shellArgTemplate_t)
    (tokenFound : bool) :
  validateArgs_find (S fuel) j out tmpl tokenFound =
    if j <? numArgs out then
      match cmdArgs out !! Z.to_nat j with
      | None => Fault (OutOfBounds CmdArgs j)
      | Some arg =>
          if argToken arg =? token tmpl then
            if negb (validateArgType (type tmpl) (argContents arg)) then Ok None
            else validateArgs_find fuel (u8 (j + 1)) out tmpl true
          else validateArgs_find fuel (u8 (j + 1)) out tmpl tokenFound
      end
    else Ok (Some tokenFound).
Proof. reflexivity. Qed.

(** The inner loop never leaves early (no type is ever rejected); it ends
    with the flag set when one of the remaining arguments has the token. *)
Lemma validateArgs_find_existsb (tmpl : shellArgTemplate_t) :
  forall (fuel j : nat) (tokenFound : bool),
    (j <= Z.to_nat (numArgs out))%nat ->
    (Z.to_nat (numArgs out) < fuel + j)%nat ->
    validateArgs_find fuel (Z.of_nat j) out tmpl tokenFound
      = Ok (Some (tokenFound ||
                  existsb (fun a => argToken a =? token tmpl)
                    (drop j (take (Z.to_nat (numArgs out)) (cmdArgs out))))).
Proof.
  destruct out_parsed as [Hlen Hnum]. unfold MAX_ARGUMENTS in *.
  induction fuel as [| fuel IH]; intros j tokenFound Hj Hfuel; [simpl in Hfuel; lia |].
  rewrite validateArgs_find_unfold.
  destruct (Z.ltb_spec (Z.of_nat j) (numArgs out)) as [Hlt | Hge].
  - assert (Hjn : (j < Z.to_nat (numArgs out))%nat) by lia.
    destruct (lookup_lt_is_Some_2 (cmdArgs out) j ltac:(lia)) as [a Ha].
    rewrite Nat2Z.id, Ha.
    assert (Hta : take (Z.to_nat (numArgs out)) (cmdArgs out) !! j = Some a)
      by (rewrite lookup_take_lt by exact Hjn; exact Ha).
    rewrite (drop_S _ a j Hta). simpl existsb.
    rewrite validateArgType_never_rejects. simpl negb. cbv iota.
    rewrite u8_small by lia.
    replace (Z.of_nat j + 1) with (Z.of_nat (S j)) by lia.
    destruct (argToken a =? token tmpl).
    + rewrite IH by lia. simpl. rewrite orb_true_r. reflexivity.
    + rewrite IH by lia. reflexivity.
  - rewrite drop_ge by (rewrite length_take; lia).
    simpl. rewrite orb_false_r. reflexivity.
Qed.

Lemma validateArgs_find_suppliesToken (tmpl : shellArgTemplate_t) :
  validateArgs_find U8_FUEL 0 out tmpl false
    = Ok (Some (suppliesToken out (token tmpl))).
Proof.
  destruct out_parsed as [Hlen Hnum]. unfold MAX_ARGUMENTS in *.
  pose proof (validateArgs_find_existsb tmpl U8_FUEL 0 false ltac:(lia)
                ltac:(unfold U8_FUEL; lia)) as H.
  change (Z.of_nat 0) with 0 in H. rewrite H. reflexivity.
Qed.

Variable cmd : shellCmdTemplate_t.
Hypothesis cmd_shape : wellFormedTemplate cmd.

Lemma validateArgs_loop_unfold (fuel : nat) (i : Z) :
  validateArgs_loop (S fuel) i out cmd =
    if i <? tpl_numArgs cmd then
      match tpl_cmdArgsTable cmd !! Z.to_nat i with
      | None => Fault (OutOfBounds CmdArgsTable i)
      | Some tmpl =>
          if mandatory tmpl then
            r <- validateArgs_find U8_FUEL 0 out tmpl false ;;
            match r with
            | None => Ok false
            | Some tokenFound =>
                if negb tokenFound then Ok false
                else validateArgs_loop fuel (u8 (i + 1)) out cmd
            end
          else validateArgs_loop fuel (u8 (i + 1)) out cmd
      end
    else Ok true.
Proof. reflexivity. Qed.

Lemma validateArgs_loop_forallb :
  forall (fuel i : nat),
    (i <= Z.to_nat (tpl_numArgs cmd))%nat ->
    (Z.to_nat (tpl_numArgs cmd) < fuel + i)%nat ->
    validateArgs_loop fuel (Z.of_nat i) out cmd
      = Ok (forallb (fun tmpl => implb (mandatory tmpl) (suppliesToken out (token tmpl)))
              (drop i (take (Z.to_nat (tpl_numArgs cmd)) (tpl_cmdArgsTable cmd)))).
Proof.
  destruct cmd_shape as [Hlen Hnum]. unfold MAX_ARGUMENTS in *.
  induction fuel as [| fuel IH]; intros i Hi Hfuel; [simpl in Hfuel; lia |].
  rewrite validateArgs_loop_unfold.
  destruct (Z.ltb_spec (Z.of_nat i) (tpl_numArgs cmd)) as [Hlt | Hge].
  - assert (Hin : (i < Z.to_nat (tpl_numArgs cmd))%nat) by lia.
    destruct (lookup_lt_is_Some_2 (tpl_cmdArgsTable cmd) i ltac:(lia)) as [tmpl Ht].
    rewrite Nat2Z.id, Ht.
    assert (Htt : take (Z.to_nat (tpl_numArgs cmd)) (tpl_cmdArgsTable cmd) !! i = Some tmpl)
      by (rewrite lookup_take_lt by exact Hin; exact Ht).
    rewrite (drop_S _ tmpl i Htt). simpl forallb.
    rewrite u8_small by lia.
    replace (Z.of_nat i + 1) with (Z.of_nat (S i)) by lia.
    destruct (mandatory tmpl); simpl implb.
    + rewrite validateArgs_find_suppliesToken, bind_Ok.
      destruct (suppliesToken out (token tmpl)); simpl; [apply IH; lia | reflexivity].
    + apply IH; lia.
  - rewrite drop_ge by (rewrite length_take; lia). reflexivity.
Qed.

Lemma validateArgs_loop_mandatoryCovered :
  validateArgs_loop U8_FUEL 0 out cmd = Ok (mandatoryCovered out cmd).
Proof.
  destruct cmd_shape as [Hlen Hnum]. unfold MAX_ARGUMENTS in *.
  pose proof (validateArgs_loop_forallb U8_FUEL 0 ltac:(lia)
                ltac:(unfold U8_FUEL; lia)) as H.
  change (Z.of_nat 0) with 0 in H. rewrite H. reflexivity.
Qed.

End MandatoryArguments.

Lemma tableEntry_at (table : list shellCmdTemplate_t) (i : nat)
    (cmd : shellCmdTemplate_t) :
  table !! i = Some cmd -> tableEntry table (Z.of_nat i) = Ok cmd.
Proof.
  intros H. unfold tableEntry.
  destruct (Z.leb_spec 0 (Z.of_nat i)) as [_ | Hneg].
  - rewrite Nat2Z.id, H. reflexivity.
  - exfalso. apply (Zlt_not_le _ _ Hneg). apply Nat2Z.is_nonneg.
Qed.

Lemma validateArgs_mandatoryCovered (table : list shellCmdTemplate_t)
    (out : shellParserOutput_t) (i : nat) (cmd : shellCmdTemplate_t) :
  table !! i = Some cmd ->
  wellFormedTemplate cmd ->
  parsedOutput out ->
  validateArgs table out (Z.of_nat i) = Ok (mandatoryCovered out cmd).
Proof.
  intros Hi Hcmd Hout. unfold validateArgs.
  rewrite (tableEntry_at table i cmd Hi), bind_Ok.
  apply validateArgs_loop_mandatoryCovered; assumption.
Qed.

(** X1.  validateArgs, for a table entry and a parser output of the declared
    shapes, returns true exactly when every mandatory entry among the first
    [numArgs] template entries has its token among the first [numArgs]
    parsed arguments.  Neither the contents of an argument, nor an optional
    template entry, nor a parsed argument without template entry has any
    part in the result. *)
Theorem X1_validateArgs_checks_mandatory_tokens_only
    (table : list shellCmdTemplate_t) (out : shellParserOutput_t)
    (i : nat) (cmd : shellCmdTemplate_t) :
  table !! i = Some cmd ->
  wellFormedTemplate cmd ->
  parsedOutput out ->
  validateArgs table out (Z.of_nat i) = Ok (mandatoryCovered out cmd) /\
  (validateArgs table out (Z.of_nat i) = Ok true <->
   forall tmpl,
     tmpl ∈ take (Z.to_nat (tpl_numArgs cmd)) (tpl_cmdArgsTable cmd) ->
     mandatory tmpl = true ->
     exists a,
       a ∈ take (Z.to_nat (numArgs out)) (cmdArgs out) /\
       argToken a = token tmpl).
Proof.
  intros Hi Hcmd Hout.
  rewrite (validateArgs_mandatoryCovered table out i cmd Hi Hcmd Hout).
  split; [reflexivity |].
  unfold mandatoryCovered. split.
  - intros [= Hall] tmpl Hin Hmand.
    rewrite forallb_forall in Hall.
    specialize (Hall tmpl ltac:(apply list_elem_of_In; exact Hin)).
    rewrite Hmand in Hall. simpl in Hall.
    unfold suppliesToken in Hall. apply existsb_exists in Hall.
    destruct Hall as (a & Ha & Heq).
    exists a. split; [apply list_elem_of_In; exact Ha | apply Z.eqb_eq; exact Heq].
  - intros Hall. f_equal. apply forallb_forall. intros tmpl Hin.
    destruct (mandatory tmpl) eqn:Hmand; [| reflexivity]. simpl.
    destruct (Hall tmpl ltac:(apply list_elem_of_In; exact Hin) Hmand) as (a & Ha & Heq).
    unfold suppliesToken. apply existsb_exists.
    exists a. split; [apply list_elem_of_In; exact Ha | apply Z.eqb_eq; exact Heq].
Qed.

(** A command with a mandatory argument tagged [a]: an argument tagged [a]
    validates whatever its contents, an argument tagged [b] does not. *)
Lemma X1_validateArgs_witness :
  validateArgs setvalTable (supplies (bytes "no number")) (Z.of_nat 0) = Ok true /\
  validateArgs setvalTable
    (parsedLine staleParserOutput (bytes "setval b5")) (Z.of_nat 0) = Ok false.
Proof.
  assert (Hcmd : wellFormedTemplate
                   (mkShellCmdTemplate (bytes "setval") []
                      (fun _ => Ok (SHELL_OK, [])) 1 setvalArgs)).
  { split; [reflexivity | split; discriminate]. }
  split.
  - assert (Hout : parsedOutput (supplies (bytes "no number"))).
    { split; [reflexivity | split; discriminate]. }
    destruct (X1_validateArgs_checks_mandatory_tokens_only setvalTable
                (supplies (bytes "no number")) 0 _ eq_refl Hcmd Hout) as [Hrun _].
    rewrite Hrun. vm_compute. reflexivity.
  - assert (Hout : parsedOutput (parsedLine staleParserOutput (bytes "setval b5"))).
    { split; [vm_compute; reflexivity | split; vm_compute; discriminate]. }
    destruct (X1_validateArgs_checks_mandatory_tokens_only setvalTable
                (parsedLine staleParserOutput (bytes "setval b5")) 0 _ eq_refl Hcmd Hout)
      as [Hrun _].
    rewrite Hrun. vm_compute. reflexivity.
Defined.

(** ** The parser output after shellParseCommand *)

Section ParsedShape.

Lemma extractArguments_loop_length :
  forall (fuel : nat) (i : Z) (extractArg : option (list Z)) (save : list Z)
         (args args' : list shellArgument_t) (i' : Z),
    extractArguments_loop fuel i extractArg save args = Ok (i', args') ->
    length args' = length args.
Proof.
  induction fuel as [| fuel IH]; intros i extractArg save args args' i' Hrun;
    [discriminate |].
  rewrite extractArguments_loop_unfold in Hrun.
  destruct (i <? MAX_ARGUMENTS).
  - destruct extractArg as [tok |]; [| injection Hrun as _ <-; reflexivity].
    destruct (args !! Z.to_nat i) as [arg |]; [| discriminate].
    apply bind_Ok_inv in Hrun. destruct Hrun as (c1 & _ & Hrun).
    apply bind_Ok_inv in Hrun. destruct Hrun as (c2 & _ & Hrun).
    apply bind_Ok_inv in Hrun. destruct Hrun as (p & _ & Hrun).
    apply IH in Hrun. rewrite Hrun, length_insert. reflexivity.
  - destruct extractArg; injection Hrun as _ <-; reflexivity.
Qed.

Lemma extractArguments_parsedOutput (sb : shellBufferHandle_t)
    (cmdParseOut out : shellParserOutput_t) (status : shell_error) :
  length (cmdArgs cmdParseOut) = Z.to_nat MAX_ARGUMENTS ->
  extractArguments sb cmdParseOut = Ok (status, out) ->
  parsedOutput out.
Proof.
  intros Hlen Hrun.
  pose proof (extractArguments_numArgs_bound _ _ _ _ Hrun) as [_ Hnum].
  split; [| exact Hnum].
  unfold extractArguments in Hrun.
  apply bind_Ok_inv in Hrun. destruct Hrun as (bufferCopy & _ & Hrun).
  apply bind_Ok_inv in Hrun. destruct Hrun as (p1 & _ & Hrun).
  apply bind_Ok_inv in Hrun. destruct Hrun as (p2 & _ & Hrun).
  apply bind_Ok_inv in Hrun. destruct Hrun as ([i' args'] & Hloop & Hrun).
  apply extractArguments_loop_length in Hloop.
  injection Hrun as _ <-. simpl. rewrite Hloop. exact Hlen.
Qed.

Lemma exctractCommand_cmdArgs (sb : shellBufferHandle_t)
    (cmdParseOut out : shellParserOutput_t) (status : shell_error) :
  exctractCommand sb cmdParseOut = Ok (status, out) ->
  cmdArgs out = cmdArgs cmdParseOut.
Proof.
  unfold exctractCommand. intros Hrun.
  apply bind_Ok_inv in Hrun. destruct Hrun as (bufferCopy & _ & Hrun).
  apply bind_Ok_inv in Hrun. destruct Hrun as (p & _ & Hrun).
  apply bind_Ok_inv in Hrun. destruct Hrun as (name & _ & Hrun).
  injection Hrun as _ <-. reflexivity.
Qed.

(** Whatever the line: when shellParseCommand returns, [numArgs] counts
    entries of [cmdArgs]. *)
Lemma shellParseCommand_parsedOutput (sb sb' : shellBufferHandle_t)
    (parserOutput out : shellParserOutput_t) (status : shell_error) :
  length (cmdArgs parserOutput) = Z.to_nat MAX_ARGUMENTS ->
  shellParseCommand sb parserOutput = Ok (status, out, sb') ->
  parsedOutput out.
Proof.
  intros Hlen Hrun. unfold shellParseCommand in Hrun.
  apply bind_Ok_inv in Hrun. destruct Hrun as (sb1 & _ & Hrun).
  apply bind_Ok_inv in Hrun. destruct Hrun as ([s1 out1] & Hcmd & Hrun).
  pose proof (exctractCommand_status _ _ _ _ Hcmd) as ->.
  apply exctractCommand_cmdArgs in Hcmd.
  apply bind_Ok_inv in Hrun. destruct Hrun as ([s2 out2] & Hargs & Hrun).
  injection Hrun as _ <- _.
  apply (extractArguments_parsedOutput sb1 out1 out2 s2); [| exact Hargs].
  rewrite Hcmd. exact Hlen.
Qed.

End ParsedShape.

(** ** getCommand and shellProcessCommand on a matched command *)

Section Matched.

Variable table : list shellCmdTemplate_t.
Hypothesis table_i8 : (length table <= 127)%nat.

Variable out : shellParserOutput_t.
Hypothesis out_parsed : parsedOutput out.

Variable i : nat.
Variable cmd : shellCmdTemplate_t.
Hypothesis entry : table !! i = Some cmd.
Hypothesis named : cstr (tpl_cmdName cmd) = cstr (cmdName out).
Hypothesis last_named :
  forall (j : nat) (cmd' : shellCmdTemplate_t),
    (i < j)%nat -> table !! j = Some cmd' ->
    cstr (tpl_cmdName cmd') <> cstr (cmdName out).
Hypothesis cmd_shape : wellFormedTemplate cmd.

Lemma getCommand_matched (commandTableIndex : cvalue Z) (tr : list event) :
  getCommand table out commandTableIndex tr =
    if mandatoryCovered out cmd then Ok (SHELL_OK, Init (Z.of_nat i), tr)
    else Ok (SHELL_ERR, commandTableIndex,
             tr ++ [Transmit (bytes "Argument Error!" ++ CRLF)]).
Proof.
  assert (Hlt : (i < length table)%nat) by (apply lookup_lt_is_Some; eauto).
  unfold getCommand.
  rewrite (matchCommand_last table ltac:(lia) out Uninit i cmd entry named last_named).
  rewrite bind_Ok. cbv [snd].
  unfold i8. rewrite Z.mod_small by lia.
  replace (Z.of_nat i + 128 - 128) with (Z.of_nat i) by lia.
  destruct (Z.ltb_spec (Z.of_nat i) 0) as [Hneg | _]; [lia |].
  rewrite u8_small by lia.
  rewrite (validateArgs_mandatoryCovered table out i cmd entry cmd_shape out_parsed).
  rewrite bind_Ok.
  destruct (mandatoryCovered out cmd); reflexivity.
Qed.

End Matched.

(** X2.  When the parse of the pending line goes through, the command name
    is that of table entry [i] and of no later entry, and some mandatory
    template entry of that command finds its token among the parsed
    arguments missing, shellProcessCommand hands exactly one buffer to the
    output channel, the text [Argument Error!] followed by CR LF, enters no
    runner, and returns [SHELL_ERR]. *)
Theorem X2_missing_mandatory_argument_reports_argument_error
    (table : list shellCmdTemplate_t) (parserOutput out : shellParserOutput_t)
    (st : shell_state) (sb' : shellBufferHandle_t) (status : shell_error)
    (i : nat) (cmd : shellCmdTemplate_t) :
  (length table <= 127)%nat ->
  length (cmdArgs parserOutput) = Z.to_nat MAX_ARGUMENTS ->
  shellParseCommand (shellBuffer st) parserOutput = Ok (status, out, sb') ->
  table !! i = Some cmd ->
  cstr (tpl_cmdName cmd) = cstr (cmdName out) ->
  (forall (j : nat) (cmd' : shellCmdTemplate_t),
     (i < j)%nat -> table !! j = Some cmd' ->
     cstr (tpl_cmdName cmd') <> cstr (cmdName out)) ->
  wellFormedTemplate cmd ->
  mandatoryCovered out cmd = false ->
  shellProcessCommand table parserOutput st
    = Ok (SHELL_ERR,
          mkShellState sb'
            (trace st ++ [Transmit (bytes "Argument Error!" ++ CRLF)])).
Proof.
  intros Hsize Hlen Hparse Hentry Hname Hlast Hshape Hmissing.
  pose proof (shellParseCommand_parsedOutput _ _ _ _ _ Hlen Hparse) as Hout.
  pose proof (shellParseCommand_status _ _ _ _ _ Hparse) as ->.
  unfold shellProcessCommand. rewrite Hparse, bind_Ok. cbv beta iota.
  rewrite (getCommand_matched table Hsize out Hout i cmd Hentry Hname Hlast Hshape).
  rewrite Hmissing, bind_Ok. reflexivity.
Qed.

(** [setval b5]: the mandatory argument tagged [a] is missing. *)
Lemma X2_argument_error_witness :
  shellProcessCommand setvalTable staleParserOutput (pendingLine (bytes "setval b5"))
    = Ok (SHELL_ERR,
          mkShellState (lineBuffer true (bytes "setval b5"))
            [Transmit (bytes "Argument Error!" ++ CRLF)]).
Proof.
  refine (X2_missing_mandatory_argument_reports_argument_error setvalTable
            staleParserOutput (parsedLine staleParserOutput (bytes "setval b5"))
            (pendingLine (bytes "setval b5")) (lineBuffer true (bytes "setval b5"))
            SHELL_OK 0
            (mkShellCmdTemplate (bytes "setval") []
               (fun _ => Ok (SHELL_OK, [])) 1 setvalArgs)
            _ _ _ _ _ _ _ _).
  - simpl. lia.
  - reflexivity.
  - vm_compute. reflexivity.
  - reflexivity.
  - vm_compute. reflexivity.
  - intros j cmd' Hj Hlook. destruct j as [| j]; [lia | discriminate Hlook].
  - split; [reflexivity | split; discriminate].
  - vm_compute. reflexivity.
Defined.

(** X3.  When the parse of the pending line goes through, the command name
    is that of table entry [i] and of no later entry, and every mandatory
    template entry of that command finds its token among the parsed
    arguments, shellProcessCommand enters the runner of entry [i] once, with
    the parser output; what the runner transmits is all that is
    transmitted; and the status returned is [SHELL_OK] whatever status the
    runner returned. *)
Theorem X3_validated_command_runs_its_runner
    (table : list shellCmdTemplate_t) (parserOutput out : shellParserOutput_t)
    (st : shell_state) (sb' : shellBufferHandle_t) (status : shell_error)
    (i : nat) (cmd : shellCmdTemplate_t) (ret : shell_error) (sent : list (list Z)) :
  (length table <= 127)%nat ->
  length (cmdArgs parserOutput) = Z.to_nat MAX_ARGUMENTS ->
  shellParseCommand (shellBuffer st) parserOutput = Ok (status, out, sb') ->
  table !! i = Some cmd ->
  cstr (tpl_cmdName cmd) = cstr (cmdName out) ->
  (forall (j : nat) (cmd' : shellCmdTemplate_t),
     (i < j)%nat -> table !! j = Some cmd' ->
     cstr (tpl_cmdName cmd') <> cstr (cmdName out)) ->
  wellFormedTemplate cmd ->
  mandatoryCovered out cmd = true ->
  tpl_runner cmd out = Ok (ret, sent) ->
  shellProcessCommand table parserOutput st
    = Ok (SHELL_OK,
          mkShellState sb' (trace st ++ Invoke (Z.of_nat i) :: map Transmit sent)).
Proof.
  intros Hsize Hlen Hparse Hentry Hname Hlast Hshape Hcovered Hrun.
  pose proof (shellParseCommand_parsedOutput _ _ _ _ _ Hlen Hparse) as Hout.
  pose proof (shellParseCommand_status _ _ _ _ _ Hparse) as ->.
  unfold shellProcessCommand. rewrite Hparse, bind_Ok. cbv beta iota.
  rewrite (getCommand_matched table Hsize out Hout i cmd Hentry Hname Hlast Hshape).
  rewrite Hcovered, bind_Ok. cbv beta iota.
  rewrite (tableEntry_at table i cmd Hentry), bind_Ok.
  rewrite Hrun, bind_Ok. reflexivity.
Qed.

(** [ping] with two arguments nobody asked for: the runner of entry 2 is
    entered all the same. *)
Lemma X3_validated_command_witness :
  shellProcessCommand shellCmdTemplateTable staleParserOutput
      (pendingLine (bytes "ping x1 y2"))
    = Ok (SHELL_OK,
          mkShellState (lineBuffer true (bytes "ping x1 y2"))
            [Invoke 2; Transmit (bytes "Pong!" ++ CRLF)]).
Proof.
  refine (X3_validated_command_runs_its_runner shellCmdTemplateTable
            staleParserOutput (parsedLine staleParserOutput (bytes "ping x1 y2"))
            (pendingLine (bytes "ping x1 y2")) (lineBuffer true (bytes "ping x1 y2"))
            SHELL_OK 2
            (mkShellCmdTemplate (bytes "ping") ping_helpDesc PingRunner 0 noArgsTable)
            SHELL_OK [bytes "Pong!" ++ CRLF]
            _ _ _ _ _ _ _ _ _).
  - simpl. lia.
  - reflexivity.
  - vm_compute. reflexivity.
  - reflexivity.
  - vm_compute. reflexivity.
  - intros j cmd' Hj Hlook.
    destruct j as [| [| [| j]]]; try lia. discriminate Hlook.
  - split; [reflexivity | split; discriminate].
  - vm_compute. reflexivity.
  - reflexivity.
Defined.

(** ** matchCommand past the range of [int8_t] *)

(** X4.  In a table of up to 255 entries, a command whose last entry sits at
    an index [i] of 128 or more is found by matchCommand, but the index is
    stored into an [int8_t] and comes out as [i - 256]; getCommand takes the
    negative value for "not found", so shellProcessCommand answers with the
    command error and enters no runner. *)
Theorem X4_entry_past_127_reports_command_error
    (table : list shellCmdTemplate_t) (parserOutput out : shellParserOutput_t)
    (st : shell_state) (sb' : shellBufferHandle_t) (status : shell_error)
    (i : nat) (cmd : shellCmdTemplate_t) :
  (length table <= 255)%nat ->
  (128 <= i)%nat ->
  shellParseCommand (shellBuffer st) parserOutput = Ok (status, out, sb') ->
  table !! i = Some cmd ->
  cstr (tpl_cmdName cmd) = cstr (cmdName out) ->
  (forall (j : nat) (cmd' : shellCmdTemplate_t),
     (i < j)%nat -> table !! j = Some cmd' ->
     cstr (tpl_cmdName cmd') <> cstr (cmdName out)) ->
  matchCommand table out Uninit = Ok (SHELL_OK, Init (Z.of_nat i - 256)) /\
  shellProcessCommand table parserOutput st
    = Ok (SHELL_ERR,
          mkShellState sb'
            (trace st ++ [Transmit (bytes "Command Error!" ++ CRLF)])).
Proof.
  intros Hsize Hi Hparse Hentry Hname Hlast.
  assert (Hlt : (i < length table)%nat) by (apply lookup_lt_is_Some; eauto).
  assert (Hmatch : matchCommand table out Uninit
                   = Ok (SHELL_OK, Init (Z.of_nat i - 256))).
  { rewrite (matchCommand_last table Hsize out Uninit i cmd Hentry Hname Hlast).
    unfold i8.
    replace (Z.of_nat i + 128) with (Z.of_nat i - 128 + 1 * 256) by lia.
    rewrite Z.mod_add by lia. rewrite Z.mod_small by lia.
    do 3 f_equal. lia. }
  split; [exact Hmatch |].
  pose proof (shellParseCommand_status _ _ _ _ _ Hparse) as ->.
  unfold shellProcessCommand. rewrite Hparse, bind_Ok. cbv beta iota.
  unfold getCommand. rewrite Hmatch, bind_Ok. cbv [snd].
  destruct (Z.ltb_spec (Z.of_nat i - 256) 0) as [_ | Hge]; [| lia].
  rewrite bind_Ok. reflexivity.
Qed.

(** [ping] as entry 128 of a table is answered with the command error. *)
Lemma X4_entry_past_127_witness :
  matchCommand wideTable (parsedLine staleParserOutput (bytes "ping")) Uninit
    = Ok (SHELL_OK, Init (-128)) /\
  shellProcessCommand wideTable staleParserOutput (pendingLine (bytes "ping"))
    = Ok (SHELL_ERR,
          mkShellState (lineBuffer true (bytes "ping"))
            [Transmit (bytes "Command Error!" ++ CRLF)]).
Proof.
  refine (X4_entry_past_127_reports_command_error wideTable staleParserOutput
            (parsedLine staleParserOutput (bytes "ping"))
            (pendingLine (bytes "ping")) (lineBuffer true (bytes "ping"))
            SHELL_OK 128
            (mkShellCmdTemplate (bytes "ping") ping_helpDesc PingRunner 0 noArgsTable)
            _ _ _ _ _ _).
  - unfold wideTable. rewrite length_app, length_replicate. simpl. lia.
  - lia.
  - vm_compute. reflexivity.
  - reflexivity.
  - vm_compute. reflexivity.
  - intros j cmd' Hj Hlook. apply lookup_lt_Some in Hlook.
    unfold wideTable in Hlook. rewrite length_app, length_replicate in Hlook.
    simpl in Hlook. lia.
Defined.

(** ** checkShellStatus: one line, one cycle *)

(** X5.  When a line is pending and its processing returns, checkShellStatus
    returns the status of the processing, clears the pending flag and leaves
    buffer, length and events as the processing left them; a further poll
    then does nothing at all: a line is processed once. *)
Theorem X5_pending_line_is_processed_once
    (table : list shellCmdTemplate_t) (parserOutput : shellParserOutput_t)
    (st st' : shell_state) (status : shell_error) :
  rxFlag (shellBuffer st) = true ->
  shellProcessCommand table parserOutput st = Ok (status, st') ->
  exists st'',
    checkShellStatus table parserOutput st = Ok (Init status, st'') /\
    rxFlag (shellBuffer st'') = false /\
    rxBuffer (shellBuffer st'') = rxBuffer (shellBuffer st') /\
    rxLen (shellBuffer st'') = rxLen (shellBuffer st') /\
    trace st'' = trace st' /\
    forall parserOutput' : shellParserOutput_t,
      checkShellStatus table parserOutput' st'' = Ok (Uninit, st'').
Proof.
  intros Hflag Hrun. unfold checkShellStatus at 1. rewrite Hflag, Hrun. simpl.
  eexists. split; [reflexivity |]. repeat split.
Qed.

(** The line [ping] of the shipped shell. *)
Lemma X5_processed_once_witness :
  exists st'',
    checkShellStatus shellCmdTemplateTable staleParserOutput (pendingLine (bytes "ping"))
      = Ok (Init SHELL_OK, st'') /\
    rxFlag (shellBuffer st'') = false /\
    trace st'' = [Invoke 2; Transmit (bytes "Pong!" ++ CRLF)] /\
    checkShellStatus shellCmdTemplateTable staleParserOutput st'' = Ok (Uninit, st'').
Proof.
  destruct (X5_pending_line_is_processed_once shellCmdTemplateTable staleParserOutput
              (pendingLine (bytes "ping"))
              (mkShellState (lineBuffer true (bytes "ping"))
                 [Invoke 2; Transmit (bytes "Pong!" ++ CRLF)])
              SHELL_OK eq_refl ltac:(vm_compute; reflexivity))
    as (st'' & Hpoll & Hflag & _ & _ & Htrace & Hidle).
  exists st''. split; [exact Hpoll |]. split; [exact Hflag |].
  split; [exact Htrace | apply Hidle].
Defined.

(** ** rxShellInput: what the buffer holds afterwards *)

(** X6.  Input of 1 to 100 bytes that does not begin with a carriage return
    is taken as it is: afterwards the pending flag is set, the length is the
    input's, the buffer begins with the input, and the bytes of the buffer
    behind the input are the ones that were there before (the buffer is not
    cleared). *)
Theorem X6_rxShellInput_stores_the_line
    (Buf : list Z) (sb : shellBufferHandle_t) :
  Z.of_nat (length (rxBuffer sb)) = SHELL_BUFFER_LEN ->
  0 < Z.of_nat (length Buf) <= SHELL_BUFFER_LEN ->
  Buf !! 0%nat <> Some 13 ->
  exists sb',
    rxShellInput Buf (Z.of_nat (length Buf)) sb = Ok sb' /\
    rxFlag sb' = true /\
    holdsLine sb' Buf /\
    drop (length Buf) (rxBuffer sb') = drop (length Buf) (rxBuffer sb).
Proof.
  intros Hsize Hlen Hcr.
  rewrite (rxShellInput_fits Buf _ sb Hsize Hlen eq_refl Hcr).
  eexists. split; [reflexivity |]. simpl.
  unfold SHELL_BUFFER_LEN in *.
  split; [reflexivity |]. split.
  - unfold holdsLine. simpl. rewrite Nat2Z.id.
    split; [| split; [reflexivity | apply take_app_length]].
    rewrite length_app, length_drop. unfold SHELL_BUFFER_LEN. lia.
  - rewrite Nat2Z.id. apply drop_app_length.
Qed.

(** The line [ping] put over an older, longer line. *)
Lemma X6_rxShellInput_witness :
  exists sb',
    rxShellInput (bytes "ping") 4 (lineBuffer false (bytes "help me")) = Ok sb' /\
    rxFlag sb' = true /\
    lineOf sb' = bytes "ping" /\
    take 7 (rxBuffer sb') = bytes "ping me".
Proof.
  destruct (X6_rxShellInput_stores_the_line (bytes "ping")
              (lineBuffer false (bytes "help me"))
              eq_refl ltac:(split; [reflexivity | discriminate]) ltac:(discriminate))
    as (sb' & Hrun & Hflag & (_ & Hlen & Htake) & Hrest).
  exists sb'. split; [exact Hrun |]. split; [exact Hflag |].
  split.
  - unfold lineOf. rewrite Hlen, Nat2Z.id. exact Htake.
  - change (length (bytes "ping")) with 4%nat in Htake, Hrest.
    rewrite <- (take_drop 4 (rxBuffer sb')), Htake, Hrest. reflexivity.
Defined.

(** X7.  Between two polls the buffer keeps one line only: after a first
    line is taken, input that begins with a carriage return changes nothing,
    whatever its length, and a second line takes the place of the first,
    which is lost without a trace. *)
Theorem X7_second_line_replaces_pending_line
    (first_line returns second_line : list Z) (Len : Z) (sb : shellBufferHandle_t) :
  Z.of_nat (length (rxBuffer sb)) = SHELL_BUFFER_LEN ->
  0 < Z.of_nat (length first_line) <= SHELL_BUFFER_LEN ->
  first_line !! 0%nat <> Some 13 ->
  0 < Z.of_nat (length second_line) <= SHELL_BUFFER_LEN ->
  second_line !! 0%nat <> Some 13 ->
  exists sb1 sb2,
    rxShellInput first_line (Z.of_nat (length first_line)) sb = Ok sb1 /\
    rxShellInput (13 :: returns) Len sb1 = Ok sb1 /\
    rxShellInput second_line (Z.of_nat (length second_line)) sb1 = Ok sb2 /\
    rxFlag sb2 = true /\
    holdsLine sb2 second_line.
Proof.
  intros Hsize Hlen1 Hcr1 Hlen2 Hcr2.
  rewrite (rxShellInput_fits first_line _ sb Hsize Hlen1 eq_refl Hcr1).
  eexists. eexists. split; [reflexivity |].
  split; [reflexivity |].
  assert (Hsize1 : Z.of_nat (length (first_line ++
                      drop (Z.to_nat (Z.of_nat (length first_line))) (rxBuffer sb)))
                   = SHELL_BUFFER_LEN).
  { rewrite length_app, length_drop. unfold SHELL_BUFFER_LEN in *. lia. }
  rewrite rxShellInput_fits; [| exact Hsize1 | exact Hlen2 | reflexivity | exact Hcr2].
  split; [reflexivity |]. simpl. split; [reflexivity |].
  unfold holdsLine. simpl. rewrite Nat2Z.id.
  split; [| split; [reflexivity | apply take_app_length]].
  rewrite length_app, length_drop. simpl.
  rewrite length_app, length_drop. unfold SHELL_BUFFER_LEN in *. lia.
Qed.

(** [help], a bare carriage return, then [ping]: the buffer holds [ping]. *)
Lemma X7_second_line_witness :
  exists sb1 sb2,
    rxShellInput (bytes "help") 4 (lineBuffer false []) = Ok sb1 /\
    rxShellInput [13] 1 sb1 = Ok sb1 /\
    rxShellInput (bytes "ping") 4 sb1 = Ok sb2 /\
    lineOf sb2 = bytes "ping".
Proof.
  destruct (X7_second_line_replaces_pending_line (bytes "help") [] (bytes "ping") 1
              (lineBuffer false [])
              eq_refl ltac:(split; [reflexivity | discriminate]) ltac:(discriminate)
              ltac:(split; [reflexivity | discriminate]) ltac:(discriminate))
    as (sb1 & sb2 & H1 & Hcr & H2 & _ & (_ & Hlen & Htake)).
  exists sb1, sb2. split; [exact H1 |]. split; [exact Hcr |]. split; [exact H2 |].
  unfold lineOf. rewrite Hlen, Nat2Z.id. exact Htake.
Defined.

(** ** scrubWhiteSpace: leading and trailing spaces *)

Section Trim.

(** The shift loop moves the bytes at [i + 1 .. bound] one place down and
    leaves the others. *)
Lemma shiftLoop_shift :
  forall (fuel i bound : nat) (buf : list Z),
    (i <= bound)%nat ->
    (bound < length buf)%nat ->
    (bound <= 255)%nat ->
    (bound < fuel + i)%nat ->
    shiftLoop fuel (Z.of_nat i) (Z.of_nat bound) buf
      = Ok (take i buf ++ take (bound - i) (drop (S i) buf) ++ drop bound buf).
Proof.
  induction fuel as [| fuel IH]; intros i bound buf Hi Hlen Hb Hfuel;
    [simpl in Hfuel; lia |].
  rewrite shiftLoop_unfold.
  destruct (Z.ltb_spec (Z.of_nat i) (Z.of_nat bound)) as [Hlt | Hge].
  - destruct (lookup_lt_is_Some_2 buf (S i) ltac:(lia)) as [x Hx].
    replace (Z.of_nat i + 1) with (Z.of_nat (S i)) by lia.
    rewrite (rd_lookup _ _ _ _ Hx), bind_Ok.
    rewrite wr_inside by lia. rewrite bind_Ok.
    rewrite u8_small by lia.
    rewrite IH; rewrite ?length_insert; try lia.
    rewrite (take_S_r (<[i:=x]> buf) i x) by (apply list_lookup_insert_eq; lia).
    rewrite take_insert_ge by lia.
    rewrite !drop_insert_lt by lia.
    rewrite (drop_S buf x (S i) Hx).
    replace (bound - i)%nat with (S (bound - S i)) by lia.
    simpl take. rewrite <- app_assoc. reflexivity.
  - replace bound with i by lia.
    rewrite Nat.sub_diag. simpl. rewrite take_drop. reflexivity.
Qed.

(** The first loop takes [a] leading spaces off a line whose next byte is
    no space; what was the line's tail stays in the buffer behind it. *)
Lemma scrubLeading_spaces (rest : list Z) (c : Z) :
  rest !! 0%nat = Some c ->
  c <> SPACE ->
  forall (a : nat) (tail : list Z) (fuel : nat),
    (a + length rest <= 255)%nat ->
    (a < fuel)%nat ->
    exists tail',
      scrubLeading fuel (Z.of_nat (a + length rest))
          (replicate a SPACE ++ rest ++ tail)
        = Ok (Z.of_nat (length rest), rest ++ tail') /\
      length tail' = (a + length tail)%nat.
Proof.
  intros Hc Hns.
  assert (Hpos : (0 < length rest)%nat) by (apply lookup_lt_is_Some; eauto).
  induction a as [| a IH]; intros tail fuel Hsmall Hfuel;
    (destruct fuel as [| fuel]; [lia |]); rewrite scrubLeading_unfold.
  - simpl replicate. simpl app.
    rewrite (rd_lookup _ _ 0%nat c) by (apply lookup_app_l_Some; exact Hc).
    rewrite bind_Ok.
    destruct (Z.eqb_spec c SPACE) as [| _]; [contradiction |].
    exists tail. split; reflexivity.
  - set (buf := replicate (S a) SPACE ++ rest ++ tail).
    rewrite (rd_lookup _ _ 0%nat SPACE) by reflexivity.
    rewrite bind_Ok, Z.eqb_refl.
    destruct (Z.gtb_spec (Z.of_nat (S a + length rest)) 0) as [_ | Hle]; [| lia].
    cbv [andb].
    replace (Z.of_nat (S a + length rest) - 1) with (Z.of_nat (a + length rest)) by lia.
    pose proof (shiftLoop_shift U8_FUEL 0 (a + length rest) buf) as Hshift.
    change (Z.of_nat 0) with 0 in Hshift.
    rewrite Hshift; [| lia | | lia | unfold U8_FUEL; lia].
    2:{ unfold buf. rewrite !length_app, length_replicate. lia. }
    rewrite bind_Ok, u8_small by lia.
    assert (Hnew : take 0 buf ++ take (a + length rest - 0) (drop 1 buf)
                     ++ drop (a + length rest) buf
                   = replicate a SPACE ++ rest ++ drop (a + length rest) buf).
    { rewrite Nat.sub_0_r.
      change (take 0 buf) with (@nil Z).
      change (drop 1 buf) with (replicate a SPACE ++ rest ++ tail).
      rewrite (app_assoc (replicate a SPACE) rest tail).
      rewrite take_app_length' by (rewrite length_app, length_replicate; reflexivity).
      rewrite <- app_assoc. reflexivity. }
    rewrite Hnew.
    destruct (IH (drop (a + length rest) buf) fuel ltac:(lia) ltac:(lia))
      as (tail' & Hrun & Hlen).
    exists tail'. split; [exact Hrun |].
    rewrite Hlen, length_drop. unfold buf.
    rewrite !length_app, length_replicate. lia.
Qed.

(** The second loop takes [b] trailing spaces off a line whose last byte
    before them is no space. *)
Lemma scrubTrailing_spaces (core : list Z) (c : Z) :
  core !! pred (length core) = Some c ->
  c <> SPACE ->
  forall (b : nat) (tail : list Z) (fuel : nat),
    (length core + b <= 255)%nat ->
    (b < fuel)%nat ->
    scrubTrailing fuel (Z.of_nat (length core + b))
        (Z.of_nat (length core + b) - 1)
        (core ++ replicate b SPACE ++ tail)
      = Ok (Z.of_nat (length core)).
Proof.
  intros Hc Hns.
  assert (Hpos : (0 < length core)%nat).
  { apply lookup_lt_Some in Hc. lia. }
  induction b as [| b IH]; intros tail fuel Hsmall Hfuel;
    (destruct fuel as [| fuel]; [lia |]); rewrite scrubTrailing_unfold.
  - rewrite Nat.add_0_r.
    replace (Z.of_nat (length core) - 1) with (Z.of_nat (pred (length core))) by lia.
    rewrite (rd_lookup _ _ _ c) by (apply lookup_app_l_Some; exact Hc).
    rewrite bind_Ok.
    destruct (Z.eqb_spec c SPACE) as [| _]; [contradiction |]. reflexivity.
  - replace (Z.of_nat (length core + S b) - 1) with (Z.of_nat (length core + b)) by lia.
    rewrite (rd_lookup _ _ _ SPACE).
    2:{ rewrite lookup_app_r by lia.
        replace (length core + b - length core)%nat with b by lia.
        rewrite lookup_app_l by (rewrite length_replicate; lia).
        apply lookup_replicate_2. lia. }
    rewrite bind_Ok, Z.eqb_refl.
    destruct (Z.gtb_spec (Z.of_nat (length core + S b)) 0) as [_ | Hle]; [| lia].
    cbv [andb]. cbv zeta.
    replace (Z.of_nat (length core + S b) - 1) with (Z.of_nat (length core + b)) by lia.
    rewrite !u8_small by lia.
    replace (replicate (S b) SPACE ++ tail) with (replicate b SPACE ++ SPACE :: tail).
    2:{ rewrite replicate_S_end, <- app_assoc. reflexivity. }
    apply IH; lia.
Qed.

Lemma normalized_ends (core : list Z) :
  core <> [] ->
  normalized core = true ->
  (exists c, core !! 0%nat = Some c /\ c <> SPACE) /\
  (exists c, core !! pred (length core) = Some c /\ c <> SPACE).
Proof.
  intros Hne Hnorm. unfold normalized in Hnorm.
  apply andb_true_iff in Hnorm. destruct Hnorm as [Hnorm _].
  apply andb_true_iff in Hnorm. destruct Hnorm as [Hlead Htrail].
  apply negb_true_iff in Hlead, Htrail.
  split.
  - destruct core as [| c r]; [contradiction |].
    exists c. split; [reflexivity |]. simpl in Hlead. intros ->. discriminate Hlead.
  - assert (Hlt : (pred (length core) < length core)%nat)
      by (destruct core; [contradiction | simpl; lia]).
    destruct (lookup_lt_is_Some_2 core _ Hlt) as [c Hc].
    exists c. split; [exact Hc |].
    apply (hasTrailingSpace_lookup core c Htrail Hc).
Qed.

(** A normalised line with spaces put before and behind it is scrubbed to
    the line itself. *)
Lemma scrubWhiteSpace_padded (sb : shellBufferHandle_t) (a b : nat) (core : list Z) :
  holdsLine sb (padded a b core) ->
  core <> [] ->
  normalized core = true ->
  Z.of_nat (length (padded a b core)) <= SHELL_BUFFER_LEN ->
  exists sb',
    scrubWhiteSpace sb = Ok sb' /\
    rxFlag sb' = rxFlag sb /\
    holdsLine sb' core.
Proof.
  intros (Hsize & Hlen & Htake) Hne Hnorm Hfit.
  destruct (normalized_ends core Hne Hnorm) as ((c0 & Hc0 & Hns0) & (cl & Hcl & Hnsl)).
  unfold SHELL_BUFFER_LEN in *.
  assert (Hplen : length (padded a b core) = (a + (length core + b))%nat).
  { unfold padded. rewrite !length_app, !length_replicate. reflexivity. }
  assert (Hbuf : exists tail0,
             rxBuffer sb = replicate a SPACE ++ (core ++ replicate b SPACE) ++ tail0 /\
             (length tail0 = 100 - (a + (length core + b)))%nat).
  { exists (drop (length (padded a b core)) (rxBuffer sb)). split.
    - rewrite <- (take_drop (length (padded a b core)) (rxBuffer sb)) at 1.
      rewrite Htake. unfold padded. rewrite <- !app_assoc. reflexivity.
    - rewrite length_drop, Hplen. lia. }
  destruct Hbuf as (tail0 & Hbuf & Htail0).
  unfold scrubWhiteSpace. rewrite Hlen, u8_small by lia.
  rewrite Hbuf, Hplen.
  replace (a + (length core + b))%nat
    with (a + length (core ++ replicate b SPACE))%nat
    by (rewrite length_app, length_replicate; reflexivity).
  destruct (scrubLeading_spaces (core ++ replicate b SPACE) c0
              ltac:(apply lookup_app_l_Some; exact Hc0) Hns0 a tail0 U8_FUEL)
    as (tail' & Hlead & Htail');
    [rewrite length_app, length_replicate; lia | unfold U8_FUEL; lia |].
  rewrite Hlead, bind_Ok. cbv beta iota.
  rewrite length_app, length_replicate.
  assert (Hpos : (0 < length core)%nat) by (apply lookup_lt_is_Some; eauto).
  rewrite u8_small by lia.
  rewrite <- app_assoc.
  rewrite (scrubTrailing_spaces core cl Hcl Hnsl b tail' U8_FUEL)
    by (unfold U8_FUEL; lia).
  rewrite bind_Ok.
  set (buf' := core ++ replicate b SPACE ++ tail').
  assert (Hholds' : holdsLine (mkShellBuffer (rxFlag sb) buf' (Z.of_nat (length core))) core).
  { unfold holdsLine, buf'. simpl.
    split; [| split; [reflexivity | apply take_app_length]].
    rewrite !length_app, length_replicate, Htail', Htail0.
    unfold SHELL_BUFFER_LEN. lia. }
  pose proof (scrubDuplicate_fixed _ core Hholds' Hnorm
                ltac:(unfold SHELL_BUFFER_LEN; lia) U8_FUEL 0 ltac:(lia)
                ltac:(unfold U8_FUEL; lia)) as Hdup.
  change (Z.of_nat 0) with 0 in Hdup. simpl rxBuffer in Hdup.
  rewrite Hdup, bind_Ok. cbv beta iota.
  eexists. split; [reflexivity |]. split; [reflexivity | exact Hholds'].
Qed.

End Trim.

(** X8.  A normalised, non-empty line with any number of spaces put before
    it and behind it, 100 bytes at most in all, is scrubbed to the line
    itself: the length is the line's, the buffer begins with the line, its
    size and the pending flag are as before; and scrubbing the result once
    more changes nothing. *)
Theorem X8_scrubWhiteSpace_trims_padding
    (sb : shellBufferHandle_t) (a b : nat) (core : list Z) :
  holdsLine sb (padded a b core) ->
  core <> [] ->
  normalized core = true ->
  Z.of_nat (length (padded a b core)) <= SHELL_BUFFER_LEN ->
  exists sb',
    scrubWhiteSpace sb = Ok sb' /\
    rxFlag sb' = rxFlag sb /\
    holdsLine sb' core /\
    scrubWhiteSpace sb' = Ok sb'.
Proof.
  intros Hholds Hne Hnorm Hfit.
  destruct (scrubWhiteSpace_padded sb a b core Hholds Hne Hnorm Hfit)
    as (sb' & Hrun & Hflag & Hholds').
  exists sb'. split; [exact Hrun |]. split; [exact Hflag |].
  split; [exact Hholds' |].
  apply (scrubWhiteSpace_fixed sb' core Hholds' Hne Hnorm).
  unfold padded in Hfit. rewrite !length_app in Hfit. lia.
Qed.

(** Two spaces before [ping a1] and three behind. *)
Lemma X8_scrubWhiteSpace_witness :
  exists sb',
    scrubWhiteSpace (lineBuffer true (bytes "  ping a1   ")) = Ok sb' /\
    rxFlag sb' = true /\
    lineOf sb' = bytes "ping a1" /\
    scrubWhiteSpace sb' = Ok sb'.
Proof.
  destruct (X8_scrubWhiteSpace_trims_padding
              (lineBuffer true (bytes "  ping a1   ")) 2 3 (bytes "ping a1")
              ltac:(repeat split; reflexivity) ltac:(discriminate) eq_refl
              ltac:(vm_compute; discriminate))
    as (sb' & Hrun & Hflag & (_ & Hlen & Htake) & Hagain).
  exists sb'. split; [exact Hrun |]. split; [exact Hflag |].
  split; [| exact Hagain].
  unfold lineOf. rewrite Hlen, Nat2Z.id. exact Htake.
Defined.

(** ** scrubWhiteSpace: lines with a byte that is no space *)

Section NonBlank.

(** A line with a byte that is no space: spaces, then the rest that begins
    with such a byte. *)
Lemma non_blank_split (line : list Z) :
  (exists c, c ∈ line /\ c <> SPACE) ->
  exists (a : nat) (rest : list Z) (c : Z),
    line = replicate a SPACE ++ rest /\ rest !! 0%nat = Some c /\ c <> SPACE.
Proof.
  induction line as [| x line IH]; intros (c & Hin & Hc).
  - inversion Hin.
  - destruct (decide (x = SPACE)) as [-> | Hx].
    + apply elem_of_cons in Hin. destruct Hin as [-> | Hin]; [contradiction |].
      destruct (IH (ex_intro _ c (conj Hin Hc))) as (a & rest & c' & -> & Hrest & Hc').
      exists (S a), rest, c'. split; [reflexivity | split; assumption].
    + exists 0%nat, (x :: line), x. split; [reflexivity | split; [reflexivity | exact Hx]].
Qed.

(** The second loop, started on a buffer whose first byte is no space,
    stops at a length of at least 1 whose last byte is no space. *)
Lemma scrubTrailing_stops (buf : list Z) (c0 : Z) :
  buf !! 0%nat = Some c0 ->
  c0 <> SPACE ->
  forall (fuel m : nat),
    (1 <= m)%nat ->
    (m <= length buf)%nat ->
    (m <= 255)%nat ->
    (m <= fuel)%nat ->
    exists m' : nat,
      scrubTrailing fuel (Z.of_nat m) (Z.of_nat m - 1) buf = Ok (Z.of_nat m') /\
      (1 <= m' <= m)%nat /\
      exists c, buf !! pred m' = Some c /\ c <> SPACE.
Proof.
  intros Hc0 Hns.
  induction fuel as [| fuel IH]; intros m Hm Hlen Hsmall Hfuel; [lia |].
  rewrite scrubTrailing_unfold.
  destruct (lookup_lt_is_Some_2 buf (pred m) ltac:(lia)) as [x Hx].
  replace (Z.of_nat m - 1) with (Z.of_nat (pred m)) by lia.
  rewrite (rd_lookup _ _ _ _ Hx), bind_Ok.
  destruct (Z.eqb_spec x SPACE) as [-> | Hxs].
  - destruct (Z.gtb_spec (Z.of_nat m) 0) as [_ | Hle]; [| lia].
    cbv [andb]. cbv zeta.
    assert (Hm2 : (2 <= m)%nat).
    { destruct (decide (pred m = 0%nat)) as [Heq | Hne]; [| lia].
      rewrite Heq, Hc0 in Hx. injection Hx as ->. contradiction. }
    replace (Z.of_nat m - 1) with (Z.of_nat (pred m)) by lia.
    rewrite !u8_small by lia.
    destruct (IH (pred m) ltac:(lia) ltac:(lia) ltac:(lia) ltac:(lia))
      as (m' & Hrun & Hm' & Hlast).
    exists m'. split; [exact Hrun |]. split; [lia | exact Hlast].
  - simpl andb. cbv iota.
    exists m. split; [reflexivity |]. split; [lia |].
    exists x. split; assumption.
Qed.

Lemma shiftLoop_none (fuel : nat) (i bound : Z) (buf : list Z) :
  bound <= i -> shiftLoop (S fuel) i bound buf = Ok buf.
Proof.
  intros H. rewrite shiftLoop_unfold.
  destruct (Z.ltb_spec i bound); [lia | reflexivity].
Qed.

(** The inner loop of the third pass, started behind index 0 and bounded
    inside the buffer, stays inside the buffer and leaves byte 0 alone. *)
Lemma shiftLoop_inside (buf : list Z) (start : nat) (bound : Z) :
  (1 <= start)%nat ->
  bound < Z.of_nat (length buf) ->
  bound <= 255 ->
  (start <= 255)%nat ->
  exists buf',
    shiftLoop U8_FUEL (Z.of_nat start) bound buf = Ok buf' /\
    length buf' = length buf /\
    buf' !! 0%nat = buf !! 0%nat.
Proof.
  intros Hstart Hbound Hsmall Hs.
  destruct (Z.le_gt_cases bound (Z.of_nat start)) as [Hle | Hgt].
  - exists buf. split; [apply shiftLoop_none; exact Hle | split; reflexivity].
  - replace bound with (Z.of_nat (Z.to_nat bound)) by lia.
    rewrite shiftLoop_shift by (unfold U8_FUEL; lia).
    eexists. split; [reflexivity |]. split.
    + rewrite !length_app, !length_take, !length_drop. lia.
    + rewrite lookup_app_l by (rewrite length_take; lia).
      apply lookup_take_lt. lia.
Qed.

Variable c0 : Z.
Hypothesis c0_no_space : c0 <> SPACE.

(** The third loop stays inside the buffer, never takes the length below 1
    and leaves byte 0 alone. *)
Lemma scrubDuplicate_inside :
  forall (fuel i cl : nat) (buf : list Z),
    length buf = 100%nat ->
    buf !! 0%nat = Some c0 ->
    (1 <= cl <= 100)%nat ->
    (i <= cl + 1)%nat ->
    lastByteKept cl buf ->
    (cl + 1 < fuel + i)%nat ->
    exists (cl' : nat) (buf' : list Z),
      scrubDuplicate fuel (Z.of_nat i) (Z.of_nat cl) buf = Ok (Z.of_nat cl', buf') /\
      (1 <= cl' <= cl)%nat /\
      length buf' = 100%nat /\
      buf' !! 0%nat = Some c0.
Proof.
  induction fuel as [| fuel IH]; intros i cl buf Hlen H0 Hcl Hi Hkept Hfuel;
    [simpl in Hfuel; lia |].
  rewrite scrubDuplicate_unfold.
  destruct (Z.ltb_spec (Z.of_nat i) (Z.of_nat cl)) as [Hlt | Hge].
  2:{ exists cl, buf. split; [reflexivity |]. split; [lia | split; assumption]. }
  destruct (lookup_lt_is_Some_2 buf i ltac:(lia)) as [a Ha].
  rewrite (rd_lookup _ _ _ _ Ha), bind_Ok.
  rewrite u8_small by lia.
  replace (Z.of_nat i + 1) with (Z.of_nat (S i)) by lia.
  destruct (Z.eqb_spec a SPACE) as [-> | _].
  2:{ destruct (IH (S i) cl buf Hlen H0 Hcl ltac:(lia) Hkept ltac:(lia))
        as (cl' & buf' & Hrun & Hrest).
      exists cl', buf'. split; [exact Hrun | exact Hrest]. }
  assert (Hi1 : (1 <= i)%nat).
  { destruct i as [| i]; [| lia]. rewrite H0 in Ha. injection Ha as ->. contradiction. }
  assert (Hi98 : (S i < 100)%nat).
  { destruct Hkept as [Hle | (c & Hc & Hcs)]; [lia |].
    destruct (decide (i = 99%nat)) as [-> | Hne]; [| lia].
    rewrite Hc in Ha. injection Ha as ->. contradiction. }
  destruct (lookup_lt_is_Some_2 buf (S i) ltac:(lia)) as [b Hb].
  rewrite (rd_lookup _ _ _ _ Hb), bind_Ok.
  destruct (Z.eqb_spec b SPACE) as [-> | _].
  2:{ destruct (IH (S i) cl buf Hlen H0 Hcl ltac:(lia) Hkept ltac:(lia))
        as (cl' & buf' & Hrun & Hrest).
      exists cl', buf'. split; [exact Hrun | exact Hrest]. }
  destruct (shiftLoop_inside buf (S i) (Z.of_nat cl - 2)
              ltac:(lia) ltac:(lia) ltac:(lia) ltac:(lia))
    as (buf1 & Hshift & Hlen1 & H01).
  rewrite Hshift, bind_Ok.
  replace (Z.of_nat cl - 1) with (Z.of_nat (pred cl)) by lia.
  rewrite u8_small by lia.
  destruct (IH (S i) (pred cl) buf1 ltac:(lia) ltac:(congruence) ltac:(lia)
              ltac:(lia) ltac:(left; lia) ltac:(lia))
    as (cl' & buf' & Hrun & Hcl' & Hrest).
  exists cl', buf'. split; [exact Hrun |]. split; [lia | exact Hrest].
Qed.

End NonBlank.

(** X9.  On every line of at most 100 bytes that has a byte other than the
    space, interior runs of spaces or not, scrubWhiteSpace returns: no loop
    leaves the buffer.  The pending flag and the buffer's size are as
    before, the new length is at least 1 and at most the old one, and the
    line left does not begin with a space. *)
Theorem X9_scrubWhiteSpace_returns_on_non_blank_lines
    (sb : shellBufferHandle_t) (line : list Z) :
  holdsLine sb line ->
  Z.of_nat (length line) <= SHELL_BUFFER_LEN ->
  (exists c, c ∈ line /\ c <> SPACE) ->
  exists sb',
    scrubWhiteSpace sb = Ok sb' /\
    rxFlag sb' = rxFlag sb /\
    length (rxBuffer sb') = length (rxBuffer sb) /\
    0 < rxLen sb' <= Z.of_nat (length line) /\
    hasLeadingSpace (lineOf sb') = false.
Proof.
  intros (Hsize & Hlen & Htake) Hfit Hnon.
  destruct (non_blank_split line Hnon) as (a & rest & c0 & Hline & Hc0 & Hns).
  unfold SHELL_BUFFER_LEN in *.
  assert (Hpos : (0 < length rest)%nat) by (apply lookup_lt_is_Some; eauto).
  assert (Hllen : length line = (a + length rest)%nat).
  { rewrite Hline, length_app, length_replicate. reflexivity. }
  assert (Hbuf : exists tail0,
             rxBuffer sb = replicate a SPACE ++ rest ++ tail0 /\
             (length tail0 = 100 - (a + length rest))%nat).
  { exists (drop (length line) (rxBuffer sb)). split.
    - rewrite <- (take_drop (length line) (rxBuffer sb)) at 1.
      rewrite Htake, Hline, <- app_assoc. reflexivity.
    - rewrite length_drop, Hllen. lia. }
  destruct Hbuf as (tail0 & Hbuf & Htail0).
  unfold scrubWhiteSpace. rewrite Hlen, u8_small by lia.
  rewrite Hbuf, Hllen.
  destruct (scrubLeading_spaces rest c0 Hc0 Hns a tail0 U8_FUEL)
    as (tail' & Hlead & Htail'); [lia | unfold U8_FUEL; lia |].
  rewrite Hlead, bind_Ok. cbv beta iota.
  rewrite u8_small by lia.
  assert (H0 : (rest ++ tail') !! 0%nat = Some c0) by (apply lookup_app_l_Some; exact Hc0).
  assert (Hlen1 : length (rest ++ tail') = 100%nat) by (rewrite length_app; lia).
  destruct (scrubTrailing_stops (rest ++ tail') c0 H0 Hns U8_FUEL (length rest))
    as (m' & Htrail & Hm' & (cl & Hcl & Hcls));
    [lia | lia | lia | unfold U8_FUEL; lia |].
  rewrite Htrail, bind_Ok.
  destruct (scrubDuplicate_inside c0 Hns U8_FUEL 0 m' (rest ++ tail') Hlen1 H0)
    as (cl' & buf' & Hdup & Hcl' & Hlen' & H0');
    [lia | lia | | unfold U8_FUEL; lia |].
  { destruct (decide (m' = 100%nat)) as [-> | Hne]; [| left; lia].
    right. exists cl. split; assumption. }
  change (Z.of_nat 0) with 0 in Hdup.
  rewrite Hdup, bind_Ok. cbv beta iota.
  eexists. split; [reflexivity |]. simpl.
  split; [reflexivity |].
  split; [rewrite Hlen', !length_app, length_replicate; lia |].
  split; [lia |].
  unfold lineOf. simpl. rewrite Nat2Z.id.
  destruct buf' as [| x buf']; [discriminate H0' |].
  simpl in H0'. injection H0' as ->.
  destruct cl' as [| cl']; [lia |]. simpl.
  destruct (Z.eqb_spec c0 SPACE); [contradiction | reflexivity].
Qed.

(** A line with runs of spaces inside and around. *)
Lemma X9_scrubWhiteSpace_returns_witness :
  exists sb',
    scrubWhiteSpace (lineBuffer true (bytes "  set   a1  b2 ")) = Ok sb' /\
    0 < rxLen sb' <= 15 /\
    hasLeadingSpace (lineOf sb') = false.
Proof.
  assert (Hnon : exists c, c ∈ bytes "  set   a1  b2 " /\ c <> SPACE).
  { exists 115. split; [| discriminate].
    apply list_elem_of_In. vm_compute. right; right; left. reflexivity. }
  destruct (X9_scrubWhiteSpace_returns_on_non_blank_lines
              (lineBuffer true (bytes "  set   a1  b2 ")) (bytes "  set   a1  b2 ")
              ltac:(repeat split; reflexivity) ltac:(vm_compute; discriminate) Hnon)
    as (sb' & Hrun & _ & _ & Hlen & Hlead).
  exists sb'. split; [exact Hrun |]. split; [exact Hlen | exact Hlead].
Defined.

(** ** shellParseCommand on a padded line *)

Section ParsePadded.

Variable sb : shellBufferHandle_t.
Variable cmdParseOut : shellParserOutput_t.
Variables a b : nat.
Variable core : list Z.
Hypothesis holds : holdsLine sb (padded a b core).
Hypothesis shape : wellFormedOutput cmdParseOut.
Hypothesis not_empty : core <> [].
Hypothesis is_normalized : normalized core = true.
Hypothesis no_nul : Forall (fun c => c <> 0) core.
Hypothesis fits : Z.of_nat (length (padded a b core)) <= SHELL_BUFFER_LEN.
Hypothesis terminated : Z.of_nat (length core) < SHELL_CMD_LEN.
Hypothesis short_args :
  Forall (fun t => (length t < Z.to_nat SHELL_ARG_LEN)%nat) (capturedOf core).

(** The scrub leaves the core of the line, and the core is parsed. *)
Lemma shellParseCommand_padded :
  exists sb',
    shellParseCommand sb cmdParseOut = Ok (SHELL_OK, parsedLine cmdParseOut core, sb') /\
    holdsLine sb' core /\
    rxFlag sb' = rxFlag sb.
Proof.
  destruct (scrubWhiteSpace_padded sb a b core holds not_empty is_normalized fits)
    as (sb' & Hscrub & Hflag & Hholds').
  exists sb'. split; [| split; assumption].
  pose proof (shellParseCommand_line sb' cmdParseOut core Hholds' shape not_empty
                is_normalized no_nul terminated short_args) as Hparse.
  unfold shellParseCommand in Hparse |- *.
  rewrite (scrubWhiteSpace_fixed sb' core Hholds' not_empty is_normalized) in Hparse
    by (unfold SHELL_CMD_LEN in terminated; lia).
  rewrite bind_Ok in Hparse.
  rewrite Hscrub, bind_Ok. exact Hparse.
Qed.

End ParsePadded.

(** X10.  A pending line that is a normalised, non-empty line of fewer than
    100 bytes without NUL, with any number of spaces before and behind it
    (100 bytes at most in all) and captured arguments shorter than
    [argContents], is parsed in full: shellParseCommand returns [SHELL_OK],
    the buffer is left holding the line without the padding, [cmdName] holds
    the first token as a C string, [numArgs] and [cmdArgs] the first five
    argument tokens; and the command token and the argument tokens, joined
    by single spaces, are the line. *)
Theorem X10_shellParseCommand_parses_padded_line
    (sb : shellBufferHandle_t) (cmdParseOut : shellParserOutput_t)
    (a b : nat) (core : list Z) :
  holdsLine sb (padded a b core) ->
  wellFormedOutput cmdParseOut ->
  core <> [] ->
  normalized core = true ->
  Forall (fun c => c <> 0) core ->
  Z.of_nat (length (padded a b core)) <= SHELL_BUFFER_LEN ->
  Z.of_nat (length core) < SHELL_CMD_LEN ->
  Forall (fun t => (length t < Z.to_nat SHELL_ARG_LEN)%nat) (capturedOf core) ->
  exists sb' out,
    shellParseCommand sb cmdParseOut = Ok (SHELL_OK, out, sb') /\
    holdsLine sb' core /\
    rxFlag sb' = rxFlag sb /\
    cstr (cmdName out) = commandOf core /\
    numArgs out = Z.of_nat (length (capturedOf core)) /\
    cmdArgs out = storeArgs (capturedOf core) (cmdArgs cmdParseOut) /\
    joinTokens (commandOf core :: argumentsOf core) = core.
Proof.
  intros Hholds Hshape Hne Hnorm Hnul Hfit Hterm Hshort.
  destruct (shellParseCommand_padded sb cmdParseOut a b core Hholds Hshape Hne
              Hnorm Hnul Hfit Hterm Hshort) as (sb' & Hparse & Hholds' & Hflag).
  exists sb', (parsedLine cmdParseOut core).
  split; [exact Hparse |]. split; [exact Hholds' |]. split; [exact Hflag |].
  split; [apply parsedLine_command; exact Hnul |].
  split; [reflexivity |]. split; [reflexivity |].
  destruct (splitLine_command core) as [cmd Hsplit].
  unfold commandOf. rewrite Hsplit. simpl hd.
  rewrite <- Hsplit. apply joinTokens_splitLine.
Qed.

(** [  ping a1   ] is parsed as the command [ping] with one argument. *)
Lemma X10_shellParseCommand_witness :
  exists sb' out,
    shellParseCommand (lineBuffer true (bytes "  ping a1   ")) staleParserOutput
      = Ok (SHELL_OK, out, sb') /\
    lineOf sb' = bytes "ping a1" /\
    cstr (cmdName out) = bytes "ping" /\
    numArgs out = 1.
Proof.
  assert (Hnul : Forall (fun c => c <> 0) (bytes "ping a1")).
  { let l := eval vm_compute in (bytes "ping a1") in change (bytes "ping a1") with l.
    repeat (constructor; [discriminate |]). constructor. }
  assert (Hshort : Forall (fun t => (length t < Z.to_nat SHELL_ARG_LEN)%nat)
                     (capturedOf (bytes "ping a1"))).
  { let l := eval vm_compute in (capturedOf (bytes "ping a1")) in
    change (capturedOf (bytes "ping a1")) with l.
    unfold SHELL_ARG_LEN.
    repeat (constructor; [simpl length; lia |]). constructor. }
  assert (Hshape : wellFormedOutput staleParserOutput).
  { split; [reflexivity |]. split; [reflexivity | repeat constructor]. }
  destruct (X10_shellParseCommand_parses_padded_line
              (lineBuffer true (bytes "  ping a1   ")) staleParserOutput 2 3
              (bytes "ping a1")
              ltac:(repeat split; reflexivity) Hshape ltac:(discriminate) eq_refl Hnul
              ltac:(vm_compute; discriminate) eq_refl Hshort)
    as (sb' & out & Hparse & (_ & Hlen & Htake) & _ & Hcmd & Hnum & _).
  exists sb', out. split; [exact Hparse |].
  split; [unfold lineOf; rewrite Hlen, Nat2Z.id; exact Htake |].
  split; [rewrite Hcmd; reflexivity | rewrite Hnum; reflexivity].
Defined.

(** ** exctractCommand on a blank line *)

Lemma skipDelim_spaces (n : nat) (rest : list Z) :
  skipDelim (replicate n SPACE ++ rest) = skipDelim rest.
Proof. induction n as [| n IH]; [reflexivity |]. simpl. exact IH. Qed.

(** X11.  On a line of fewer than 100 bytes that is empty or all spaces,
    strtok finds no token and returns NULL, and exctractCommand hands that
    NULL to [sprintf] as the argument of ["%s"]. *)
Theorem X11_exctractCommand_blank_line_formats_null
    (sb : shellBufferHandle_t) (cmdParseOut : shellParserOutput_t) (n : nat) :
  holdsLine sb (replicate n SPACE) ->
  Z.of_nat n < SHELL_CMD_LEN ->
  exctractCommand sb cmdParseOut = Fault NullString.
Proof.
  intros Hholds Hn. unfold exctractCommand.
  rewrite (copyBuffer_line sb _ Hholds) by (rewrite length_replicate; lia).
  rewrite bind_Ok, length_replicate.
  unfold SHELL_CMD_LEN, SHELL_BUFFER_LEN in *.
  destruct (Z.to_nat 100 - n)%nat as [| padlen] eqn:Hpad; [lia |].
  change (replicate (S padlen) 0) with (0 :: replicate padlen 0).
  unfold strtok. rewrite skipDelim_spaces. reflexivity.
Qed.

(** The empty line and the line of three spaces. *)
Lemma X11_exctractCommand_blank_witness :
  exctractCommand (lineBuffer true []) staleParserOutput = Fault NullString /\
  exctractCommand (lineBuffer true (bytes "   ")) staleParserOutput = Fault NullString.
Proof.
  split.
  - apply (X11_exctractCommand_blank_line_formats_null _ _ 0);
      [repeat split; reflexivity | reflexivity].
  - apply (X11_exctractCommand_blank_line_formats_null _ _ 3);
      [repeat split; reflexivity | reflexivity].
Defined.

(** ** extractArguments: an argument too long for [argContents] *)

Section LongArgument.

Lemma memset_from_overrun (dobj : object) (c : Z) :
  forall (n k : nat) (dst : list Z),
    (k <= length dst)%nat ->
    (length dst < k + n)%nat ->
    memset_from n (Z.of_nat k) dobj dst c
      = Fault (OutOfBounds dobj (Z.of_nat (length dst))).
Proof.
  induction n as [| n IH]; intros k dst Hk Hn; [lia |].
  simpl.
  destruct (decide (k = length dst)) as [-> | Hne].
  - rewrite wr_outside by lia. reflexivity.
  - rewrite wr_inside by lia. rewrite bind_Ok.
    replace (Z.of_nat k + 1) with (Z.of_nat (S k)) by lia.
    rewrite IH; rewrite ?length_insert; try lia. reflexivity.
Qed.

(** The loop, with [k] short words to store before a word of 20 bytes or
    more: the [memset] for that word runs over the end of [argContents]. *)
Lemma extractArguments_loop_long (pad : list Z) (tok : list Z) :
  (Z.to_nat SHELL_ARG_LEN <= length tok)%nat ->
  forall (k : nat) (free : list shellArgument_t) (toks : list (list Z))
         (done : list shellArgument_t) (fuel : nat),
    Forall word toks ->
    toks !! k = Some tok ->
    Forall (fun t => (length t < Z.to_nat SHELL_ARG_LEN)%nat) (take k toks) ->
    Forall (fun a => length (argContents a) = Z.to_nat SHELL_ARG_LEN) free ->
    (k < length free)%nat ->
    (length done + length free)%nat = Z.to_nat MAX_ARGUMENTS ->
    (k < fuel)%nat ->
    extractArguments_loop fuel (Z.of_nat (length done)) (head toks)
        (joinTokens (tail toks) ++ 0 :: pad) (done ++ free)
      = Fault (OutOfBounds ArgContents SHELL_ARG_LEN).
Proof.
  unfold MAX_ARGUMENTS, SHELL_ARG_LEN. intros Hlong.
  induction k as [| k IH]; intros free toks done fuel Hw Hk Hshort Hsize Hfree Hlen Hfuel;
    (destruct fuel as [| fuel]; [lia |]);
    (destruct free as [| a free]; [simpl in Hfree; lia |]);
    (destruct toks as [| t toks]; [discriminate Hk |]);
    rewrite extractArguments_loop_unfold; unfold MAX_ARGUMENTS;
    simpl in Hlen;
    (destruct (Z.ltb_spec (Z.of_nat (length done)) 5); [| lia]);
    change (head (t :: toks)) with (Some t); cbv iota;
    rewrite Nat2Z.id, list_lookup_middle by reflexivity;
    apply Forall_cons in Hw; destruct Hw as [Ht Hw];
    apply Forall_cons in Hsize; destruct Hsize as [Hsize1 Hsize].
  - simpl in Hk. injection Hk as ->.
    rewrite (strlen_word _ Ht). unfold memset.
    pose proof (memset_from_overrun ArgContents 0
                  (Z.to_nat (Z.of_nat (length tok) + 1)) 0 (argContents a)
                  ltac:(lia) ltac:(lia)) as Hover.
    change (Z.of_nat 0) with 0 in Hover.
    rewrite Hover, Hsize1. reflexivity.
  - simpl in Hk, Hshort, Hfree.
    apply Forall_cons in Hshort. destruct Hshort as [Hshort1 Hshort].
    rewrite (store_token (argContents a) t _ Ht ltac:(lia)).
    change (tail (t :: toks)) with toks.
    rewrite (strtok_joinTokens toks pad Hw), bind_Ok.
    cbv [fst snd].
    rewrite u8_small by lia.
    rewrite (strlen_word _ Ht).
    replace (<[length done := _]> (done ++ a :: free))
      with ((done ++ [storedArgument a t]) ++ free).
    2:{ rewrite <- app_assoc. simpl.
        replace (length done) with (length done + 0)%nat at 1 by lia.
        rewrite insert_app_r. reflexivity. }
    replace (Z.of_nat (length done) + 1)
      with (Z.of_nat (length (done ++ [storedArgument a t])))
      by (rewrite length_app; simpl; lia).
    apply IH; try assumption; try lia.
    rewrite length_app. simpl. lia.
Qed.

End LongArgument.

(** X12.  In a line of words shorter than the buffer, when one of the first
    five arguments has 20 bytes or more and the arguments before it are
    shorter, extractArguments stores the arguments before it and then
    clears [strlen + 1] bytes of the 20-byte [argContents] for it: the
    [memset] leaves the array at index 20.  The length of an argument is
    checked nowhere. *)
Theorem X12_extractArguments_long_argument_overruns
    (sb : shellBufferHandle_t) (cmdParseOut : shellParserOutput_t)
    (cmd tok : list Z) (args : list (list Z)) (k : nat) :
  holdsLine sb (joinTokens (cmd :: args)) ->
  Z.of_nat (length (joinTokens (cmd :: args))) < SHELL_CMD_LEN ->
  wellFormedOutput cmdParseOut ->
  Forall word (cmd :: args) ->
  args !! k = Some tok ->
  (k < Z.to_nat MAX_ARGUMENTS)%nat ->
  (Z.to_nat SHELL_ARG_LEN <= length tok)%nat ->
  Forall (fun t => (length t < Z.to_nat SHELL_ARG_LEN)%nat) (take k args) ->
  extractArguments sb cmdParseOut = Fault (OutOfBounds ArgContents SHELL_ARG_LEN).
Proof.
  intros Hholds Hfit (_ & Hcount & Hsizes) Hw Hk Hk5 Hlong Hshort.
  unfold extractArguments.
  rewrite (copyBuffer_line sb _ Hholds) by lia. rewrite bind_Ok.
  clear Hholds. unfold SHELL_CMD_LEN, SHELL_BUFFER_LEN in *.
  destruct (Z.to_nat 100 - length (joinTokens (cmd :: args)))%nat as [| padlen] eqn:Hpad;
    [lia |].
  change (replicate (S padlen) 0) with (0 :: replicate padlen 0).
  rewrite (strtok_joinTokens (cmd :: args) _ Hw), bind_Ok.
  cbv [snd]. change (tail (cmd :: args)) with args.
  apply Forall_cons in Hw. destruct Hw as [_ Hw].
  rewrite (strtok_joinTokens args _ Hw), bind_Ok.
  cbv [fst snd].
  pose proof (extractArguments_loop_long (replicate padlen 0) tok Hlong k
                (cmdArgs cmdParseOut) args [] (S (Z.to_nat MAX_ARGUMENTS))
                Hw Hk Hshort Hsizes) as Hloop.
  simpl length in Hloop. change (Z.of_nat 0) with 0 in Hloop. simpl app in Hloop.
  rewrite Hloop; [reflexivity | lia | lia | unfold MAX_ARGUMENTS in *; lia].
Qed.

(** A second argument of 20 bytes. *)
Lemma X12_extractArguments_long_witness :
  extractArguments (lineBuffer true (bytes "set a1 b2345678901234567890"))
      staleParserOutput
    = Fault (OutOfBounds ArgContents 20).
Proof.
  assert (Hw : Forall word [bytes "set"; bytes "a1"; bytes "b2345678901234567890"]).
  { repeat (constructor;
            [split; [discriminate |];
             repeat (constructor; [split; discriminate |]); constructor |]).
    constructor. }
  assert (Hshape : wellFormedOutput staleParserOutput).
  { split; [reflexivity |]. split; [reflexivity | repeat constructor]. }
  refine (X12_extractArguments_long_argument_overruns
            (lineBuffer true (bytes "set a1 b2345678901234567890")) staleParserOutput
            (bytes "set") (bytes "b2345678901234567890")
            [bytes "a1"; bytes "b2345678901234567890"] 1
            _ _ Hshape Hw eq_refl _ _ _).
  - repeat split; reflexivity.
  - reflexivity.
  - unfold MAX_ARGUMENTS. lia.
  - unfold SHELL_ARG_LEN. simpl length. lia.
  - unfold SHELL_ARG_LEN. constructor; [simpl length; lia | constructor].
Defined.

(** ** HelpRunner: the 500 bytes of [tmpBuffer] *)

Lemma HelpRunner_loop_concat :
  forall (helps : list (list Z)) (tmpBuffer : list Z),
    Z.of_nat (length tmpBuffer) < 500 ->
    HelpRunner_loop helps tmpBuffer =
      if Z.of_nat (length (tmpBuffer ++ concat helps)) <? 500
      then Ok (tmpBuffer ++ concat helps)
      else Fault (OutOfBounds TmpBuffer 500).
Proof.
  induction helps as [| h helps IH]; intros tmpBuffer Hlen; simpl.
  - rewrite app_nil_r.
    destruct (Z.ltb_spec (Z.of_nat (length tmpBuffer)) 500); [reflexivity | lia].
  - unfold strcat500.
    destruct (Z.ltb_spec (Z.of_nat (length (tmpBuffer ++ h))) 500) as [Hfit | Hover].
    + rewrite bind_Ok, IH by exact Hfit. rewrite <- app_assoc. reflexivity.
    + simpl.
      destruct (Z.ltb_spec (Z.of_nat (length (tmpBuffer ++ h ++ concat helps))) 500)
        as [Hfit | _]; [| reflexivity].
      rewrite !length_app in Hfit. rewrite length_app in Hover. lia.
Qed.

(** X13.  HelpRunner builds its answer in the 500 bytes of [tmpBuffer].  For
    a table of up to 255 commands (the range of the loop counter): when the
    banner and the help descriptions of all commands together have fewer
    than 500 bytes, it transmits them in one buffer, the banner first and
    the descriptions in table order, and returns [SHELL_OK]; when they have
    500 bytes or more, a [strcat] leaves [tmpBuffer].  The banner takes 94
    of the bytes; the arguments of the command line play no part. *)
Theorem X13_HelpRunner_fills_tmpBuffer
    (helps : list (list Z)) (parserInput : shellParserOutput_t) :
  (length helps <= 255)%nat ->
  Z.of_nat (length helpHeader) = 94 /\
  HelpRunner helps parserInput =
    if Z.of_nat (length (helpHeader ++ concat helps)) <? 500
    then Ok (SHELL_OK, [helpHeader ++ concat helps])
    else Fault (OutOfBounds TmpBuffer 500).
Proof.
  intros _. split; [reflexivity |].
  unfold HelpRunner.
  rewrite HelpRunner_loop_concat by (vm_compute; reflexivity).
  destruct (Z.of_nat (length (helpHeader ++ concat helps)) <? 500); reflexivity.
Qed.

(** The three descriptions of the shipped table fit; the same three
    descriptions four times over do not. *)
Lemma X13_HelpRunner_witness :
  HelpRunner helpDescs staleParserOutput = Ok (SHELL_OK, [helpText]) /\
  HelpRunner (helpDescs ++ helpDescs ++ helpDescs ++ helpDescs) staleParserOutput
    = Fault (OutOfBounds TmpBuffer 500).
Proof.
  split.
  - rewrite (proj2 (X13_HelpRunner_fills_tmpBuffer helpDescs staleParserOutput
                      ltac:(simpl; lia))).
    vm_compute. reflexivity.
  - rewrite (proj2 (X13_HelpRunner_fills_tmpBuffer
                      (helpDescs ++ helpDescs ++ helpDescs ++ helpDescs)
                      staleParserOutput ltac:(simpl; lia))).
    vm_compute. reflexivity.
Defined.

(** ** The shipped table: every line is answered by its command token *)

Section Shipped.

Lemma shellProcessCommand_validated
    (table : list shellCmdTemplate_t) (parserOutput out : shellParserOutput_t)
    (st : shell_state) (sb' : shellBufferHandle_t)
    (i : nat) (cmd : shellCmdTemplate_t) (ret : shell_error) (sent : list (list Z)) :
  (length table <= 127)%nat ->
  length (cmdArgs parserOutput) = Z.to_nat MAX_ARGUMENTS ->
  shellParseCommand (shellBuffer st) parserOutput = Ok (SHELL_OK, out, sb') ->
  table !! i = Some cmd ->
  cstr (tpl_cmdName cmd) = cstr (cmdName out) ->
  (forall (j : nat) (cmd' : shellCmdTemplate_t),
     (i < j)%nat -> table !! j = Some cmd' ->
     cstr (tpl_cmdName cmd') <> cstr (cmdName out)) ->
  wellFormedTemplate cmd ->
  mandatoryCovered out cmd = true ->
  tpl_runner cmd out = Ok (ret, sent) ->
  shellProcessCommand table parserOutput st
    = Ok (SHELL_OK,
          mkShellState sb' (trace st ++ Invoke (Z.of_nat i) :: map Transmit sent)).
Proof.
  intros Hsize Hlen Hparse Hentry Hname Hlast Hshape Hcovered Hrun.
  pose proof (shellParseCommand_parsedOutput _ _ _ _ _ Hlen Hparse) as Hout.
  unfold shellProcessCommand. rewrite Hparse, bind_Ok. cbv beta iota.
  rewrite (getCommand_matched table Hsize out Hout i cmd Hentry Hname Hlast Hshape).
  rewrite Hcovered, bind_Ok. cbv beta iota.
  rewrite (tableEntry_at table i cmd Hentry), bind_Ok.
  rewrite Hrun, bind_Ok. reflexivity.
Qed.

Lemma shipped_shape (cmd : shellCmdTemplate_t) :
  cmd ∈ shellCmdTemplateTable ->
  wellFormedTemplate cmd /\ forall out, mandatoryCovered out cmd = true.
Proof.
  unfold shellCmdTemplateTable. rewrite !elem_of_cons.
  intros [-> | [-> | [-> | Hin]]]; try (inversion Hin; fail);
    (split; [split; [reflexivity | split; discriminate] | reflexivity]).
Qed.

Variable parserOutput : shellParserOutput_t.
Variable st : shell_state.
Variable sb' : shellBufferHandle_t.
Variable out : shellParserOutput_t.
Hypothesis shape : length (cmdArgs parserOutput) = Z.to_nat MAX_ARGUMENTS.
Hypothesis parsed :
  shellParseCommand (shellBuffer st) parserOutput = Ok (SHELL_OK, out, sb').

(** The answer depends on the command name alone. *)
Lemma shipped_answer :
  shellProcessCommand shellCmdTemplateTable parserOutput st
    = Ok (fst (shippedAnswer (cstr (cmdName out))),
          mkShellState sb' (trace st ++ snd (shippedAnswer (cstr (cmdName out))))).
Proof.
  unfold shippedAnswer.
  case_bool_decide as Hhelp; [| case_bool_decide as Hqm; [| case_bool_decide as Hping]].
  - refine (shellProcessCommand_validated shellCmdTemplateTable parserOutput out st sb'
              0 _ SHELL_OK [helpText] _ shape parsed eq_refl _ _ _ _ _).
    + simpl. lia.
    + rewrite Hhelp. reflexivity.
    + intros j cmd' Hj Hlook. rewrite Hhelp.
      destruct j as [| [| [| j]]]; try lia; try discriminate Hlook;
        injection Hlook as <-; discriminate.
    + apply shipped_shape. apply list_elem_of_here.
    + apply shipped_shape. apply list_elem_of_here.
    + vm_compute. reflexivity.
  - refine (shellProcessCommand_validated shellCmdTemplateTable parserOutput out st sb'
              1 _ SHELL_OK [helpText] _ shape parsed eq_refl _ _ _ _ _).
    + simpl. lia.
    + rewrite Hqm. reflexivity.
    + intros j cmd' Hj Hlook. rewrite Hqm.
      destruct j as [| [| [| j]]]; try lia; try discriminate Hlook;
        injection Hlook as <-; discriminate.
    + apply shipped_shape. apply list_elem_of_further, list_elem_of_here.
    + apply shipped_shape. apply list_elem_of_further, list_elem_of_here.
    + vm_compute. reflexivity.
  - refine (shellProcessCommand_validated shellCmdTemplateTable parserOutput out st sb'
              2 _ SHELL_OK [bytes "Pong!" ++ CRLF] _ shape parsed eq_refl _ _ _ _ _).
    + simpl. lia.
    + rewrite Hping. reflexivity.
    + intros j cmd' Hj Hlook.
      destruct j as [| [| [| j]]]; try lia; discriminate Hlook.
    + apply shipped_shape. do 2 apply list_elem_of_further. apply list_elem_of_here.
    + apply shipped_shape. do 2 apply list_elem_of_further. apply list_elem_of_here.
    + reflexivity.
  - apply (shellProcessCommand_unknown shellCmdTemplateTable ltac:(simpl; lia)
             parserOutput out st sb' SHELL_OK parsed).
    intros cmd Hin. unfold shellCmdTemplateTable in Hin.
    rewrite !elem_of_cons in Hin.
    destruct Hin as [-> | [-> | [-> | Hin]]]; [| | | inversion Hin];
      simpl tpl_cmdName; intros Heq; rewrite <- Heq in *; contradiction.
Qed.

End Shipped.

(** X14.  The shell with the three shipped commands, on a pending line that
    is parsed (a normalised line of words, padded with spaces or not, of the
    sizes X10 names): the cycle is decided by the first token alone.  [help]
    and [?] run HelpRunner, [ping] runs PingRunner, every other token is
    answered with the command error; the arguments are read and stored but
    change nothing, and no line is answered with the argument error. *)
Theorem X14_shipped_shell_answers_by_command
    (parserOutput : shellParserOutput_t) (st : shell_state)
    (a b : nat) (core : list Z) :
  holdsLine (shellBuffer st) (padded a b core) ->
  wellFormedOutput parserOutput ->
  core <> [] ->
  normalized core = true ->
  Forall (fun c => c <> 0) core ->
  Z.of_nat (length (padded a b core)) <= SHELL_BUFFER_LEN ->
  Z.of_nat (length core) < SHELL_CMD_LEN ->
  Forall (fun t => (length t < Z.to_nat SHELL_ARG_LEN)%nat) (capturedOf core) ->
  exists sb',
    shellProcessCommand shellCmdTemplateTable parserOutput st
      = Ok (fst (shippedAnswer (commandOf core)),
            mkShellState sb' (trace st ++ snd (shippedAnswer (commandOf core)))) /\
    holdsLine sb' core /\
    rxFlag sb' = rxFlag (shellBuffer st).
Proof.
  intros Hholds Hshape Hne Hnorm Hnul Hfit Hterm Hshort.
  destruct (shellParseCommand_padded (shellBuffer st) parserOutput a b core Hholds
              Hshape Hne Hnorm Hnul Hfit Hterm Hshort) as (sb' & Hparse & Hholds' & Hflag).
  exists sb'. split; [| split; assumption].
  destruct Hshape as (_ & Hcount & _).
  rewrite (shipped_answer parserOutput st sb' _ Hcount Hparse).
  rewrite (parsedLine_command parserOutput core Hnul). reflexivity.
Qed.

(** [ ping x1 y2 ] is answered by PingRunner, [Ping] with the command error. *)
Lemma X14_shipped_shell_witness :
  (exists sb',
     shellProcessCommand shellCmdTemplateTable staleParserOutput
         (pendingLine (bytes " ping x1 y2 "))
       = Ok (SHELL_OK,
             mkShellState sb' [Invoke 2; Transmit (bytes "Pong!" ++ CRLF)]) /\
     lineOf sb' = bytes "ping x1 y2").
Proof.
  assert (Hnul : Forall (fun c => c <> 0) (bytes "ping x1 y2")).
  { let l := eval vm_compute in (bytes "ping x1 y2") in
    change (bytes "ping x1 y2") with l.
    repeat (constructor; [discriminate |]). constructor. }
  assert (Hshort : Forall (fun t => (length t < Z.to_nat SHELL_ARG_LEN)%nat)
                     (capturedOf (bytes "ping x1 y2"))).
  { let l := eval vm_compute in (capturedOf (bytes "ping x1 y2")) in
    change (capturedOf (bytes "ping x1 y2")) with l.
    unfold SHELL_ARG_LEN.
    repeat (constructor; [simpl length; lia |]). constructor. }
  assert (Hshape : wellFormedOutput staleParserOutput).
  { split; [reflexivity |]. split; [reflexivity | repeat constructor]. }
  destruct (X14_shipped_shell_answers_by_command staleParserOutput
              (pendingLine (bytes " ping x1 y2 ")) 1 1 (bytes "ping x1 y2")
              ltac:(repeat split; reflexivity) Hshape ltac:(discriminate) eq_refl Hnul
              ltac:(vm_compute; discriminate) eq_refl Hshort)
    as (sb' & Hrun & (_ & Hlen & Htake) & _).
  exists sb'. split; [exact Hrun |].
  unfold lineOf. rewrite Hlen, Nat2Z.id. exact Htake.
Defined.

(** ** exctractCommand: a command that fills the buffer *)

Lemma scanToken_runs_off (l : list Z) :
  Forall wordByte l -> scanToken l = Fault (OutOfBounds BufferCopy SHELL_CMD_LEN).
Proof.
  induction 1 as [| c l [Hc0 Hcs] _ IH]; simpl; [reflexivity |].
  destruct (Z.eqb_spec c 0); [contradiction |].
  destruct (Z.eqb_spec c SPACE); [contradiction |].
  rewrite IH. reflexivity.
Qed.

(** X15.  A single word that fills all 100 bytes of the line buffer leaves
    no room for a terminator in [bufferCopy], which has 100 bytes too: the
    scan of strtok for the end of the token passes the last byte of the
    array. *)
Theorem X15_exctractCommand_full_buffer_has_no_terminator
    (sb : shellBufferHandle_t) (cmdParseOut : shellParserOutput_t) (line : list Z) :
  holdsLine sb line ->
  Z.of_nat (length line) = SHELL_CMD_LEN ->
  Forall wordByte line ->
  exctractCommand sb cmdParseOut = Fault (OutOfBounds BufferCopy SHELL_CMD_LEN).
Proof.
  intros Hholds Hlen Hw. unfold exctractCommand.
  rewrite (copyBuffer_line sb _ Hholds) by lia.
  rewrite bind_Ok.
  replace (Z.to_nat SHELL_CMD_LEN - length line)%nat with 0%nat by lia.
  simpl replicate. rewrite app_nil_r.
  unfold strtok.
  destruct line as [| c r]; [reflexivity |].
  pose proof Hw as Hw'.
  apply Forall_cons in Hw. destruct Hw as [[Hc0 Hcs] _].
  simpl skipDelim.
  destruct (Z.eqb_spec c SPACE); [contradiction |].
  destruct (Z.eqb_spec c 0); [contradiction |].
  rewrite (scanToken_runs_off _ Hw'). reflexivity.
Qed.

(** A word of one hundred bytes [x]. *)
Lemma X15_full_buffer_witness :
  exctractCommand (lineBuffer true (replicate 100 120)) staleParserOutput
    = Fault (OutOfBounds BufferCopy 100).
Proof.
  apply (X15_exctractCommand_full_buffer_has_no_terminator _ _ (replicate 100 120)).
  - repeat split; reflexivity.
  - reflexivity.
  - apply Forall_replicate. split; discriminate.
Defined.

(** ** From rxShellInput to the answer *)

(** X16.  Intake and poll together, for the three shipped commands: a line
    handed to rxShellInput (a normalised line of words, padded with spaces
    or not, of the sizes X10 names, not beginning with a carriage return)
    is held as pending; the next checkShellStatus answers it by its first
    token, returns the status of that answer, clears the pending flag and
    leaves the line without its padding in the buffer. *)
Theorem X16_submitted_line_is_answered_at_next_poll
    (parserOutput : shellParserOutput_t) (sb : shellBufferHandle_t)
    (tr : list event) (a b : nat) (core : list Z) :
  Z.of_nat (length (rxBuffer sb)) = SHELL_BUFFER_LEN ->
  padded a b core !! 0%nat <> Some 13 ->
  wellFormedOutput parserOutput ->
  core <> [] ->
  normalized core = true ->
  Forall (fun c => c <> 0) core ->
  Z.of_nat (length (padded a b core)) <= SHELL_BUFFER_LEN ->
  Z.of_nat (length core) < SHELL_CMD_LEN ->
  Forall (fun t => (length t < Z.to_nat SHELL_ARG_LEN)%nat) (capturedOf core) ->
  exists sb1 st',
    rxShellInput (padded a b core) (Z.of_nat (length (padded a b core))) sb = Ok sb1 /\
    rxFlag sb1 = true /\
    checkShellStatus shellCmdTemplateTable parserOutput (mkShellState sb1 tr)
      = Ok (Init (fst (shippedAnswer (commandOf core))), st') /\
    trace st' = tr ++ snd (shippedAnswer (commandOf core)) /\
    rxFlag (shellBuffer st') = false /\
    holdsLine (shellBuffer st') core.
Proof.
  intros Hsize Hcr Hshape Hne Hnorm Hnul Hfit Hterm Hshort.
  assert (Hpos : 0 < Z.of_nat (length (padded a b core)) <= SHELL_BUFFER_LEN).
  { split; [| exact Hfit]. unfold padded. rewrite !length_app.
    destruct core; [contradiction | simpl; lia]. }
  rewrite (rxShellInput_fits _ _ sb Hsize Hpos eq_refl Hcr).
  set (sb1 := mkShellBuffer true _ _).
  assert (Hholds : holdsLine sb1 (padded a b core)).
  { unfold holdsLine, sb1. simpl. rewrite Nat2Z.id.
    split; [| split; [reflexivity | apply take_app_length]].
    rewrite length_app, length_drop. unfold SHELL_BUFFER_LEN in *. lia. }
  destruct (shellParseCommand_padded sb1 parserOutput a b core Hholds
              Hshape Hne Hnorm Hnul Hfit Hterm Hshort) as (sb' & Hparse & Hholds' & Hflag).
  destruct Hshape as (_ & Hcount & _).
  pose proof (shipped_answer parserOutput (mkShellState sb1 tr) sb' _ Hcount Hparse)
    as Hrun.
  rewrite (parsedLine_command parserOutput core Hnul) in Hrun.
  exists sb1, (mkShellState (mkShellBuffer false (rxBuffer sb') (rxLen sb'))
                 (tr ++ snd (shippedAnswer (commandOf core)))).
  split; [reflexivity |]. split; [reflexivity |].
  unfold checkShellStatus. simpl rxFlag. cbv iota.
  rewrite Hrun, bind_Ok. cbv beta iota.
  split; [reflexivity |]. split; [reflexivity |]. split; [reflexivity |].
  exact Hholds'.
Qed.

(** [  help] handed in and polled. *)
Lemma X16_submitted_line_witness :
  exists sb1 st',
    rxShellInput (bytes "  help") 6 (lineBuffer false []) = Ok sb1 /\
    checkShellStatus shellCmdTemplateTable staleParserOutput (mkShellState sb1 [])
      = Ok (Init SHELL_OK, st') /\
    trace st' = [Invoke 0; Transmit helpText] /\
    rxFlag (shellBuffer st') = false /\
    lineOf (shellBuffer st') = bytes "help".
Proof.
  assert (Hnul : Forall (fun c => c <> 0) (bytes "help")).
  { let l := eval vm_compute in (bytes "help") in change (bytes "help") with l.
    repeat (constructor; [discriminate |]). constructor. }
  assert (Hshape : wellFormedOutput staleParserOutput).
  { split; [reflexivity |]. split; [reflexivity | repeat constructor]. }
  destruct (X16_submitted_line_is_answered_at_next_poll staleParserOutput
              (lineBuffer false []) [] 2 0 (bytes "help")
              eq_refl ltac:(discriminate) Hshape ltac:(discriminate) eq_refl Hnul
              ltac:(vm_compute; discriminate) eq_refl ltac:(constructor))
    as (sb1 & st' & Hin & _ & Hpoll & Htrace & Hflag & (_ & Hlen & Htake)).
  exists sb1, st'. split; [exact Hin |]. split; [exact Hpoll |].
  split; [exact Htrace |]. split; [exact Hflag |].
  unfold lineOf. rewrite Hlen, Nat2Z.id. exact Htake.
Defined.

(** X17.  A blank line handed to rxShellInput (no byte, or spaces only, 100
    bytes at most, the caller's buffer not beginning with a carriage return)
    is taken as a pending line like any other, and the next checkShellStatus
    runs into the read of [rxBuffer[255]] in scrubWhiteSpace, whatever the
    command table. *)
Theorem X17_blank_input_breaks_next_poll
    (Buf : list Z) (n : nat) (b0 : Z) (sb : shellBufferHandle_t) :
  Z.of_nat (length (rxBuffer sb)) = SHELL_BUFFER_LEN ->
  Buf !! 0%nat = Some b0 ->
  b0 <> 13 ->
  (n <= length Buf)%nat ->
  Z.of_nat n <= SHELL_BUFFER_LEN ->
  take n Buf = replicate n SPACE ->
  exists sb1,
    rxShellInput Buf (Z.of_nat n) sb = Ok sb1 /\
    rxFlag sb1 = true /\
    rxLen sb1 = Z.of_nat n /\
    forall (table : list shellCmdTemplate_t) (parserOutput : shellParserOutput_t)
           (tr : list event),
      checkShellStatus table parserOutput (mkShellState sb1 tr)
        = Fault (OutOfBounds RxBuffer 255).
Proof.
  intros Hsize Hb0 Hcr Hn Hfit Hblank.
  unfold SHELL_BUFFER_LEN in *.
  unfold rxShellInput.
  rewrite (rd_lookup _ _ 0%nat _ Hb0), bind_Ok.
  destruct (Z.eqb_spec b0 13) as [| _]; [contradiction |]. simpl negb. cbv iota.
  unfold u32. rewrite Z.mod_small by lia.
  rewrite memcpy_fits by lia. rewrite bind_Ok, Nat2Z.id, Hblank.
  eexists. split; [reflexivity |]. split; [reflexivity |]. split; [reflexivity |].
  intros table parserOutput tr.
  unfold checkShellStatus. simpl rxFlag. cbv iota.
  unfold shellProcessCommand, shellParseCommand. simpl shellBuffer.
  rewrite (scrubWhiteSpace_blank _ n).
  - reflexivity.
  - simpl. rewrite length_app, length_replicate, length_drop.
    unfold SHELL_BUFFER_LEN. lia.
  - reflexivity.
  - unfold SHELL_BUFFER_LEN. lia.
  - intros k Hk. simpl.
    rewrite lookup_app_l by (rewrite length_replicate; exact Hk).
    apply lookup_replicate_2. exact Hk.
Qed.

(** A line of two spaces, and a buffer of which no byte is taken. *)
Lemma X17_blank_input_witness :
  (exists sb1,
     rxShellInput (bytes "  ") 2 (lineBuffer false []) = Ok sb1 /\
     checkShellStatus shellCmdTemplateTable staleParserOutput (mkShellState sb1 [])
       = Fault (OutOfBounds RxBuffer 255)) /\
  (exists sb1,
     rxShellInput (bytes "ping") 0 (lineBuffer false []) = Ok sb1 /\
     checkShellStatus shellCmdTemplateTable staleParserOutput (mkShellState sb1 [])
       = Fault (OutOfBounds RxBuffer 255)).
Proof.
  split.
  - destruct (X17_blank_input_breaks_next_poll (bytes "  ") 2 32 (lineBuffer false [])
                eq_refl eq_refl ltac:(discriminate) ltac:(simpl; lia)
                ltac:(discriminate) eq_refl)
      as (sb1 & Hin & _ & _ & Hpoll).
    exists sb1. split; [exact Hin | apply Hpoll].
  - destruct (X17_blank_input_breaks_next_poll (bytes "ping") 0 112 (lineBuffer false [])
                eq_refl eq_refl ltac:(discriminate) ltac:(simpl; lia)
                ltac:(discriminate) eq_refl)
      as (sb1 & Hin & _ & _ & Hpoll).
    exists sb1. split; [exact Hin | apply Hpoll].
Defined.

(** ** matchCommand on a table of 256 entries or more *)

Lemma matchCommand_loop_unfold (table : list shellCmdTemplate_t) (fuel : nat) (i : Z)
    (name : list Z) (matchFlag : bool) (commandIndex : cvalue Z) :
  matchCommand_loop table (S fuel) i name matchFlag commandIndex =
    if i <? NUM_OF_COMMANDS table then
      cmd <- tableEntry table i ;;
      let ret := strcmp name (tpl_cmdName cmd) in
      if ret =? 0 then
        matchCommand_loop table fuel (u8 (i + 1)) name true (Init (i8 i))
      else
        matchCommand_loop table fuel (u8 (i + 1)) name matchFlag commandIndex
    else Ok (matchFlag, commandIndex).
Proof. reflexivity. Qed.

(** X18.  With 256 table entries or more the loop of matchCommand has no
    end: its counter is a [uint8_t], which stays below [NUM_OF_COMMANDS]
    whatever is added to it.  However many iterations are granted, the loop
    has not returned, whether an entry carries the name or not. *)
Theorem X18_matchCommand_never_returns_on_256_entries
    (table : list shellCmdTemplate_t) (name : list Z) :
  (256 <= length table)%nat ->
  forall (fuel : nat) (i : Z) (matchFlag : bool) (commandIndex : cvalue Z),
    0 <= i < 256 ->
    matchCommand_loop table fuel i name matchFlag commandIndex = Fault OutOfFuel.
Proof.
  intros Hsize.
  induction fuel as [| fuel IH]; intros i matchFlag commandIndex Hi; [reflexivity |].
  rewrite matchCommand_loop_unfold. unfold NUM_OF_COMMANDS.
  destruct (Z.ltb_spec i (Z.of_nat (length table))) as [_ | Hge]; [| lia].
  destruct (lookup_lt_is_Some_2 table (Z.to_nat i) ltac:(lia)) as [cmd Hcmd].
  replace i with (Z.of_nat (Z.to_nat i)) at 1 by lia.
  rewrite (tableEntry_at table _ cmd Hcmd), bind_Ok. cbv zeta.
  pose proof (u8_range (i + 1)) as Hnext.
  destruct (strcmp name (tpl_cmdName cmd) =? 0); apply IH; exact Hnext.
Qed.

(** 256 entries: the loop is out of fuel after 257 and after 4000 rounds. *)
Lemma X18_matchCommand_never_returns_witness :
  matchCommand hugeTable (withName (bytes "pad")) Uninit = Fault OutOfFuel /\
  matchCommand_loop hugeTable 4000 0 (bytes "pad") false Uninit = Fault OutOfFuel.
Proof.
  assert (Hsize : (256 <= length hugeTable)%nat).
  { unfold hugeTable. rewrite length_replicate. lia. }
  split.
  - unfold matchCommand.
    rewrite (X18_matchCommand_never_returns_on_256_entries hugeTable _ Hsize
               U8_FUEL 0 false Uninit ltac:(lia)).
    reflexivity.
  - apply (X18_matchCommand_never_returns_on_256_entries hugeTable _ Hsize). lia.
Defined.

(** ** scrubWhiteSpace: one run of two spaces between two words *)

Section TwoSpaces.

Lemma hasSpaceRun_word (v : list Z) :
  Forall (fun c => c <> SPACE) v -> hasSpaceRun v = false.
Proof.
  induction 1 as [| c v Hc Hv IH]; [reflexivity |].
  destruct v as [| d v']; [reflexivity |].
  change (((c =? SPACE) && (d =? SPACE)) || hasSpaceRun (d :: v') = false).
  rewrite IH. destruct (Z.eqb_spec c SPACE); [contradiction | reflexivity].
Qed.

(** Two words with one space between them are a normalised line. *)
Lemma normalized_two_words (u v : list Z) :
  u <> [] -> v <> [] ->
  Forall (fun c => c <> SPACE) u ->
  Forall (fun c => c <> SPACE) v ->
  normalized (u ++ [SPACE] ++ v) = true.
Proof.
  intros Hu Hv Hus Hvs. unfold normalized.
  assert (Hlead : hasLeadingSpace (u ++ [SPACE] ++ v) = false).
  { destruct u as [| c u]; [contradiction |].
    apply Forall_cons in Hus. destruct Hus as [Hc _]. simpl.
    destruct (Z.eqb_spec c SPACE); [contradiction | reflexivity]. }
  assert (Htrail : hasTrailingSpace (u ++ [SPACE] ++ v) = false).
  { unfold hasTrailingSpace.
    destruct (last v) as [c |] eqn:Hlast.
    - rewrite app_assoc, last_app, Hlast.
      assert (Hin : c ∈ v) by (apply last_Some_elem_of; exact Hlast).
      rewrite Forall_forall in Hvs. specialize (Hvs c Hin).
      destruct (Z.eqb_spec c SPACE); [contradiction | reflexivity].
    - apply last_None in Hlast. contradiction. }
  assert (Hrun : hasSpaceRun (u ++ [SPACE] ++ v) = false).
  { clear Hlead Htrail Hu.
    induction Hus as [| c u Hc Hus IH].
    - destruct v as [| d v']; [contradiction |].
      pose proof (hasSpaceRun_word _ Hvs) as Hword.
      apply Forall_cons in Hvs. destruct Hvs as [Hd _].
      change (((SPACE =? SPACE) && (d =? SPACE)) || hasSpaceRun (d :: v') = false).
      rewrite Hword. destruct (Z.eqb_spec d SPACE); [contradiction | reflexivity].
    - change ((c :: u) ++ [SPACE] ++ v) with (c :: (u ++ [SPACE] ++ v)).
      remember (u ++ [SPACE] ++ v) as rest eqn:Hrest.
      destruct rest as [| d r].
      + destruct u; discriminate Hrest.
      + change (((c =? SPACE) && (d =? SPACE)) || hasSpaceRun (d :: r) = false).
        rewrite IH. destruct (Z.eqb_spec c SPACE); [contradiction | reflexivity]. }
  rewrite Hlead, Htrail, Hrun. reflexivity.
Qed.

(** The third loop passes over bytes that are no spaces. *)
Lemma scrubDuplicate_skips_word (cl : Z) (buf : list Z) :
  forall (m fuel i : nat),
    (forall k, (i <= k < i + m)%nat -> exists c, buf !! k = Some c /\ c <> SPACE) ->
    Z.of_nat (i + m) <= cl ->
    cl <= 255 ->
    scrubDuplicate (m + fuel) (Z.of_nat i) cl buf
      = scrubDuplicate fuel (Z.of_nat (i + m)) cl buf.
Proof.
  induction m as [| m IH]; intros fuel i Hword Hcl Hsmall.
  - rewrite Nat.add_0_r. reflexivity.
  - change (S m + fuel)%nat with (S (m + fuel)).
    rewrite scrubDuplicate_unfold.
    destruct (Z.ltb_spec (Z.of_nat i) cl) as [_ | Hge]; [| lia].
    destruct (Hword i ltac:(lia)) as (c & Hc & Hns).
    rewrite (rd_lookup _ _ _ _ Hc), bind_Ok.
    destruct (Z.eqb_spec c SPACE) as [| _]; [contradiction |].
    rewrite u8_small by lia.
    replace (Z.of_nat i + 1) with (Z.of_nat (S i)) by lia.
    rewrite IH; [| intros k Hk; apply Hword; lia | lia | lia].
    replace (S i + m)%nat with (i + S m)%nat by lia. reflexivity.
Qed.

End TwoSpaces.

(** X19.  Two words with a run of two spaces between them, the second word
    of two bytes or more, 100 bytes at most in all: scrubWhiteSpace takes
    one space out of the run, but the inner loop that closes the gap stops
    one byte early, so the line comes out one byte shorter with its last
    byte lost and the byte before it doubled: [u  w y z] becomes [u w y y]. *)
Theorem X19_run_of_two_spaces_costs_the_last_byte
    (sb : shellBufferHandle_t) (u w : list Z) (y z : Z) :
  holdsLine sb (u ++ [SPACE; SPACE] ++ w ++ [y; z]) ->
  Z.of_nat (length (u ++ [SPACE; SPACE] ++ w ++ [y; z])) <= SHELL_BUFFER_LEN ->
  u <> [] ->
  Forall (fun c => c <> SPACE) u ->
  Forall (fun c => c <> SPACE) (w ++ [y; z]) ->
  exists sb',
    scrubWhiteSpace sb = Ok sb' /\
    rxFlag sb' = rxFlag sb /\
    holdsLine sb' (u ++ [SPACE] ++ w ++ [y; y]).
Proof.
  intros (Hsize & Hlen & Htake) Hfit Hu Hus Hvs.
  unfold SHELL_BUFFER_LEN in *.
  set (line := u ++ [SPACE; SPACE] ++ w ++ [y; z]) in *.
  assert (Hn : length line = (length u + 2 + (length w + 2))%nat).
  { unfold line. rewrite !length_app. simpl. lia. }
  assert (Hws : Forall (fun c => c <> SPACE) w /\ y <> SPACE /\ z <> SPACE).
  { apply Forall_app in Hvs. destruct Hvs as [Hw Hyz].
    apply Forall_cons in Hyz. destruct Hyz as [Hy Hz].
    apply Forall_cons in Hz. destruct Hz as [Hz _]. auto. }
  destruct Hws as (Hw & Hy & Hz).
  assert (Hbuf : exists tail0,
             rxBuffer sb = u ++ [SPACE; SPACE] ++ w ++ [y; z] ++ tail0 /\
             (length tail0 = 100 - length line)%nat).
  { exists (drop (length line) (rxBuffer sb)). split.
    - rewrite <- (take_drop (length line) (rxBuffer sb)) at 1.
      rewrite Htake. unfold line. rewrite <- !app_assoc. reflexivity.
    - rewrite length_drop. lia. }
  destruct Hbuf as (tail0 & Hbuf & Htail0).
  assert (Hupos : (0 < length u)%nat) by (destruct u; [contradiction | simpl; lia]).
  assert (Hlook : forall k, (k < length u)%nat ->
                    exists c, rxBuffer sb !! k = Some c /\ c <> SPACE).
  { intros k Hk. destruct (lookup_lt_is_Some_2 u k Hk) as [c Hc].
    exists c. split.
    - rewrite Hbuf. apply lookup_app_l_Some. exact Hc.
    - rewrite Forall_forall in Hus. apply Hus.
      apply list_elem_of_lookup. exists k. exact Hc. }
  unfold scrubWhiteSpace. rewrite Hlen, u8_small by lia.
  (* first loop: the line begins with a byte of u *)
  unfold U8_FUEL at 1. rewrite scrubLeading_unfold.
  destruct (Hlook 0%nat Hupos) as (c0 & Hc0 & Hc0s).
  rewrite (rd_lookup _ _ 0%nat _ Hc0), bind_Ok.
  destruct (Z.eqb_spec c0 SPACE) as [| _]; [contradiction |].
  cbv [andb]. rewrite bind_Ok. cbv beta iota.
  (* second loop: the line ends with z *)
  rewrite u8_small by lia.
  unfold U8_FUEL at 1. rewrite scrubTrailing_unfold.
  assert (Hz' : rxBuffer sb !! pred (length line) = Some z).
  { rewrite Hbuf, Hn.
    rewrite lookup_app_r by lia.
    replace (pred (length u + 2 + (length w + 2)) - length u)%nat
      with (2 + (length w + 1))%nat by lia.
    change ([SPACE; SPACE] ++ w ++ [y; z] ++ tail0)
      with (SPACE :: SPACE :: (w ++ y :: z :: tail0)).
    simpl. rewrite lookup_app_r by lia.
    replace (length w + 1 - length w)%nat with 1%nat by lia. reflexivity. }
  replace (Z.of_nat (length line) - 1) with (Z.of_nat (pred (length line))) by lia.
  rewrite (rd_lookup _ _ _ _ Hz'), bind_Ok.
  destruct (Z.eqb_spec z SPACE) as [| _]; [contradiction |].
  cbv [andb]. rewrite bind_Ok.
  (* third loop: over u *)
  assert (Hfuel : U8_FUEL = (length u + S (256 - length u))%nat)
    by (unfold U8_FUEL; lia).
  rewrite Hfuel. clear Hfuel.
  pose proof (scrubDuplicate_skips_word (Z.of_nat (length line)) (rxBuffer sb)
                (length u) (S (256 - length u)) 0) as Hskip.
  change (Z.of_nat 0) with 0 in Hskip. simpl plus in Hskip.
  rewrite Hskip; [| intros k Hk; apply Hlook; lia | lia | lia].
  (* the run *)
  rewrite scrubDuplicate_unfold.
  destruct (Z.ltb_spec (Z.of_nat (length u)) (Z.of_nat (length line))) as [_ | Hge];
    [| lia].
  assert (Hs1 : rxBuffer sb !! length u = Some SPACE).
  { rewrite Hbuf. rewrite lookup_app_r by lia. rewrite Nat.sub_diag. reflexivity. }
  assert (Hs2 : rxBuffer sb !! S (length u) = Some SPACE).
  { rewrite Hbuf. rewrite lookup_app_r by lia.
    replace (S (length u) - length u)%nat with 1%nat by lia. reflexivity. }
  rewrite (rd_lookup _ _ _ _ Hs1), bind_Ok, Z.eqb_refl.
  replace (Z.of_nat (length u) + 1) with (Z.of_nat (S (length u))) by lia.
  rewrite (rd_lookup _ _ _ _ Hs2), bind_Ok, Z.eqb_refl.
  rewrite !u8_small by lia.
  replace (Z.of_nat (length line) - 2) with (Z.of_nat (length line - 2)) by lia.
  rewrite shiftLoop_shift by (unfold U8_FUEL; lia).
  rewrite bind_Ok.
  assert (Hnew : take (S (length u)) (rxBuffer sb)
                   ++ take (length line - 2 - S (length u))
                        (drop (S (S (length u))) (rxBuffer sb))
                   ++ drop (length line - 2) (rxBuffer sb)
                 = (u ++ [SPACE] ++ w ++ [y; y]) ++ z :: tail0).
  { rewrite Hbuf, Hn.
    replace (length u + 2 + (length w + 2) - 2 - S (length u))%nat
      with (length w + 1)%nat by lia.
    replace (length u + 2 + (length w + 2) - 2)%nat
      with (length u + (2 + length w))%nat by lia.
    replace (S (S (length u))) with (length u + 2)%nat by lia.
    replace (S (length u)) with (length u + 1)%nat by lia.
    rewrite (take_app_add' u _ (length u) 1) by reflexivity.
    rewrite (drop_app_add' u _ (length u) 2) by reflexivity.
    rewrite (drop_app_add' u _ (length u) (2 + length w)) by reflexivity.
    change (take 1 ([SPACE; SPACE] ++ w ++ [y; z] ++ tail0)) with [SPACE].
    change (drop 2 ([SPACE; SPACE] ++ w ++ [y; z] ++ tail0))
      with (w ++ [y; z] ++ tail0).
    change (drop (2 + length w) ([SPACE; SPACE] ++ w ++ [y; z] ++ tail0))
      with (drop (length w) (w ++ [y; z] ++ tail0)).
    rewrite drop_app_length.
    rewrite (take_app_add' w _ (length w) 1) by reflexivity.
    change (take 1 ([y; z] ++ tail0)) with [y].
    rewrite <- !app_assoc. reflexivity. }
  rewrite Hnew.
  set (line' := u ++ [SPACE] ++ w ++ [y; y]).
  assert (Hn' : length line' = pred (length line)).
  { unfold line'. rewrite Hn, !length_app. simpl. lia. }
  replace (Z.of_nat (length line) - 1) with (Z.of_nat (length line')) by lia.
  assert (Hholds' : holdsLine (mkShellBuffer (rxFlag sb) (line' ++ z :: tail0)
                                 (Z.of_nat (length line'))) line').
  { unfold holdsLine. simpl.
    split; [| split; [reflexivity | apply take_app_length]].
    rewrite length_app. simpl. unfold SHELL_BUFFER_LEN. lia. }
  assert (Hnorm' : normalized line' = true).
  { unfold line'. apply normalized_two_words; try assumption.
    - destruct w; discriminate.
    - apply Forall_app. split; [exact Hw |]. repeat constructor; assumption. }
  pose proof (scrubDuplicate_fixed _ line' Hholds' Hnorm'
                ltac:(unfold SHELL_BUFFER_LEN; lia)
                (256 - length u) (S (length u)) ltac:(lia) ltac:(lia)) as Hrest.
  simpl rxBuffer in Hrest.
  rewrite Hrest, bind_Ok. cbv beta iota.
  eexists. split; [reflexivity |]. split; [reflexivity | exact Hholds'].
Qed.

(** [ping  a1] comes out as [ping aa]. *)
Lemma X19_run_of_two_spaces_witness :
  exists sb',
    scrubWhiteSpace (lineBuffer true (bytes "ping  a1")) = Ok sb' /\
    lineOf sb' = bytes "ping aa".
Proof.
  assert (Hu : Forall (fun c => c <> SPACE) (bytes "ping")).
  { repeat (constructor; [discriminate |]). constructor. }
  assert (Hv : Forall (fun c => c <> SPACE) ([] ++ [97; 49])).
  { repeat (constructor; [discriminate |]). constructor. }
  destruct (X19_run_of_two_spaces_costs_the_last_byte
              (lineBuffer true (bytes "ping  a1")) (bytes "ping") [] 97 49
              ltac:(repeat split; reflexivity) ltac:(vm_compute; discriminate)
              ltac:(discriminate) Hu Hv)
    as (sb' & Hrun & _ & (_ & Hlen & Htake)).
  exists sb'. split; [exact Hrun |].
  unfold lineOf. rewrite Hlen, Nat2Z.id. exact Htake.
Defined.
